(** * QueryParamsEditor: a shallow embedding of [query-param-editor.js]

    The custom element keeps an editable table of key/value rows,
    derives a query string from it with [URLSearchParams] and mirrors
    that string into the elements matched by its [target] selector.

    The file has three layers:
    - the platform functions the element calls (ECMAScript strings,
      [JSON], the URL Standard's [URLSearchParams], the HTML
      tokenizer's attribute states), modelled from their standards;
    - the element's methods, one definition per method of the class,
      written in a small state-and-exception monad;
    - the properties of the methods. *)

From Stdlib Require Import NArith ZArith List String Ascii Lia Bool.
From stdpp Require Import gmap list.
Import ListNotations.

Local Open Scope N_scope.

(** ** JavaScript strings

    A JavaScript string is a sequence of UTF-16 code units.  A code
    unit is a natural number below [2^16]; [wf_string] says so. *)

Abbreviation jsstring := (list N).

Definition js (s : string) : jsstring :=
  List.map N_of_ascii (list_ascii_of_string s).
Arguments js s%_string.

(** [jsq] reads a literal in which every apostrophe stands for a
    double quote. *)
Definition jsq (s : string) : jsstring :=
  List.map (fun c => if c =? 39 then 34 else c) (js s).
Arguments jsq s%_string.

Definition wf_unit (c : N) : Prop := c < 65536.
Definition wf_string (s : jsstring) : Prop := Forall wf_unit s.

Definition in_range (lo hi c : N) : bool := (lo <=? c) && (c <=? hi).

(** [String.prototype.includes] and [indexOf] for a one-unit needle,
    and [slice] with a single argument. *)
Definition includes (s : jsstring) (c : N) : bool := existsb (N.eqb c) s.

Fixpoint indexOf (s : jsstring) (c : N) : Z :=
  match s with
  | [] => (-1)%Z
  | d :: r =>
      if d =? c then 0%Z
      else match indexOf r c with
           | Zneg _ => (-1)%Z
           | i => (i + 1)%Z
           end
  end.

Definition slice (s : jsstring) (start : Z) : jsstring :=
  let len := Z.of_nat (List.length s) in
  let from := if (start <? 0)%Z then Z.max (len + start) 0 else Z.min start len in
  drop (Z.to_nat from) s.

(** White space and line terminators of ECMAScript, as stripped by
    [String.prototype.trim]. *)
Definition is_white_space (c : N) : bool :=
  in_range 9 13 c || (c =? 32) || (c =? 160) || (c =? 5760)
  || in_range 8192 8202 c || (c =? 8232) || (c =? 8233) || (c =? 8239)
  || (c =? 8287) || (c =? 12288) || (c =? 65279).

Fixpoint trimStart (s : jsstring) : jsstring :=
  match s with
  | c :: r => if is_white_space c then trimStart r else s
  | [] => []
  end.

Fixpoint trimEnd (s : jsstring) : jsstring :=
  match s with
  | [] => []
  | c :: r =>
      match trimEnd r with
      | [] => if is_white_space c then [] else [c]
      | r' => c :: r'
      end
  end.

Definition trim (s : jsstring) : jsstring := trimEnd (trimStart s).

(** ** UTF-16 and UTF-8 (Encoding Standard)

    Web IDL converts a string handed to [URLSearchParams] to a scalar
    value string: a surrogate that is not part of a pair becomes
    U+FFFD.  [utf16_decode] yields the scalar values of that string. *)

Definition is_high (c : N) : bool := in_range 55296 56319 c.
Definition is_low (c : N) : bool := in_range 56320 57343 c.
Definition is_surrogate (c : N) : bool := in_range 55296 57343 c.

Definition pair_value (hi lo : N) : N :=
  65536 + N.shiftl (hi - 55296) 10 + (lo - 56320).

Fixpoint utf16_decode (s : jsstring) : list N :=
  match s with
  | [] => []
  | c :: r =>
      if is_high c then
        match r with
        | d :: r' =>
            if is_low d then pair_value c d :: utf16_decode r'
            else 65533 :: utf16_decode r
        | [] => [65533]
        end
      else if is_low c then 65533 :: utf16_decode r
      else c :: utf16_decode r
  end.

Definition utf16_encode_cp (cp : N) : jsstring :=
  if cp <? 65536 then [cp]
  else [55296 + N.shiftr (cp - 65536) 10; 56320 + N.land (cp - 65536) 1023].

Definition utf16_encode (cps : list N) : jsstring :=
  flat_map utf16_encode_cp cps.

Definition to_usv (s : jsstring) : jsstring := utf16_encode (utf16_decode s).

Definition is_scalar (cp : N) : Prop :=
  cp < 1114112 /\ is_surrogate cp = false.

(** The UTF-8 encoder: one to four bytes for a scalar value. *)
Definition utf8_continuation (cp shift : N) : N :=
  N.lor 128 (N.land (N.shiftr cp shift) 63).

Definition utf8_encode_cp (cp : N) : list N :=
  if cp <=? 127 then [cp]
  else if cp <=? 2047 then
    [N.shiftr cp 6 + 192; utf8_continuation cp 0]
  else if cp <=? 65535 then
    [N.shiftr cp 12 + 224; utf8_continuation cp 6; utf8_continuation cp 0]
  else
    [N.shiftr cp 18 + 240; utf8_continuation cp 12; utf8_continuation cp 6;
     utf8_continuation cp 0].

Definition utf8_encode (s : jsstring) : list N :=
  flat_map utf8_encode_cp (utf16_decode s).

(** The UTF-8 decoder with error mode "replacement".  Its state is the
    code point under construction, the bytes seen and needed, and the
    bounds of the next continuation byte. *)
Record Utf8State := {
  u8_code_point : N;
  u8_seen : N;
  u8_needed : N;
  u8_lower : N;
  u8_upper : N
}.

Definition u8_init : Utf8State :=
  {| u8_code_point := 0; u8_seen := 0; u8_needed := 0;
     u8_lower := 128; u8_upper := 191 |}.

(** A byte read while no bytes are needed: an emitted scalar value, if
    any, and the next state. *)
Definition utf8_lead (b : N) : option N * Utf8State :=
  if b <=? 127 then (Some b, u8_init)
  else if in_range 194 223 b then
    (None, {| u8_code_point := N.land b 31; u8_seen := 0; u8_needed := 1;
              u8_lower := 128; u8_upper := 191 |})
  else if in_range 224 239 b then
    (None, {| u8_code_point := N.land b 15; u8_seen := 0; u8_needed := 2;
              u8_lower := if b =? 224 then 160 else 128;
              u8_upper := if b =? 237 then 159 else 191 |})
  else if in_range 240 244 b then
    (None, {| u8_code_point := N.land b 7; u8_seen := 0; u8_needed := 3;
              u8_lower := if b =? 240 then 144 else 128;
              u8_upper := if b =? 244 then 143 else 191 |})
  else (Some 65533, u8_init).

Definition cons_opt {A} (o : option A) (l : list A) : list A :=
  match o with Some x => x :: l | None => l end.

Fixpoint utf8_decode_from (st : Utf8State) (bs : list N) : list N :=
  match bs with
  | [] => if u8_needed st =? 0 then [] else [65533]
  | b :: r =>
      if u8_needed st =? 0 then
        let '(out, st') := utf8_lead b in cons_opt out (utf8_decode_from st' r)
      else if negb (in_range (u8_lower st) (u8_upper st) b) then
        (* error; the byte is processed again from the initial state *)
        let '(out, st') := utf8_lead b in
        65533 :: cons_opt out (utf8_decode_from st' r)
      else
        let cp := N.lor (N.shiftl (u8_code_point st) 6) (N.land b 63) in
        let seen := u8_seen st + 1 in
        if seen =? u8_needed st then cp :: utf8_decode_from u8_init r
        else utf8_decode_from
               {| u8_code_point := cp; u8_seen := seen;
                  u8_needed := u8_needed st;
                  u8_lower := 128; u8_upper := 191 |} r
  end.

(** "UTF-8 decode without BOM", returning a JavaScript string. *)
Definition utf8_decode (bs : list N) : jsstring :=
  utf16_encode (utf8_decode_from u8_init bs).

(** ** application/x-www-form-urlencoded (URL Standard) *)

Definition is_alnum (b : N) : bool :=
  in_range 48 57 b || in_range 65 90 b || in_range 97 122 b.

(** Bytes the serializer leaves as they are: ASCII alphanumerics and
    [*], [-], [.], [_]. *)
Definition urlencoded_safe (b : N) : bool :=
  is_alnum b || (b =? 42) || (b =? 45) || (b =? 46) || (b =? 95).

Definition hex_digit (d : N) : N := if d <? 10 then 48 + d else 55 + d.

Definition urlencode_byte (b : N) : jsstring :=
  if b =? 32 then [43]
  else if urlencoded_safe b then [b]
  else [37; hex_digit (N.shiftr b 4); hex_digit (N.land b 15)].

Definition urlencode (s : jsstring) : jsstring :=
  flat_map urlencode_byte (utf8_encode s).

Definition hex_value (c : N) : option N :=
  if in_range 48 57 c then Some (c - 48)
  else if in_range 65 70 c then Some (c - 55)
  else if in_range 97 102 c then Some (c - 87)
  else None.

Fixpoint percent_decode (bs : list N) : list N :=
  match bs with
  | [] => []
  | b :: r =>
      if b =? 37 then
        match r with
        | h :: l :: r' =>
            match hex_value h, hex_value l with
            | Some x, Some y => (16 * x + y) :: percent_decode r'
            | _, _ => b :: percent_decode r
            end
        | _ => b :: percent_decode r
        end
      else b :: percent_decode r
  end.

(** Strictly split a byte sequence on a separator. *)
Fixpoint split_on (sep : N) (bs : list N) : list (list N) :=
  match bs with
  | [] => [[]]
  | b :: r =>
      if b =? sep then [] :: split_on sep r
      else match split_on sep r with
           | h :: t => (b :: h) :: t
           | [] => [[b]]
           end
  end.

Fixpoint split_first (sep : N) (bs : list N) : list N * list N :=
  match bs with
  | [] => ([], [])
  | b :: r =>
      if b =? sep then ([], r)
      else let '(n, v) := split_first sep r in (b :: n, v)
  end.

Definition plus_to_space (bs : list N) : list N :=
  List.map (fun b => if b =? 43 then 32 else b) bs.

Definition urlencoded_decode (bs : list N) : jsstring :=
  utf8_decode (percent_decode (plus_to_space bs)).

(** The urlencoded parser on bytes. *)
Definition urlencoded_parse_bytes (input : list N) : list (jsstring * jsstring) :=
  flat_map
    (fun bytes =>
       match bytes with
       | [] => []
       | _ =>
           let '(name, value) :=
             if existsb (N.eqb 61) bytes then split_first 61 bytes
             else (bytes, []) in
           [(urlencoded_decode name, urlencoded_decode value)]
       end)
    (split_on 38 input).

Definition urlencoded_parse (input : jsstring) : list (jsstring * jsstring) :=
  urlencoded_parse_bytes (utf8_encode input).

(** The urlencoded serializer. *)
Fixpoint urlencoded_serialize (tuples : list (jsstring * jsstring)) : jsstring :=
  match tuples with
  | [] => []
  | [(n, v)] => urlencode n ++ [61] ++ urlencode v
  | (n, v) :: rest =>
      urlencode n ++ [61] ++ urlencode v ++ [38] ++ urlencoded_serialize rest
  end.

(** ** URLSearchParams

    The object's list of name/value tuples. *)
Module URLSearchParams.

Abbreviation t := (list (jsstring * jsstring)).

(** [new URLSearchParams()] *)
Definition empty : t := [].

(** [new URLSearchParams(init)] for a string [init]: a leading [?]
    is dropped and the rest is parsed. *)
Definition of_string (init : jsstring) : t :=
  let init := to_usv init in
  match init with
  | 63 :: rest => urlencoded_parse rest
  | _ => urlencoded_parse init
  end.

Definition has_name (name : jsstring) (l : t) : bool :=
  existsb (fun p => bool_decide (p.1 = name)) l.

(** Replace the value of the first tuple named [name] and remove
    the other tuples with that name. *)
Fixpoint set_first (name value : jsstring) (l : t) : t :=
  match l with
  | [] => []
  | (n, v) :: r =>
      if bool_decide (n = name)
      then (n, value) :: List.filter (fun p => negb (bool_decide (p.1 = name))) r
      else (n, v) :: set_first name value r
  end.

(** [usp.set(name, value)] *)
Definition set (name value : jsstring) (l : t) : t :=
  let name := to_usv name in
  let value := to_usv value in
  if has_name name l then set_first name value l
  else l ++ [(name, value)].

(** [usp.toString()] *)
Definition toString (l : t) : jsstring := urlencoded_serialize l.

(** [usp.entries()], in order. *)
Definition entries (l : t) : list (jsstring * jsstring) := l.

End URLSearchParams.

(** ** Outcomes of JavaScript computations

    A computation returns, throws, or leaves the fragment of the
    platform that this development models ([Unmodelled]: markup that
    needs the full HTML parser, a number that needs IEEE arithmetic). *)

Inductive JsError :=
| TypeError
| SyntaxError
| InvalidStateError
| Error (message : jsstring).

Inductive Outcome (A : Type) :=
| Returns (a : A)
| Throws (e : JsError)
| Unmodelled.
Arguments Returns {A} a.
Arguments Throws {A} e.
Arguments Unmodelled {A}.

Definition obind {A B} (o : Outcome A) (k : A -> Outcome B) : Outcome B :=
  match o with
  | Returns a => k a
  | Throws e => Throws e
  | Unmodelled => Unmodelled
  end.

(** ** JavaScript values

    The data values that [JSON.parse] produces and that a caller passes
    to [setParams], and [undefined].  A Number is kept exactly when it
    is an integer of magnitude at most [2^53]; of any other Number only
    the literal is kept and its conversions are [Unmodelled]. *)

Inductive JsNumber :=
| NumInt (z : Z)
| NumOther (lexeme : jsstring).

#[local] Set Warnings "-register-all".
Inductive JsVal :=
| VUndefined
| VNull
| VBool (b : bool)
| VNum (n : JsNumber)
| VStr (s : jsstring)
| VArr (items : list JsVal)
| VObj (props : list (jsstring * JsVal)).

(** The last binding of a name in a property list: a later duplicate
    member of a JSON text overrides an earlier one. *)
Fixpoint own_property (props : list (jsstring * JsVal)) (name : jsstring)
  : option JsVal :=
  match props with
  | [] => None
  | (n, v) :: r =>
      match own_property r name with
      | Some w => Some w
      | None => if bool_decide (n = name) then Some v else None
      end
  end.

(** [v.length] *)
Definition Get_length (v : JsVal) : Outcome JsVal :=
  match v with
  | VUndefined | VNull => Throws TypeError
  | VStr s => Returns (VNum (NumInt (Z.of_nat (List.length s))))
  | VArr l => Returns (VNum (NumInt (Z.of_nat (List.length l))))
  | VObj props => Returns (default VUndefined (own_property props (js "length")))
  | VBool _ | VNum _ => Returns VUndefined
  end.

(** [v.key] and [v.value]: property names that no built-in prototype
    defines, so that only an object's own properties answer. *)
Definition Get (v : JsVal) (name : jsstring) : Outcome JsVal :=
  match v with
  | VUndefined | VNull => Throws TypeError
  | VObj props => Returns (default VUndefined (own_property props name))
  | _ => Returns VUndefined
  end.

Definition ToBoolean (v : JsVal) : Outcome bool :=
  match v with
  | VUndefined | VNull => Returns false
  | VBool b => Returns b
  | VNum (NumInt z) => Returns (negb (z =? 0)%Z)
  | VNum (NumOther _) => Unmodelled
  | VStr s => Returns (negb (bool_decide (s = [])))
  | VArr _ | VObj _ => Returns true
  end.

Definition Array_isArray (v : JsVal) : bool :=
  match v with VArr _ => true | _ => false end.

Definition elements_of (v : JsVal) : list JsVal :=
  match v with VArr l => l | _ => [] end.

Fixpoint uint_digits (d : Decimal.uint) : jsstring :=
  match d with
  | Decimal.Nil => []
  | Decimal.D0 r => 48 :: uint_digits r
  | Decimal.D1 r => 49 :: uint_digits r
  | Decimal.D2 r => 50 :: uint_digits r
  | Decimal.D3 r => 51 :: uint_digits r
  | Decimal.D4 r => 52 :: uint_digits r
  | Decimal.D5 r => 53 :: uint_digits r
  | Decimal.D6 r => 54 :: uint_digits r
  | Decimal.D7 r => 55 :: uint_digits r
  | Decimal.D8 r => 56 :: uint_digits r
  | Decimal.D9 r => 57 :: uint_digits r
  end.

(** [Number::toString] writes an integer of magnitude at most [2^53]
    with its decimal digits; a Number beyond that is no such integer,
    or is written with other digits or with an exponent. *)
Definition Number_toString (n : JsNumber) : Outcome jsstring :=
  match n with
  | NumInt z =>
      if (Z.abs z <=? 9007199254740992)%Z then
        Returns ((if (z <? 0)%Z then [45] else [])
                 ++ uint_digits (N.to_uint (Z.abs_N z)))
      else Unmodelled
  | NumOther _ => Unmodelled
  end.

Fixpoint join (sep : jsstring) (parts : list jsstring) : jsstring :=
  match parts with
  | [] => []
  | [p] => p
  | p :: r => p ++ sep ++ join sep r
  end.

Definition is_nullish (v : JsVal) : bool :=
  match v with VUndefined | VNull => true | _ => false end.

(** [ToString], as a template literal applies it.  An array is joined
    with commas, [null] and [undefined] elements giving the empty
    string.  An object without an own [toString] answers through
    [Object.prototype.toString]; with one (a data value, so not
    callable) no primitive is found and a [TypeError] is thrown. *)
Fixpoint ToString (v : JsVal) : Outcome jsstring :=
  match v with
  | VUndefined => Returns (js "undefined")
  | VNull => Returns (js "null")
  | VBool true => Returns (js "true")
  | VBool false => Returns (js "false")
  | VNum n => Number_toString n
  | VStr s => Returns s
  | VArr l =>
      obind
        ((fix element_strings (l : list JsVal) : Outcome (list jsstring) :=
            match l with
            | [] => Returns []
            | x :: r =>
                obind (if is_nullish x then Returns [] else ToString x)
                      (fun s => obind (element_strings r)
                                  (fun ss => Returns (s :: ss)))
            end) l)
        (fun parts => Returns (join [44] parts))
  | VObj props =>
      match own_property props (js "toString") with
      | Some _ => Throws TypeError
      | None => Returns (js "[object Object]")
      end
  end.

(** The strings of the elements of an array, as [ToString] joins them. *)
Fixpoint element_strings (l : list JsVal) : Outcome (list jsstring) :=
  match l with
  | [] => Returns []
  | x :: r =>
      obind (if is_nullish x then Returns [] else ToString x)
            (fun s => obind (element_strings r) (fun ss => Returns (s :: ss)))
  end.

(** ** JSON *)

Definition is_json_ws (c : N) : bool :=
  (c =? 9) || (c =? 10) || (c =? 13) || (c =? 32).

Fixpoint skip_ws (s : jsstring) : jsstring :=
  match s with
  | c :: r => if is_json_ws c then skip_ws r else s
  | [] => []
  end.

Definition is_digit (c : N) : bool := in_range 48 57 c.

Fixpoint take_digits (s : jsstring) : jsstring * jsstring :=
  match s with
  | c :: r =>
      if is_digit c then let '(d, r') := take_digits r in (c :: d, r')
      else ([], s)
  | [] => ([], [])
  end.

Definition digits_value (d : jsstring) : Z :=
  fold_left (fun acc c => (10 * acc + Z.of_N (c - 48))%Z) d 0%Z.

(** A JSON number: an optional minus sign, an integer part without
    leading zeros, an optional fraction and an optional exponent. *)
Definition parse_number (s : jsstring) : option (JsNumber * jsstring) :=
  let '(sign, s1) := match s with 45 :: r => ([45], r) | _ => ([], s) end in
  let int_part :=
    match s1 with
    | 48 :: r => Some ([48], r)
    | c :: _ => if is_digit c then Some (take_digits s1) else None
    | [] => None
    end in
  match int_part with
  | None => None
  | Some (int, s2) =>
      let frac :=
        match s2 with
        | 46 :: r =>
            match take_digits r with
            | ([], _) => None
            | (d, r') => Some (46 :: d, r')
            end
        | _ => Some ([], s2)
        end in
      match frac with
      | None => None
      | Some (fr, s3) =>
          let exp :=
            match s3 with
            | e :: r =>
                if (e =? 101) || (e =? 69) then
                  let '(sg, r1) :=
                    match r with
                    | g :: r' =>
                        if (g =? 43) || (g =? 45) then ([g], r') else ([], r)
                    | [] => ([], r)
                    end in
                  match take_digits r1 with
                  | ([], _) => None
                  | (d, r') => Some (e :: sg ++ d, r')
                  end
                else Some ([], s3)
            | [] => Some ([], s3)
            end in
          match exp with
          | None => None
          | Some (ex, s4) =>
              let magnitude := digits_value int in
              let n :=
                match fr, ex with
                | [], [] =>
                    if (magnitude <=? 9007199254740992)%Z
                    then NumInt (match sign with
                                 | [] => magnitude
                                 | _ => (- magnitude)%Z
                                 end)
                    else NumOther (sign ++ int)
                | _, _ => NumOther (sign ++ int ++ fr ++ ex)
                end in
              Some (n, s4)
          end
      end
  end.

(** The characters of a JSON string after its opening quote. *)
Fixpoint parse_string_body (s : jsstring) : option (jsstring * jsstring) :=
  match s with
  | [] => None
  | c :: r =>
      if c =? 34 then Some ([], r)
      else if c =? 92 then
        match r with
        | e :: r1 =>
            let simple (u : N) :=
              match parse_string_body r1 with
              | Some (t, r') => Some (u :: t, r')
              | None => None
              end in
            if (e =? 34) || (e =? 92) || (e =? 47) then simple e
            else if e =? 98 then simple 8
            else if e =? 102 then simple 12
            else if e =? 110 then simple 10
            else if e =? 114 then simple 13
            else if e =? 116 then simple 9
            else if e =? 117 then
              match r1 with
              | h1 :: h2 :: h3 :: h4 :: r2 =>
                  match hex_value h1, hex_value h2, hex_value h3, hex_value h4 with
                  | Some a, Some b, Some c', Some d =>
                      match parse_string_body r2 with
                      | Some (t, r') =>
                          Some (4096 * a + 256 * b + 16 * c' + d :: t, r')
                      | None => None
                      end
                  | _, _, _, _ => None
                  end
              | _ => None
              end
            else None
        | [] => None
        end
      else if c <? 32 then None
      else match parse_string_body r with
           | Some (t, r') => Some (c :: t, r')
           | None => None
           end
  end.

Definition strip_prefix (p s : jsstring) : option jsstring :=
  if bool_decide (take (List.length p) s = p)
  then Some (drop (List.length p) s) else None.

(** A JSON value, then the elements of an array after its first
    element, then the members of an object; [fuel] bounds the nesting
    and the number of elements. *)
Fixpoint parse_value (fuel : nat) (s : jsstring) : option (JsVal * jsstring) :=
  match fuel with
  | O => None
  | S fuel =>
      match skip_ws s with
      | [] => None
      | c :: r =>
          if c =? 34 then
            match parse_string_body r with
            | Some (t, r') => Some (VStr t, r')
            | None => None
            end
          else if c =? 91 then
            match skip_ws r with
            | 93 :: r' => Some (VArr [], r')
            | _ =>
                match parse_elements fuel r with
                | Some (l, r') => Some (VArr l, r')
                | None => None
                end
            end
          else if c =? 123 then
            match skip_ws r with
            | 125 :: r' => Some (VObj [], r')
            | _ =>
                match parse_members fuel r with
                | Some (l, r') => Some (VObj l, r')
                | None => None
                end
            end
          else if (c =? 45) || is_digit c then
            match parse_number (c :: r) with
            | Some (n, r') => Some (VNum n, r')
            | None => None
            end
          else
            match strip_prefix (js "null") (c :: r),
                  strip_prefix (js "true") (c :: r),
                  strip_prefix (js "false") (c :: r) with
            | Some r', _, _ => Some (VNull, r')
            | _, Some r', _ => Some (VBool true, r')
            | _, _, Some r' => Some (VBool false, r')
            | _, _, _ => None
            end
      end
  end
with parse_elements (fuel : nat) (s : jsstring) : option (list JsVal * jsstring) :=
  match fuel with
  | O => None
  | S fuel =>
      match parse_value fuel s with
      | None => None
      | Some (v, r) =>
          match skip_ws r with
          | 93 :: r' => Some ([v], r')
          | 44 :: r' =>
              match parse_elements fuel r' with
              | Some (l, r'') => Some (v :: l, r'')
              | None => None
              end
          | _ => None
          end
      end
  end
with parse_members (fuel : nat) (s : jsstring)
  : option (list (jsstring * JsVal) * jsstring) :=
  match fuel with
  | O => None
  | S fuel =>
      match skip_ws s with
      | 34 :: r =>
          match parse_string_body r with
          | None => None
          | Some (name, r1) =>
              match skip_ws r1 with
              | 58 :: r2 =>
                  match parse_value fuel r2 with
                  | None => None
                  | Some (v, r3) =>
                      match skip_ws r3 with
                      | 125 :: r' => Some ([(name, v)], r')
                      | 44 :: r' =>
                          match parse_members fuel r' with
                          | Some (l, r'') => Some ((name, v) :: l, r'')
                          | None => None
                          end
                      | _ => None
                      end
                  end
              | _ => None
              end
          end
      | _ => None
      end
  end.

(** [JSON.parse(text)]: the value, or a [SyntaxError].  The fuel is
    twice the length of the text and two: every value, element and
    member takes at least one unit of it. *)
Definition JSON_parse (text : jsstring) : Outcome JsVal :=
  match parse_value (2 * List.length text + 2) text with
  | Some (v, rest) =>
      match skip_ws rest with
      | [] => Returns v
      | _ => Throws SyntaxError
      end
  | None => Throws SyntaxError
  end.

(** [QuoteJSONString] *)
Definition lower_hex_digit (d : N) : N := if d <? 10 then 48 + d else 87 + d.

Definition unicode_escape (c : N) : jsstring :=
  [92; 117; lower_hex_digit (N.shiftr c 12);
   lower_hex_digit (N.land (N.shiftr c 8) 15);
   lower_hex_digit (N.land (N.shiftr c 4) 15);
   lower_hex_digit (N.land c 15)].

Definition quote_unit (c : N) : jsstring :=
  if c =? 8 then js "\b"
  else if c =? 9 then js "\t"
  else if c =? 10 then js "\n"
  else if c =? 12 then js "\f"
  else if c =? 13 then js "\r"
  else if c =? 34 then [92; 34]
  else if c =? 92 then [92; 92]
  else if c <? 32 then unicode_escape c
  else [c].

(** A surrogate that is not part of a pair is escaped as well. *)
Fixpoint quote_body (s : jsstring) : jsstring :=
  match s with
  | [] => []
  | c :: r =>
      if is_high c then
        match r with
        | d :: r' =>
            if is_low d then c :: d :: quote_body r'
            else unicode_escape c ++ quote_body r
        | [] => unicode_escape c
        end
      else if is_low c then unicode_escape c ++ quote_body r
      else quote_unit c ++ quote_body r
  end.

Definition QuoteJSONString (s : jsstring) : jsstring :=
  [34] ++ quote_body s ++ [34].

(** The objects [{ key, value }] that [parseUrlToData] collects. *)
Record Pair := { key : jsstring; value : jsstring }.

Definition stringify_pair (p : Pair) : jsstring :=
  jsq "{'key':" ++ QuoteJSONString (key p)
  ++ jsq ",'value':" ++ QuoteJSONString (value p) ++ js "}".

(** [JSON.stringify(arr)] for an array of such objects. *)
Definition JSON_stringify (arr : list Pair) : jsstring :=
  js "[" ++ join [44] (List.map stringify_pair arr) ++ js "]".

Definition pair_value_of (p : Pair) : JsVal :=
  VObj [(js "key", VStr (key p)); (js "value", VStr (value p))].

(** ** The HTML parser on the markup the element writes

    [addRow] and [_render] interpolate strings into markup and assign
    it to [innerHTML].  The attribute states of the HTML tokenizer are
    modelled in full, character references apart: an attribute value
    with an ampersand is [Unmodelled]. *)

(** Preprocessing of the input stream: CR LF and CR become LF. *)
Fixpoint normalize_newlines (s : jsstring) : jsstring :=
  match s with
  | [] => []
  | c :: r =>
      if c =? 13 then
        match r with
        | 10 :: _ => normalize_newlines r
        | _ => 10 :: normalize_newlines r
        end
      else c :: normalize_newlines r
  end.

(** The value sanitization algorithm of a text control. *)
Definition strip_newlines (s : jsstring) : jsstring :=
  List.filter (fun c => negb ((c =? 10) || (c =? 13))) s.

Inductive TokenizerState :=
| BeforeAttributeName
| AttributeName
| AfterAttributeName
| BeforeAttributeValue
| AttributeValueDoubleQuoted
| AttributeValueSingleQuoted
| AttributeValueUnquoted
| AfterAttributeValueQuoted
| SelfClosingStartTag.

(** A start tag under construction: the attributes completed so far
    and the one being read. *)
Record TagToken := {
  tok_state : TokenizerState;
  tok_attributes : list (jsstring * jsstring);
  tok_current : option (jsstring * jsstring)
}.

Definition has_attribute (name : jsstring) (attrs : list (jsstring * jsstring))
  : bool :=
  existsb (fun a => bool_decide (a.1 = name)) attrs.

(** An attribute whose name is already on the token is dropped. *)
Definition commit (t : TagToken) : list (jsstring * jsstring) :=
  match tok_current t with
  | Some (n, v) =>
      if has_attribute n (tok_attributes t) then tok_attributes t
      else tok_attributes t ++ [(n, v)]
  | None => tok_attributes t
  end.

Inductive TokenizerStep :=
| Continue (t : TagToken)
| EmitTag (attrs : list (jsstring * jsstring))
| CharacterReference.

Definition is_html_space (c : N) : bool :=
  (c =? 9) || (c =? 10) || (c =? 12) || (c =? 32).

(** A character appended to an attribute name is lowercased, one
    appended to a value is kept; a null character becomes U+FFFD. *)
Definition name_char (c : N) : N :=
  if c =? 0 then 65533 else if in_range 65 90 c then c + 32 else c.

Definition value_char (c : N) : N := if c =? 0 then 65533 else c.

Definition in_state (s : TokenizerState) (attrs : list (jsstring * jsstring))
  (cur : option (jsstring * jsstring)) : TokenizerStep :=
  Continue {| tok_state := s; tok_attributes := attrs; tok_current := cur |}.

Definition append_name (t : TagToken) (c : N) : TokenizerStep :=
  match tok_current t with
  | Some (n, v) =>
      in_state AttributeName (tok_attributes t) (Some (n ++ [name_char c], v))
  | None =>
      in_state AttributeName (tok_attributes t) (Some ([name_char c], []))
  end.

Definition append_value (s : TokenizerState) (t : TagToken) (c : N)
  : TokenizerStep :=
  match tok_current t with
  | Some (n, v) => in_state s (tok_attributes t) (Some (n, v ++ [value_char c]))
  | None => in_state s (tok_attributes t) (Some ([], [value_char c]))
  end.

(** A character read in the before-attribute-name state; the token
    holds no attribute under construction. *)
Definition before_attribute_name (attrs : list (jsstring * jsstring)) (c : N)
  : TokenizerStep :=
  if is_html_space c then in_state BeforeAttributeName attrs None
  else if c =? 47 then in_state SelfClosingStartTag attrs None
  else if c =? 62 then EmitTag attrs
  else in_state AttributeName attrs (Some ([name_char c], [])).

(** One character of the tokenizer.  Where the standard reconsumes the
    character in another state, the step of that state is taken. *)
Definition tokenizer_step (t : TagToken) (c : N) : TokenizerStep :=
  match tok_state t with
  | BeforeAttributeName => before_attribute_name (commit t) c
  | AttributeName =>
      if is_html_space c
      then in_state AfterAttributeName (tok_attributes t) (tok_current t)
      else if c =? 47 then in_state SelfClosingStartTag (commit t) None
      else if c =? 62 then EmitTag (commit t)
      else if c =? 61
      then in_state BeforeAttributeValue (tok_attributes t) (tok_current t)
      else append_name t c
  | AfterAttributeName =>
      if is_html_space c
      then in_state AfterAttributeName (tok_attributes t) (tok_current t)
      else if c =? 47 then in_state SelfClosingStartTag (commit t) None
      else if c =? 61
      then in_state BeforeAttributeValue (tok_attributes t) (tok_current t)
      else if c =? 62 then EmitTag (commit t)
      else in_state AttributeName (commit t) (Some ([name_char c], []))
  | BeforeAttributeValue =>
      if is_html_space c
      then in_state BeforeAttributeValue (tok_attributes t) (tok_current t)
      else if c =? 34
      then in_state AttributeValueDoubleQuoted (tok_attributes t) (tok_current t)
      else if c =? 39
      then in_state AttributeValueSingleQuoted (tok_attributes t) (tok_current t)
      else if c =? 62 then EmitTag (commit t)
      else if c =? 38 then CharacterReference
      else append_value AttributeValueUnquoted t c
  | AttributeValueDoubleQuoted =>
      if c =? 34
      then in_state AfterAttributeValueQuoted (tok_attributes t) (tok_current t)
      else if c =? 38 then CharacterReference
      else append_value AttributeValueDoubleQuoted t c
  | AttributeValueSingleQuoted =>
      if c =? 39
      then in_state AfterAttributeValueQuoted (tok_attributes t) (tok_current t)
      else if c =? 38 then CharacterReference
      else append_value AttributeValueSingleQuoted t c
  | AttributeValueUnquoted =>
      if is_html_space c then in_state BeforeAttributeName (commit t) None
      else if c =? 62 then EmitTag (commit t)
      else if c =? 38 then CharacterReference
      else append_value AttributeValueUnquoted t c
  | AfterAttributeValueQuoted => before_attribute_name (commit t) c
  | SelfClosingStartTag => before_attribute_name (commit t) c
  end.

(** Run the tokenizer to the end of the tag: the attributes and the
    text after the closing [>]. *)
Fixpoint tokenize_tag (t : TagToken) (s : jsstring)
  : Outcome (list (jsstring * jsstring) * jsstring) :=
  match s with
  | [] => Unmodelled
  | c :: r =>
      match tokenizer_step t c with
      | Continue t' => tokenize_tag t' r
      | EmitTag attrs => Returns (attrs, r)
      | CharacterReference => Unmodelled
      end
  end.

Definition attribute (name : jsstring) (attrs : list (jsstring * jsstring))
  : option jsstring :=
  snd <$> List.find (fun a => bool_decide (a.1 = name)) attrs.

(** An [input] element of a row: its [placeholder] and its [value]. *)
Record Input := {
  placeholder : jsstring;
  input_value : jsstring
}.

(** The element that an [input] start tag creates.  Its value is that
    of the [value] attribute, sanitized.  A [type] attribute would make
    another kind of control: [Unmodelled]. *)
Definition input_of_attributes (attrs : list (jsstring * jsstring))
  : Outcome Input :=
  if has_attribute (js "type") attrs then Unmodelled
  else Returns
         {| placeholder := default [] (attribute (js "placeholder") attrs);
            input_value :=
              strip_newlines (default [] (attribute (js "value") attrs)) |}.

(** A row of the table: the [tr] element with the [input] elements of
    its first two cells. *)
Record Row := {
  key_input : Input;
  value_input : Input
}.

(** The markup between the interpolated strings of [addRow]. *)
Definition row_open : jsstring :=
  [10] ++ jsq "          <td><input class='form-control form-control-sm' placeholder='".
Definition value_attr : jsstring := jsq "' value='".
Definition row_next : jsstring :=
  jsq "'></td>" ++ [10]
  ++ jsq "          <td><input class='form-control form-control-sm' placeholder='".
Definition row_close : jsstring :=
  jsq "'></td>" ++ [10]
  ++ jsq "          <td><button class='btn btn-sm btn-danger'>&times;</button></td>"
  ++ [10] ++ js "        ".

(** The template literal of [addRow]. *)
Definition row_html (kph key vph val : jsstring) : jsstring :=
  row_open ++ kph ++ value_attr ++ key ++ row_next
  ++ vph ++ value_attr ++ val ++ row_close.

(** The tokenizer as it enters the value of [placeholder]: the tag
    name and the [class] attribute of the template are read. *)
Definition in_placeholder : TagToken :=
  {| tok_state := AttributeValueDoubleQuoted;
     tok_attributes := [(js "class", js "form-control form-control-sm")];
     tok_current := Some (js "placeholder", []) |}.

(** The text between the end of the first [input] tag and the
    placeholder of the second, and the text after the second. *)
Definition after_first_input : jsstring := drop 2 row_next.
Definition after_second_input : jsstring := drop 2 row_close.

(** [tr.innerHTML = html]: the row that the markup creates when the two
    [input] tags end where the template ends them.  When an
    interpolated string ends a tag early or late, the cells are not
    those of the template: [Unmodelled]. *)
Definition parse_row (html : jsstring) : Outcome Row :=
  match strip_prefix row_open (normalize_newlines html) with
  | None => Unmodelled
  | Some s1 =>
      obind (tokenize_tag in_placeholder s1) (fun '(attrs1, s2) =>
      match strip_prefix after_first_input s2 with
      | None => Unmodelled
      | Some s3 =>
          obind (tokenize_tag in_placeholder s3) (fun '(attrs2, s4) =>
          if bool_decide (s4 = after_second_input) then
            obind (input_of_attributes attrs1) (fun k =>
            obind (input_of_attributes attrs2) (fun v =>
            Returns {| key_input := k; value_input := v |}))
          else Unmodelled)
      end)
  end.

(** The text content of an element whose markup is [label]: the label
    itself when it holds no tag and no character reference. *)
Definition element_text (label : jsstring) : Outcome jsstring :=
  if existsb (fun c => (c =? 60) || (c =? 38) || (c =? 0)) label
  then Unmodelled
  else Returns (normalize_newlines label).

(** ** The document and the element

    [tbody] holds the rows of the table in order.  [document] holds the
    elements outside the table that a [target] selector can match: an
    [input] with the state of its [type] attribute, a [textarea], or
    an element of another kind. *)

(** The states of the [type] attribute of an [input] element.  An
    e-mail control carries its [multiple] attribute, a range control
    the default value that its [min], [max] and [step] give it. *)
Inductive InputType :=
| Hidden
| Text
| Search
| Tel
| Url
| Email (multiple : bool)
| Password
| Date
| Month
| Week
| Time
| DatetimeLocal
| Number
| Range (default_value : jsstring)
| Color
| Checkbox
| Radio
| File
| Submit
| Image
| Reset
| Button.

Inductive ElementKind :=
| HTMLInputElement (type : InputType)
| HTMLTextAreaElement
| OtherElement.

Record Element := {
  el_kind : ElementKind;
  el_value : jsstring;
  el_textContent : jsstring
}.

(** The observed attributes. *)
Inductive AttributeId :=
| KeyText
| ValueText
| InitialData
| AddButtonText
| Target.

Record Attributes := {
  key_text : option jsstring;
  value_text : option jsstring;
  initial_data : option jsstring;
  add_button_text : option jsstring;
  target : option jsstring
}.

Definition no_attributes : Attributes :=
  {| key_text := None; value_text := None; initial_data := None;
     add_button_text := None; target := None |}.

(** The fields [thead], [tbody] and [btnAdd] exist once [_render] has
    run, which is when [_initialized] is set. *)
Record Editor := {
  attributes : Attributes;
  _initialized : bool;
  th_key : jsstring;
  th_value : jsstring;
  btnAdd : jsstring;
  tbody : list Row;
  document : list Element
}.

(** An element that a selector matches: an [input] of a row of the
    editor, an element outside the table, or an element of the table's
    own structure (a cell, a row, the table, an ancestor of it), which
    an assignment to [textContent] would take apart. *)
Inductive ElementRef :=
| KeyInputOf (row : nat)
| ValueInputOf (row : nat)
| InDocument (index : nat)
| OfTable.

#[global] Instance ElementRef_eq_dec : EqDecision ElementRef.
Proof. solve_decision. Defined.

Definition with_attributes (a : Attributes) (e : Editor) : Editor :=
  {| attributes := a; _initialized := _initialized e; th_key := th_key e;
     th_value := th_value e; btnAdd := btnAdd e; tbody := tbody e;
     document := document e |}.

Definition with_tbody (rows : list Row) (e : Editor) : Editor :=
  {| attributes := attributes e; _initialized := _initialized e;
     th_key := th_key e; th_value := th_value e; btnAdd := btnAdd e;
     tbody := rows; document := document e |}.

Definition with_document (d : list Element) (e : Editor) : Editor :=
  {| attributes := attributes e; _initialized := _initialized e;
     th_key := th_key e; th_value := th_value e; btnAdd := btnAdd e;
     tbody := tbody e; document := d |}.

Definition with_th_key (s : jsstring) (e : Editor) : Editor :=
  {| attributes := attributes e; _initialized := _initialized e;
     th_key := s; th_value := th_value e; btnAdd := btnAdd e;
     tbody := tbody e; document := document e |}.

Definition with_th_value (s : jsstring) (e : Editor) : Editor :=
  {| attributes := attributes e; _initialized := _initialized e;
     th_key := th_key e; th_value := s; btnAdd := btnAdd e;
     tbody := tbody e; document := document e |}.

Definition with_btnAdd (s : jsstring) (e : Editor) : Editor :=
  {| attributes := attributes e; _initialized := _initialized e;
     th_key := th_key e; th_value := th_value e; btnAdd := s;
     tbody := tbody e; document := document e |}.

Definition attribute_of (a : Attributes) (name : AttributeId) : option jsstring :=
  match name with
  | KeyText => key_text a
  | ValueText => value_text a
  | InitialData => initial_data a
  | AddButtonText => add_button_text a
  | Target => target a
  end.

Definition set_attribute_of (a : Attributes) (name : AttributeId)
  (v : option jsstring) : Attributes :=
  {| key_text := if name is KeyText then v else key_text a;
     value_text := if name is ValueText then v else value_text a;
     initial_data := if name is InitialData then v else initial_data a;
     add_button_text := if name is AddButtonText then v else add_button_text a;
     target := if name is Target then v else target a |}.

(** ** The monad of the methods: state and exceptions *)

Definition M (A : Type) : Type := Editor -> Outcome A * Editor.

Definition ret {A} (a : A) : M A := fun e => (Returns a, e).

Definition bind {A B} (m : M A) (k : A -> M B) : M B :=
  fun e =>
    match m e with
    | (Returns a, e') => k a e'
    | (Throws err, e') => (Throws err, e')
    | (Unmodelled, e') => (Unmodelled, e')
    end.

Notation "'let*' x ':=' m 'in' k" := (bind m (fun x => k))
  (at level 10, x name, m at level 100, k at level 200).
Notation "m >>> k" := (bind m (fun _ => k))
  (at level 100, k at level 200, right associativity).

Definition lift {A} (o : Outcome A) : M A := fun e => (o, e).
Definition throw {A} (err : JsError) : M A := lift (Throws err).
Definition get : M Editor := fun e => (Returns e, e).
Definition modify (f : Editor -> Editor) : M unit := fun e => (Returns tt, f e).

Fixpoint forEach {A} (l : list A) (f : A -> M unit) : M unit :=
  match l with
  | [] => ret tt
  | x :: r => f x >>> forEach r f
  end.

(** [this.getAttribute(name)] *)
Definition getAttribute (name : AttributeId) : M (option jsstring) :=
  let* e := get in ret (attribute_of (attributes e) name).

(** [s || d] for a string or [null]: the empty string is falsy. *)
Definition or_else (s : option jsstring) (d : jsstring) : jsstring :=
  match s with
  | Some (c :: r) => c :: r
  | _ => d
  end.

(** [this.tbody], [undefined] before [_render]: using it then throws. *)
Definition this_tbody : M (list Row) :=
  let* e := get in
  if _initialized e then ret (tbody e) else throw TypeError.

(** ** The static method *)

Inductive StringOrArray :=
| AString (s : jsstring)
| AnArray (arr : list Pair).

Definition pair_of_entry (p : jsstring * jsstring) : Pair :=
  {| key := p.1; value := p.2 |}.

Definition parseUrlToData (input : jsstring) (asArray : bool) : StringOrArray :=
  let search :=
    if includes input 63 then Some (slice input (indexOf input 63))
    else if includes input 61 then Some ([63] ++ input)
    else None in
  match search with
  | None => AString (js "[]")
  | Some search =>
      let usp := URLSearchParams.of_string search in
      let arr := List.map pair_of_entry (URLSearchParams.entries usp) in
      if asArray then AnArray arr else AString (JSON_stringify arr)
  end.

(** [Object.fromEntries]: a later entry overrides an earlier one. *)
Definition fromEntries (l : list (jsstring * jsstring)) : gmap jsstring jsstring :=
  fold_left (fun m p => <[p.1 := p.2]> m) l ∅.

(** The body of the loop of [_getSearchParams], for one row. *)
Definition collect_row (usp : URLSearchParams.t) (tr : Row) : URLSearchParams.t :=
  let k := trim (input_value (key_input tr)) in
  let v := trim (input_value (value_input tr)) in
  match k with
  | [] => usp
  | _ => URLSearchParams.set k v usp
  end.

Definition search_params_of (rows : list Row) : URLSearchParams.t :=
  fold_left collect_row rows URLSearchParams.empty.

(** [el.value = qs] on an input of a row, a text control, and
    [el.placeholder = text] *)
Definition set_input_value (qs : jsstring) (i : Input) : Input :=
  {| placeholder := placeholder i; input_value := strip_newlines qs |}.

Definition set_placeholder (text : jsstring) (i : Input) : Input :=
  {| placeholder := text; input_value := input_value i |}.

Definition on_key_input (f : Input -> Input) (tr : Row) : Row :=
  {| key_input := f (key_input tr); value_input := value_input tr |}.

Definition on_value_input (f : Input -> Input) (tr : Row) : Row :=
  {| key_input := key_input tr; value_input := f (value_input tr) |}.

(** ASCII whitespace, stripped from the ends of a URL and of an
    e-mail address. *)
Definition is_ascii_whitespace (c : N) : bool :=
  (c =? 9) || (c =? 10) || (c =? 12) || (c =? 13) || (c =? 32).

Fixpoint strip_leading (s : jsstring) : jsstring :=
  match s with
  | c :: r => if is_ascii_whitespace c then strip_leading r else s
  | [] => []
  end.

Fixpoint strip_trailing (s : jsstring) : jsstring :=
  match s with
  | [] => []
  | c :: r =>
      match strip_trailing r with
      | [] => if is_ascii_whitespace c then [] else [c]
      | r' => c :: r'
      end
  end.

Definition strip_ascii_whitespace (s : jsstring) : jsstring :=
  strip_trailing (strip_leading s).

(** "Split a string on commas": the tokens between the commas, each
    stripped; no token follows a comma that ends the string. *)
Fixpoint without_empty_end (tokens : list jsstring) : list jsstring :=
  match tokens with
  | [] => []
  | [t] => match t with [] => [] | _ => [t] end
  | t :: r => t :: without_empty_end r
  end.

Definition split_on_commas (s : jsstring) : list jsstring :=
  List.map strip_ascii_whitespace (without_empty_end (split_on 44 s)).

(** A string that is no valid date, month, week, time, local date and
    time, floating-point number or color: the empty string, and a
    string with an equals sign, which none of them holds. *)
Definition never_valid (s : jsstring) : bool :=
  bool_decide (s = []) || includes s 61.

(** [el.value = s] on an [input] element: the value that the element
    has afterwards.  A text control strips the line breaks, a URL or
    e-mail control the white space at the ends as well; a control for
    a date, a time or a number is emptied by a string that is not
    valid for it, a range control falls back to its default and a
    color well to black (what a valid string becomes is [Unmodelled]);
    the other controls keep the string in the [value] attribute; a
    file control accepts the empty string only. *)
Definition set_value (t : InputType) (s : jsstring) : Outcome jsstring :=
  match t with
  | Text | Search | Tel | Password => Returns (strip_newlines s)
  | Url | Email false => Returns (strip_ascii_whitespace (strip_newlines s))
  | Email true => Returns (join [44] (split_on_commas s))
  | Date | Month | Week | Time | DatetimeLocal | Number =>
      if never_valid s then Returns [] else Unmodelled
  | Range default_value =>
      if never_valid s then Returns default_value else Unmodelled
  | Color => if never_valid s then Returns (js "#000000") else Unmodelled
  | Hidden | Checkbox | Radio | Submit | Image | Reset | Button => Returns s
  | File =>
      if bool_decide (s = []) then Returns [] else Throws InvalidStateError
  end.

(** The branches of the loop of [updateQuery]: [el.value = qs] for an
    [input] or a [textarea], [el.textContent = qs] for any other
    element. *)
Definition mirror_into (qs : jsstring) (el : Element) : Outcome Element :=
  match el_kind el with
  | HTMLInputElement t =>
      obind (set_value t qs) (fun v =>
        Returns {| el_kind := el_kind el; el_value := v;
                   el_textContent := el_textContent el |})
  | HTMLTextAreaElement =>
      Returns {| el_kind := el_kind el; el_value := normalize_newlines qs;
                 el_textContent := el_textContent el |}
  | OtherElement =>
      Returns {| el_kind := el_kind el; el_value := el_value el;
                 el_textContent := qs |}
  end.

(** The body of the loop of [updateQuery], for one matched element. *)
Definition mirror (qs : jsstring) (el : ElementRef) : M unit :=
  match el with
  | KeyInputOf i =>
      modify (fun e =>
        with_tbody (alter (on_key_input (set_input_value qs)) i (tbody e)) e)
  | ValueInputOf i =>
      modify (fun e =>
        with_tbody (alter (on_value_input (set_input_value qs)) i (tbody e)) e)
  | InDocument j =>
      let* e := get in
      match document e !! j with
      | Some el =>
          let* el' := lift (mirror_into qs el) in
          modify (with_document (<[j := el']> (document e)))
      | None => ret tt
      end
  | OfTable => lift Unmodelled
  end.

Section Methods.

(** [document.querySelectorAll(selector)] on the current page: the
    matched elements in document order, or [None] for a selector
    that does not parse, on which the call throws a [SyntaxError]. *)
Variable querySelectorAll : Editor -> jsstring -> option (list ElementRef).

Definition _render : M unit :=
  let* k := getAttribute KeyText in
  let* v := getAttribute ValueText in
  let* a := getAttribute AddButtonText in
  let kLabel := or_else k (js "Key") in
  let vLabel := or_else v (js "Value") in
  let addTxt := or_else a (js "Add parameter") in
  let* th0 := lift (element_text kLabel) in
  let* th1 := lift (element_text vLabel) in
  let* btn := lift (element_text addTxt) in
  modify (fun e =>
    {| attributes := attributes e; _initialized := true;
       th_key := th0; th_value := th1; btnAdd := btn;
       tbody := []; document := document e |}).

(** [_bindEvents] registers [on_add_click], below, on the add button;
    registering it changes no field. *)
Definition _bindEvents : M unit := ret tt.

Definition _updatePlaceholders (colIdx : nat) (text : jsstring) : M unit :=
  let* rows := this_tbody in
  modify (with_tbody
    (List.map (fun tr =>
       match colIdx with
       | O => on_key_input (set_placeholder text) tr
       | _ => on_value_input (set_placeholder text) tr
       end) rows)).

Definition _getSearchParams : M URLSearchParams.t :=
  let* rows := this_tbody in
  ret (search_params_of rows).

(** The markup is parsed into a detached [tr], listeners are
    registered on its inputs and on its button ([on_input] and
    [on_delete_click], below), and the row is appended to the table. *)
Definition addRow (key val : JsVal) : M unit :=
  let key := match key with VUndefined => VStr [] | _ => key end in
  let val := match val with VUndefined => VStr [] | _ => val end in
  let* k := getAttribute KeyText in
  let* v := getAttribute ValueText in
  let kph := or_else k (js "Key") in
  let vph := or_else v (js "Value") in
  let* key_s := lift (ToString key) in
  let* val_s := lift (ToString val) in
  let* tr := lift (parse_row (row_html kph key_s vph val_s)) in
  let* rows := this_tbody in
  modify (with_tbody (rows ++ [tr])).

Definition loadParams : M unit :=
  let* raw := getAttribute InitialData in
  let items :=
    match raw with
    | Some (c :: r) =>
        match JSON_parse (c :: r) with
        | Returns v => v
        | _ => VArr []
        end
    | _ => VArr []
    end in
  let* len := lift (Get_length items) in
  let* nonempty := lift (ToBoolean len) in
  if nonempty then
    (* only an array has a [forEach] to call *)
    if Array_isArray items then
      forEach (elements_of items) (fun i =>
        let* k := lift (Get i (js "key")) in
        let* v := lift (Get i (js "value")) in
        addRow k v)
    else throw TypeError
  else addRow VUndefined VUndefined.

Definition updateQuery : M unit :=
  let* usp := _getSearchParams in
  let qs := URLSearchParams.toString usp in
  let* selector := getAttribute Target in
  match selector with
  | Some (c :: r) =>
      let* e := get in
      match querySelectorAll e (c :: r) with
      | Some els => forEach els (mirror qs)
      | None => throw SyntaxError
      end
  | _ => ret tt
  end.

Definition getParams : M (gmap jsstring jsstring) :=
  let* usp := _getSearchParams in
  ret (fromEntries (URLSearchParams.entries usp)).

(** The callback of [setParams]: its parameter is destructured, which
    throws on [null] and [undefined]. *)
Definition add_pair (el : JsVal) : M unit :=
  let* k := lift (Get el (js "key")) in
  let* v := lift (Get el (js "value")) in
  addRow k v.

Definition setParams (data : JsVal) (append : bool) : M unit :=
  let data := match data with VUndefined => VArr [] | _ => data end in
  if negb (Array_isArray data) then throw (Error (js "data must be an array"))
  else
    let l := elements_of data in
    (if append then forEach l add_pair
     else
       this_tbody >>>
       modify (with_tbody []) >>>
       forEach l add_pair >>>
       (if (List.length l =? 0)%nat then addRow VUndefined VUndefined
        else ret tt)) >>>
    updateQuery.

Definition connectedCallback : M unit :=
  _render >>>
  _bindEvents >>>
  loadParams >>>
  updateQuery.

Definition attributeChangedCallback (name : AttributeId)
  (oldVal newVal : option jsstring) : M unit :=
  let* e := get in
  if negb (_initialized e) then ret tt
  else
    match name with
    | KeyText =>
        modify (with_th_key (default [] newVal)) >>>
        _updatePlaceholders 0 (default (js "null") newVal)
    | ValueText =>
        modify (with_th_value (default [] newVal)) >>>
        _updatePlaceholders 1 (default (js "null") newVal)
    | AddButtonText => modify (with_btnAdd (default [] newVal))
    | Target => updateQuery
    | InitialData => ret tt
    end.

(** The listeners.  A click on the add button appends an empty row.
    An [input] event reaches the listener of an input of row [i] once
    the browser has put the typed text in that input (so [on_input]
    starts with this change), and the listener republishes.  A click
    on the delete button of row [i] removes the row and republishes. *)
Definition on_add_click : M unit := addRow VUndefined VUndefined.


Definition on_delete_click (i : nat) : M unit :=
  modify (fun e => with_tbody (delete i (tbody e)) e) >>>
  updateQuery.

(** [el.setAttribute(name, value)] on the editor: the attribute
    changes, then the callback runs. *)
Definition setAttribute (name : AttributeId) (v : jsstring) : M unit :=
  let* e := get in
  let old := attribute_of (attributes e) name in
  modify (with_attributes (set_attribute_of (attributes e) name (Some v))) >>>
  attributeChangedCallback name old (Some v).

(** [el.removeAttribute(name)] *)
Definition removeAttribute (name : AttributeId) : M unit :=
  let* e := get in
  match attribute_of (attributes e) name with
  | None => ret tt
  | Some old =>
      modify (with_attributes (set_attribute_of (attributes e) name None)) >>>
      attributeChangedCallback name (Some old) None
  end.

End Methods.

(** * The statements

    The predicates and functions that the properties are stated with,
    and the editors, rows and pages used as examples. *)

(** ** Strings and tuples *)

Definition lacks (sep : N) (bs : list N) : Prop :=
  forallb (fun c => negb (c =? sep)) bs = true.

Definition is_byte (b : N) : Prop := b < 256.

(** An ASCII string is its own UTF-8 encoding. *)
Definition is_ascii (s : jsstring) : Prop := Forall (fun c => c < 128) s.

(** The units that the serializer writes for a name or a value. *)
Definition urlencoded_unit (c : N) : bool :=
  urlencoded_safe c || (c =? 37) || (c =? 43).

Definition usv_string (s : jsstring) : Prop := wf_string s /\ to_usv s = s.

Definition wf_tuple (p : jsstring * jsstring) : Prop :=
  wf_string p.1 /\ wf_string p.2.

Definition usv_tuple (p : jsstring * jsstring) : Prop :=
  usv_string p.1 /\ usv_string p.2.

(** What the serializer writes for one tuple. *)
Definition serialized_tuple (p : jsstring * jsstring) : jsstring :=
  urlencode p.1 ++ 61 :: urlencode p.2.

(** The step of the parser on one sequence between ampersands. *)
Definition parse_sequence (bytes : list N) : list (jsstring * jsstring) :=
  match bytes with
  | [] => []
  | _ =>
      let '(name, value) :=
        if existsb (N.eqb 61) bytes then split_first 61 bytes
        else (bytes, []) in
      [(urlencoded_decode name, urlencoded_decode value)]
  end.

Definition starts_with_lf (r : jsstring) : bool :=
  match r with d :: _ => d =? 10 | [] => false end.

(** ** Rows and their parameters *)

Definition wf_row (tr : Row) : Prop :=
  wf_string (input_value (key_input tr))
  /\ wf_string (input_value (value_input tr)).

Definition wf_rows (rows : list Row) : Prop := Forall wf_row rows.

(** The key and the value that a row contributes: trimmed, as scalar
    value strings. *)
Definition row_key (tr : Row) : jsstring :=
  to_usv (trim (input_value (key_input tr))).

Definition row_value (tr : Row) : jsstring :=
  to_usv (trim (input_value (value_input tr))).

Definition has_key (tr : Row) : Prop := trim (input_value (key_input tr)) <> [].

(** The mapping that the specification describes: rows in order, a
    row without a key skipped, a later row overriding an earlier one
    with the same key. *)
Definition params_step (m : gmap jsstring jsstring) (tr : Row)
  : gmap jsstring jsstring :=
  match trim (input_value (key_input tr)) with
  | [] => m
  | _ => <[row_key tr := row_value tr]> m
  end.

Definition params_spec (rows : list Row) : gmap jsstring jsstring :=
  fold_left params_step rows ∅.

(** ** Results of [parseUrlToData] *)

Definition wf_pair (p : Pair) : Prop := wf_string (key p) /\ wf_string (value p).

Definition entry_of_pair (p : Pair) : jsstring * jsstring := (key p, value p).

Definition mapping_of (ps : list Pair) : gmap jsstring jsstring :=
  fromEntries (List.map entry_of_pair ps).

(** The pairs of a query string without its question mark. *)
Definition query_pairs (q : jsstring) : list Pair :=
  List.map pair_of_entry (urlencoded_parse (to_usv q)).

(** The rest of a string body, with one more unit in front. *)
Definition with_unit (c : N) (o : option (jsstring * jsstring))
  : option (jsstring * jsstring) :=
  match o with
  | Some (t, r') => Some (c :: t, r')
  | None => None
  end.

(** ** Mirroring *)

(** An element outside the table, as the specification takes the
    elements of a target to be. *)
Definition outside_table (el : ElementRef) : Prop :=
  match el with InDocument _ => True | _ => False end.


Definition is_file_input (el : Element) : bool :=
  match el_kind el with
  | HTMLInputElement File => true
  | _ => false
  end.


(** No element of [els] is a file control of the document [d]. *)
Definition no_file_input (els : list ElementRef) (d : list Element) : Prop :=
  forall j el, InDocument j ∈ els -> d !! j = Some el -> is_file_input el = false.

(** An element after [mirror_into], and as it was when the assignment
    throws. *)
Definition written (qs : jsstring) (el : Element) : Element :=
  match mirror_into qs el with
  | Returns el' => el'
  | _ => el
  end.

(** The elements outside the table after the loop of [updateQuery]
    has written to those of [els]. *)
Definition written_all (qs : jsstring) (els : list ElementRef)
  (d : list Element) : list Element :=
  fold_left (fun d r =>
               match r with
               | InDocument j => alter (written qs) j d
               | _ => d
               end) els d.

(** ** Plain strings and the rows made of them *)

(** A string that ends no attribute value and starts no character
    reference. *)
Definition plain (s : jsstring) : Prop := lacks 34 s /\ lacks 38 s.

(** The value that the tokenizer gives an attribute written with a
    plain string. *)
Definition attribute_text (s : jsstring) : jsstring :=
  List.map value_char (normalize_newlines s).

(** A string that a text control keeps as it is. *)
Definition single_line (s : jsstring) : Prop :=
  lacks 0 s /\ lacks 10 s /\ lacks 13 s.

Definition key_placeholder (e : Editor) : jsstring :=
  or_else (key_text (attributes e)) (js "Key").

Definition value_placeholder (e : Editor) : jsstring :=
  or_else (value_text (attributes e)) (js "Value").

Definition default_empty (v : JsVal) : JsVal :=
  match v with VUndefined => VStr [] | _ => v end.

Definition plain_labels (e : Editor) : Prop :=
  plain (key_placeholder e) /\ plain (value_placeholder e).

(** The row that [addRow] makes of two plain strings. *)
Definition plain_row (e : Editor) (k v : jsstring) : Row :=
  {| key_input :=
       {| placeholder := attribute_text (key_placeholder e);
          input_value := strip_newlines (attribute_text k) |};
     value_input :=
       {| placeholder := attribute_text (value_placeholder e);
          input_value := strip_newlines (attribute_text v) |} |}.

Definition plain_pair (p : Pair) : Prop := plain (key p) /\ plain (value p).

(** ** Errors *)

(** A computation that never throws the error of an invalid argument. *)
Definition never_invalid_argument {A} (m : M A) : Prop :=
  forall e msg e', m e <> (Throws (Error msg), e').

Definition not_invalid_argument {A} (o : Outcome A) : Prop :=
  forall msg, o <> Throws (Error msg).

(** Induction on a value, with the elements of an array and the
    members of an object. *)
Fixpoint JsVal_induction (P : JsVal -> Prop)
  (Hundefined : P VUndefined) (Hnull : P VNull)
  (Hbool : forall b, P (VBool b)) (Hnum : forall n, P (VNum n))
  (Hstr : forall s, P (VStr s))
  (Harr : forall l, Forall P l -> P (VArr l))
  (Hobj : forall props, Forall (fun p => P p.2) props -> P (VObj props))
  (v : JsVal) : P v :=
  let rec := JsVal_induction P Hundefined Hnull Hbool Hnum Hstr Harr Hobj in
  match v with
  | VUndefined => Hundefined
  | VNull => Hnull
  | VBool b => Hbool b
  | VNum n => Hnum n
  | VStr s => Hstr s
  | VArr l =>
      Harr l ((fix all (l : list JsVal) : Forall P l :=
                 match l with
                 | [] => @List.Forall_nil _ P
                 | x :: r => @List.Forall_cons _ P x r (rec x) (all r)
                 end) l)
  | VObj props =>
      Hobj props
        ((fix all (l : list (jsstring * JsVal)) : Forall (fun p => P p.2) l :=
            match l with
            | [] => @List.Forall_nil _ (fun p => P p.2)
            | p :: r => @List.Forall_cons _ (fun p => P p.2) p r (rec p.2) (all r)
            end) props)
  end.

(** ** Examples *)

Definition text_input (ph v : jsstring) : Input :=
  {| placeholder := ph; input_value := v |}.

Definition row_of (k v : jsstring) : Row :=
  {| key_input := text_input (js "Key") k;
     value_input := text_input (js "Value") v |}.

(** An editor after [_render], with the given attributes, rows and
    outside elements. *)
Definition rendered (a : Attributes) (rows : list Row) (d : list Element)
  : Editor :=
  {| attributes := a; _initialized := true;
     th_key := or_else (key_text a) (js "Key");
     th_value := or_else (value_text a) (js "Value");
     btnAdd := or_else (add_button_text a) (js "Add parameter");
     tbody := rows; document := d |}.

(** An editor that is not connected yet. *)
Definition created (a : Attributes) (d : list Element) : Editor :=
  {| attributes := a; _initialized := false; th_key := []; th_value := [];
     btnAdd := []; tbody := []; document := d |}.

Definition example_rows : list Row :=
  [row_of (js " a ") (js "1"); row_of (js "  ") (js "zz");
   row_of (js "b c") (js "x&y"); row_of (js "a") (js " 2 ")].

Definition output_box : Element :=
  {| el_kind := HTMLInputElement Text; el_value := js "old";
     el_textContent := [] |}.

Definition output_area : Element :=
  {| el_kind := HTMLTextAreaElement; el_value := []; el_textContent := [] |}.

Definition output_span : Element :=
  {| el_kind := OtherElement; el_value := []; el_textContent := js "old" |}.

Definition example_document : list Element :=
  [output_box; output_area; output_span].

Definition with_target (sel : jsstring) : Attributes :=
  set_attribute_of no_attributes Target (Some sel).

(** A page on which [.out] matches the three elements outside the
    table, [input] matches the first of them and the inputs of every
    row of the editor, and [td] matches cells of the table; any other
    selector matches nothing, and [:] is no selector. *)
Definition example_page (e : Editor) (sel : jsstring) : option (list ElementRef) :=
  if bool_decide (sel = js ".out") then
    Some [InDocument 0; InDocument 1; InDocument 2]
  else if bool_decide (sel = js "input") then
    Some (flat_map (fun i => [KeyInputOf i; ValueInputOf i])
                   (seq 0 (List.length (tbody e)))
          ++ [InDocument 0])
  else if bool_decide (sel = js "td") then Some [OfTable]
  else if bool_decide (sel = js ":") then None
  else Some [].

(** A page with controls of other types: [.num] matches a number
    control, [.file] a file control, [.all] both and the text control
    between them. *)
Definition typed_document : list Element :=
  [ {| el_kind := HTMLInputElement Number; el_value := js "7";
       el_textContent := [] |};
    {| el_kind := HTMLInputElement File; el_value := [];
       el_textContent := [] |};
    output_box ].

Definition typed_page (e : Editor) (sel : jsstring) : option (list ElementRef) :=
  if bool_decide (sel = js ".num") then Some [InDocument 0]
  else if bool_decide (sel = js ".file") then Some [InDocument 1]
  else if bool_decide (sel = js ".all") then
    Some [InDocument 0; InDocument 1; InDocument 2]
  else Some [].

(** ** Further statements *)

(** A code point that the UTF-8 decoder can emit. *)
Definition decoded_code_point (cp : N) : Prop := cp < 2097152.

(** The states of the UTF-8 decoder that its steps reach. *)
Definition utf8_state_bound (st : Utf8State) : Prop :=
  u8_needed st = 0
  \/ (u8_needed st = 1 /\ u8_seen st = 0 /\ u8_code_point st < 32)
  \/ (u8_needed st = 2 /\ u8_seen st = 0 /\ u8_code_point st < 16)
  \/ (u8_needed st = 2 /\ u8_seen st = 1 /\ u8_code_point st < 1024)
  \/ (u8_needed st = 3 /\ u8_seen st = 0 /\ u8_code_point st < 8)
  \/ (u8_needed st = 3 /\ u8_seen st = 1 /\ u8_code_point st < 512)
  \/ (u8_needed st = 3 /\ u8_seen st = 2 /\ u8_code_point st < 32768).

(** The units of a serialized list of tuples. *)
Definition query_unit (c : N) : bool :=
  urlencoded_unit c || (c =? 61) || (c =? 38).



(** The target of the editor matches elements outside the table only,
    whatever the rows and the outside elements are. *)
Definition external_target
  (querySelectorAll : Editor -> jsstring -> option (list ElementRef))
  (e : Editor) : Prop :=
  forall e' sel els,
    attributes e' = attributes e -> target (attributes e) = Some sel ->
    querySelectorAll e' sel = Some els -> Forall outside_table els.

(** The elements that the target matches in the state [e]: none
    without a target. *)
Definition matches
  (querySelectorAll : Editor -> jsstring -> option (list ElementRef))
  (e : Editor) (els : list ElementRef) : Prop :=
  match target (attributes e) with
  | Some (c :: r) => querySelectorAll e (c :: r) = Some els
  | _ => els = []
  end.

(** [els] are the elements that the target of the editor matches,
    whatever its rows are: none when there is no target. *)
Definition matched
  (querySelectorAll : Editor -> jsstring -> option (list ElementRef))
  (e : Editor) (els : list ElementRef) : Prop :=
  match target (attributes e) with
  | Some (c :: r) =>
      forall e', attributes e' = attributes e ->
                 querySelectorAll e' (c :: r) = Some els
  | _ => els = []
  end.

(** The query string that the rows derive. *)
Definition query_string (rows : list Row) : jsstring :=
  URLSearchParams.toString (search_params_of rows).

(** The rows that [setParams] and [loadParams] make of pairs of plain
    strings, and the rows of the table after a replacement. *)
Definition rows_of_pairs (e : Editor) (ps : list Pair) : list Row :=
  List.map (fun p => plain_row e (key p) (value p)) ps.

Definition replaced_rows (e : Editor) (ps : list Pair) : list Row :=
  match ps with
  | [] => [plain_row e [] []]
  | _ => rows_of_pairs e ps
  end.

(** A string that a row keeps and returns as it is: plain, on a single
    line, a scalar value string, and with no white space at its
    ends. *)
Definition clean (s : jsstring) : Prop :=
  plain s /\ single_line s /\ usv_string s /\ trim s = s.

Definition clean_pair (p : Pair) : Prop :=
  clean (key p) /\ key p <> [] /\ clean (value p).

(** A name and a value that a row keeps as they are. *)
Definition kept (p : jsstring * jsstring) : Prop :=
  (plain p.1 /\ single_line p.1) /\ (plain p.2 /\ single_line p.2).

(** The result of [parseUrlToData] as the value a caller passes on. *)
Definition value_of_result (r : StringOrArray) : JsVal :=
  match r with
  | AString s => VStr s
  | AnArray arr => VArr (List.map pair_value_of arr)
  end.

Definition simple_rows : list Row :=
  [row_of (js " a ") (js "1"); row_of (js "b c") (js "x=y");
   row_of (js "a") (js " 2 ")].

(** A parsed value whose [length] is missing or zero: [loadParams]
    finds no items in it. *)
Definition no_items (v : JsVal) : bool :=
  match v with
  | VBool _ | VNum _ => true
  | VStr s => bool_decide (s = [])
  | VArr l => bool_decide (l = [])
  | VObj props => bool_decide (own_property props (js "length") = None)
  | VUndefined | VNull => false
  end.

(** Initial data in which [loadParams] finds no items: none, the empty
    string, text that is not JSON, or JSON for a value without
    items. *)
Definition no_initial_items (raw : option jsstring) : Prop :=
  match raw with
  | None | Some [] => True
  | Some raw =>
      JSON_parse raw = Throws SyntaxError
      \/ exists v, JSON_parse raw = Returns v /\ no_items v = true
  end.




(** The texts of the two headers and of the add button that [_render]
    shows for the attributes. *)
Definition rendered_texts (a : Attributes)
  : Outcome (jsstring * jsstring * jsstring) :=
  obind (element_text (or_else (key_text a) (js "Key"))) (fun th0 =>
  obind (element_text (or_else (value_text a) (js "Value"))) (fun th1 =>
  obind (element_text (or_else (add_button_text a) (js "Add parameter")))
    (fun btn => Returns (th0, th1, btn)))).

(** The keys of the rows that have one, in the order of the rows. *)
Definition keyed (tr : Row) : option jsstring :=
  match trim (input_value (key_input tr)) with
  | [] => None
  | _ => Some (row_key tr)
  end.

Definition row_keys (rows : list Row) : list jsstring := omap keyed rows.

(** A list without its repetitions: an element stays where it occurs
    first. *)
Definition keep_first (acc : list jsstring) (k : jsstring) : list jsstring :=
  if bool_decide (k ∈ acc) then acc else acc ++ [k].

Definition first_occurrences (l : list jsstring) : list jsstring :=
  fold_left keep_first l [].

(** The parameters that the specification derives from the rows: one
    for each key of a row that has one, at the place of the first such
    row, with the value that the mapping of the rows gives the key. *)
Definition derived_tuples (rows : list Row) : list (jsstring * jsstring) :=
  List.map (fun k => (k, default [] (params_spec rows !! k)))
           (first_occurrences (row_keys rows)).

(** * Properties *)

Ltac Zify.zify_post_hook ::= Z.to_euclidean_division_equations.

(** ** Bit operations as arithmetic *)

Lemma lor_shiftl_low (a n b : N) :
  b < 2 ^ n -> N.lor (N.shiftl a n) b = a * 2 ^ n + b.
Proof.
  intros Hb. rewrite N.shiftl_mul_pow2.
  rewrite <- N.lxor_lor, <- N.add_nocarry_lxor; auto.
  all: apply N.bits_inj; intros i; rewrite N.land_spec, N.bits_0;
    destruct (N.lt_ge_cases i n) as [Hi|Hi];
    [ rewrite N.mul_pow2_bits_low by auto; reflexivity
    | destruct (N.eq_dec b 0) as [->|Hne];
      [ rewrite N.bits_0, andb_false_r; reflexivity
      | rewrite (N.bits_above_log2 b i), andb_false_r; [reflexivity|];
        apply N.log2_lt_pow2 in Hb; lia ] ].
Qed.

Lemma land_63 (a : N) : N.land a 63 = a mod 64.
Proof. exact (N.land_ones a 6). Qed.

Lemma land_31 (a : N) : N.land a 31 = a mod 32.
Proof. exact (N.land_ones a 5). Qed.

Lemma land_15 (a : N) : N.land a 15 = a mod 16.
Proof. exact (N.land_ones a 4). Qed.

Lemma land_7 (a : N) : N.land a 7 = a mod 8.
Proof. exact (N.land_ones a 3). Qed.

Lemma land_1023 (a : N) : N.land a 1023 = a mod 1024.
Proof. exact (N.land_ones a 10). Qed.

Lemma shiftr_div (a n : N) : N.shiftr a n = a / 2 ^ n.
Proof. apply N.shiftr_div_pow2. Qed.

Lemma utf8_continuation_eq (cp shift : N) :
  utf8_continuation cp shift = 128 + (cp / 2 ^ shift) mod 64.
Proof.
  unfold utf8_continuation. rewrite land_63, shiftr_div.
  generalize (cp / 2 ^ shift). intros q.
  change (N.lor 128 (q mod 64)) with (N.lor (N.shiftl 2 6) (q mod 64)).
  rewrite lor_shiftl_low; [reflexivity|].
  apply N.mod_lt. discriminate.
Qed.

Lemma in_range_true (lo hi c : N) : lo <= c <= hi -> in_range lo hi c = true.
Proof.
  intros [H1 H2]. unfold in_range.
  apply andb_true_intro; split; apply N.leb_le; assumption.
Qed.

Lemma in_range_false (lo hi c : N) : c < lo \/ hi < c -> in_range lo hi c = false.
Proof.
  intros H. unfold in_range. apply andb_false_iff.
  destruct H; [left | right]; apply N.leb_gt; assumption.
Qed.

Lemma in_range_spec (lo hi c : N) : in_range lo hi c = true <-> lo <= c <= hi.
Proof.
  unfold in_range. rewrite andb_true_iff, !N.leb_le. tauto.
Qed.

Lemma in_range_spec_false (lo hi c : N) :
  in_range lo hi c = false <-> c < lo \/ hi < c.
Proof.
  unfold in_range. rewrite andb_false_iff, !N.leb_gt. tauto.
Qed.

(** ** UTF-16 *)

Lemma utf16_encode_pair (c d : N) :
  is_high c = true -> is_low d = true ->
  utf16_encode_cp (pair_value c d) = [c; d].
Proof.
  intros Hc Hd. apply in_range_spec in Hc. apply in_range_spec in Hd.
  unfold utf16_encode_cp, pair_value.
  rewrite N.shiftl_mul_pow2. change (2 ^ 10) with 1024.
  destruct (N.ltb_spec (65536 + (c - 55296) * 1024 + (d - 56320)) 65536); [lia|].
  rewrite land_1023, shiftr_div. change (2 ^ 10) with 1024.
  f_equal; [|f_equal]; lia.
Qed.

Lemma pair_value_scalar (c d : N) :
  is_high c = true -> is_low d = true -> is_scalar (pair_value c d).
Proof.
  intros Hc Hd. apply in_range_spec in Hc. apply in_range_spec in Hd.
  unfold is_scalar, pair_value, is_surrogate.
  rewrite N.shiftl_mul_pow2. change (2 ^ 10) with 1024.
  split; [lia|]. apply in_range_false. lia.
Qed.

Lemma replacement_scalar : is_scalar 65533.
Proof. split; [lia | reflexivity]. Qed.

Lemma not_surrogate (c : N) :
  is_high c = false -> is_low c = false -> is_surrogate c = false.
Proof.
  intros Hh Hl. apply in_range_spec_false in Hh. apply in_range_spec_false in Hl.
  apply in_range_false. lia.
Qed.

(** Induction on a string two units at a time, as [utf16_decode] and
    [quote_body] recurse. *)
Lemma string_ind2 (P : jsstring -> Prop) :
  P [] -> (forall c, P [c]) ->
  (forall c d r, P r -> P (d :: r) -> P (c :: d :: r)) ->
  forall s, P s.
Proof.
  intros H0 H1 H2 s.
  assert (H : P s /\ forall c, P (c :: s)).
  { induction s as [|d r [IH1 IH2]]; [split; auto|].
    split; [apply IH2|]. intros c. apply H2; auto. }
  apply H.
Qed.

Lemma utf16_decode_cons (c : N) (r : jsstring) :
  utf16_decode (c :: r) =
  if is_high c then
    match r with
    | d :: r' =>
        if is_low d then pair_value c d :: utf16_decode r'
        else 65533 :: utf16_decode r
    | [] => [65533]
    end
  else if is_low c then 65533 :: utf16_decode r
  else c :: utf16_decode r.
Proof. reflexivity. Qed.

Lemma utf16_decode_scalar (s : jsstring) :
  wf_string s -> Forall is_scalar (utf16_decode s).
Proof.
  induction s as [|c|c d r IH1 IH2] using string_ind2; intros Hwf.
  - constructor.
  - inversion_clear Hwf as [|? ? Hc _]. cbn.
    destruct (is_high c) eqn:Hh; [repeat constructor; apply replacement_scalar|].
    destruct (is_low c) eqn:Hl; repeat constructor;
      try apply replacement_scalar.
    + unfold wf_unit in Hc. lia.
    + apply not_surrogate; assumption.
  - inversion Hwf as [|? ? Hc Hwf']; subst.
    inversion Hwf' as [|? ? Hd Hwf'']; subst.
    rewrite utf16_decode_cons.
    destruct (is_high c) eqn:Hh.
    + destruct (is_low d) eqn:Hl.
      * constructor; [apply pair_value_scalar; assumption | exact (IH1 Hwf'')].
      * constructor; [apply replacement_scalar | exact (IH2 Hwf')].
    + destruct (is_low c) eqn:Hl.
      * constructor; [apply replacement_scalar | exact (IH2 Hwf')].
      * constructor; [|exact (IH2 Hwf')]. split; [unfold wf_unit in Hc; lia|].
        apply not_surrogate; assumption.
Qed.

Lemma utf16_decode_encode (cps : list N) :
  Forall is_scalar cps -> utf16_decode (utf16_encode cps) = cps.
Proof.
  induction 1 as [|cp cps [Hlt Hs] _ IH]; [reflexivity|].
  unfold utf16_encode in *. cbn [flat_map]. unfold utf16_encode_cp at 1.
  apply in_range_spec_false in Hs.
  destruct (N.ltb_spec cp 65536) as [Hsmall|Hbig].
  - cbn [app]. rewrite utf16_decode_cons. unfold is_high, is_low.
    rewrite (in_range_false 55296 56319 cp) by lia.
    rewrite (in_range_false 56320 57343 cp) by lia.
    rewrite IH. reflexivity.
  - cbn [app]. rewrite utf16_decode_cons. unfold is_high, is_low.
    rewrite land_1023, shiftr_div. change (2 ^ 10) with 1024.
    rewrite (in_range_true 55296 56319) by lia.
    rewrite (in_range_true 56320 57343) by lia.
    rewrite IH. f_equal. unfold pair_value.
    rewrite N.shiftl_mul_pow2. change (2 ^ 10) with 1024. lia.
Qed.

Lemma to_usv_idempotent (s : jsstring) :
  wf_string s -> to_usv (to_usv s) = to_usv s.
Proof.
  intros Hwf. unfold to_usv.
  rewrite utf16_decode_encode by (apply utf16_decode_scalar; assumption).
  reflexivity.
Qed.

(** ** UTF-8 *)

Ltac decide_tests :=
  repeat first
    [ rewrite in_range_true by lia
    | rewrite in_range_false by lia
    | match goal with
      | |- context [?a <=? ?b] =>
          first [ rewrite (proj2 (N.leb_le a b)) by lia
                | rewrite (proj2 (N.leb_gt a b)) by lia ]
      | |- context [?a <? ?b] =>
          first [ rewrite (proj2 (N.ltb_lt a b)) by lia
                | rewrite (proj2 (N.ltb_ge a b)) by lia ]
      | |- context [?a =? ?b] =>
          first [ rewrite (proj2 (N.eqb_eq a b)) by lia
                | rewrite (proj2 (N.eqb_neq a b)) by lia ]
      end ].

Lemma utf8_decode_from_cons (st : Utf8State) (b : N) (r : list N) :
  utf8_decode_from st (b :: r) =
  if u8_needed st =? 0 then
    let '(out, st') := utf8_lead b in cons_opt out (utf8_decode_from st' r)
  else if negb (in_range (u8_lower st) (u8_upper st) b) then
    let '(out, st') := utf8_lead b in
    65533 :: cons_opt out (utf8_decode_from st' r)
  else
    let cp := N.lor (N.shiftl (u8_code_point st) 6) (N.land b 63) in
    let seen := u8_seen st + 1 in
    if seen =? u8_needed st then cp :: utf8_decode_from u8_init r
    else utf8_decode_from
           {| u8_code_point := cp; u8_seen := seen;
              u8_needed := u8_needed st;
              u8_lower := 128; u8_upper := 191 |} r.
Proof. reflexivity. Qed.

Lemma continuation_value (acc b : N) :
  N.lor (N.shiftl acc 6) (N.land b 63) = acc * 64 + b mod 64.
Proof.
  rewrite land_63, lor_shiftl_low; [reflexivity|].
  apply N.mod_lt. discriminate.
Qed.

Ltac utf8_step :=
  rewrite utf8_decode_from_cons;
  cbn [u8_needed u8_seen u8_lower u8_upper u8_code_point];
  unfold utf8_lead; rewrite ?continuation_value, ?land_31, ?land_15, ?land_7;
  decide_tests; cbn [negb cons_opt].

(** Decoding the bytes of a scalar value gives it back. *)
Lemma utf8_decode_encode_cp (cp : N) (bs : list N) :
  is_scalar cp ->
  utf8_decode_from u8_init (utf8_encode_cp cp ++ bs)
  = cp :: utf8_decode_from u8_init bs.
Proof.
  intros [Hlt Hs]. apply in_range_spec_false in Hs.
  unfold utf8_encode_cp.
  destruct (N.leb_spec cp 127) as [H1|H1].
  { cbn [app]. utf8_step. reflexivity. }
  destruct (N.leb_spec cp 2047) as [H2|H2].
  { rewrite !utf8_continuation_eq, !shiftr_div.
    change (2 ^ 6) with 64. change (2 ^ 0) with 1. rewrite N.div_1_r.
    cbn [app]. utf8_step. utf8_step. f_equal. lia. }
  destruct (N.leb_spec cp 65535) as [H3|H3].
  { rewrite !utf8_continuation_eq, !shiftr_div.
    change (2 ^ 12) with 4096. change (2 ^ 6) with 64.
    change (2 ^ 0) with 1. rewrite N.div_1_r. cbn [app].
    assert (Hc : cp < 4096 \/ 4096 <= cp < 53248 \/ 53248 <= cp < 55296
                 \/ 57344 <= cp) by lia.
    destruct Hc as [Hc|[Hc|[Hc|Hc]]];
      utf8_step; utf8_step; utf8_step; f_equal; lia. }
  rewrite !utf8_continuation_eq, !shiftr_div.
  change (2 ^ 18) with 262144. change (2 ^ 12) with 4096.
  change (2 ^ 6) with 64. change (2 ^ 0) with 1. rewrite N.div_1_r. cbn [app].
  assert (Hc : cp < 262144 \/ 262144 <= cp < 1048576 \/ 1048576 <= cp) by lia.
  destruct Hc as [Hc|[Hc|Hc]];
    utf8_step; utf8_step; utf8_step; utf8_step; f_equal; lia.
Qed.

Lemma utf8_decode_encode (cps : list N) :
  Forall is_scalar cps ->
  utf8_decode_from u8_init (flat_map utf8_encode_cp cps) = cps.
Proof.
  induction 1 as [|cp cps Hcp _ IH]; [reflexivity|].
  cbn [flat_map]. rewrite utf8_decode_encode_cp by assumption.
  rewrite IH. reflexivity.
Qed.

Lemma utf8_encode_cp_bytes (cp : N) :
  is_scalar cp -> Forall is_byte (utf8_encode_cp cp).
Proof.
  intros [Hlt _]. unfold utf8_encode_cp, is_byte.
  rewrite !utf8_continuation_eq, !shiftr_div.
  change (2 ^ 18) with 262144. change (2 ^ 12) with 4096.
  change (2 ^ 6) with 64. change (2 ^ 0) with 1.
  destruct (N.leb_spec cp 127); [repeat constructor; lia|].
  destruct (N.leb_spec cp 2047); [repeat constructor; lia|].
  destruct (N.leb_spec cp 65535); repeat constructor; lia.
Qed.

Lemma utf8_encode_bytes (cps : list N) :
  Forall is_scalar cps -> Forall is_byte (flat_map utf8_encode_cp cps).
Proof.
  induction 1 as [|cp cps Hcp _ IH]; [constructor|].
  cbn [flat_map]. apply Forall_app. split; [|exact IH].
  apply utf8_encode_cp_bytes; assumption.
Qed.

(** ** Percent-encoding *)

Lemma hex_value_hex_digit (d : N) : d < 16 -> hex_value (hex_digit d) = Some d.
Proof.
  intros Hd. unfold hex_value, hex_digit.
  destruct (N.ltb_spec d 10); decide_tests; f_equal; lia.
Qed.

Lemma percent_decode_cons (b : N) (r : list N) :
  percent_decode (b :: r) =
  if b =? 37 then
    match r with
    | h :: l :: r' =>
        match hex_value h, hex_value l with
        | Some x, Some y => (16 * x + y) :: percent_decode r'
        | _, _ => b :: percent_decode r
        end
    | _ => b :: percent_decode r
    end
  else b :: percent_decode r.
Proof. reflexivity. Qed.

Lemma urlencoded_safe_hex_digit (d : N) :
  d < 16 -> urlencoded_safe (hex_digit d) = true.
Proof.
  intros Hd. unfold urlencoded_safe, is_alnum, hex_digit.
  destruct (N.ltb_spec d 10).
  - rewrite (in_range_true 48 57) by lia. reflexivity.
  - rewrite (in_range_true 65 90) by lia. rewrite !orb_true_r. reflexivity.
Qed.

Lemma urlencode_byte_units (b : N) :
  is_byte b -> forallb urlencoded_unit (urlencode_byte b) = true.
Proof.
  unfold is_byte. intros Hb. unfold urlencode_byte.
  destruct (b =? 32); [reflexivity|].
  destruct (urlencoded_safe b) eqn:Hs.
  - cbn. unfold urlencoded_unit. rewrite Hs. reflexivity.
  - cbn [forallb]. unfold urlencoded_unit at 1. cbn [N.eqb Pos.eqb orb].
    rewrite land_15, shiftr_div. change (2 ^ 4) with 16.
    unfold urlencoded_unit.
    rewrite !urlencoded_safe_hex_digit by lia. reflexivity.
Qed.

Lemma urlencode_bytes_units (bs : list N) :
  Forall is_byte bs -> forallb urlencoded_unit (flat_map urlencode_byte bs) = true.
Proof.
  induction 1 as [|b bs Hb _ IH]; [reflexivity|].
  cbn [flat_map]. rewrite forallb_app, IH, urlencode_byte_units by assumption.
  reflexivity.
Qed.

Lemma urlencoded_safe_facts (c : N) :
  urlencoded_safe c = true ->
  c < 128 /\ c <> 37 /\ c <> 43 /\ c <> 38 /\ c <> 61 /\ c <> 63
  /\ c <> 10 /\ c <> 13.
Proof.
  unfold urlencoded_safe, is_alnum. rewrite !orb_true_iff, !in_range_spec.
  rewrite !N.eqb_eq. lia.
Qed.

Lemma urlencoded_unit_facts (c : N) :
  urlencoded_unit c = true ->
  c < 128 /\ c <> 38 /\ c <> 61 /\ c <> 63 /\ c <> 10 /\ c <> 13.
Proof.
  unfold urlencoded_unit. rewrite !orb_true_iff, !N.eqb_eq.
  intros [[H|H]|H]; [apply urlencoded_safe_facts in H|..]; lia.
Qed.

Lemma plus_to_space_cons (b : N) (bs : list N) :
  plus_to_space (b :: bs) = (if b =? 43 then 32 else b) :: plus_to_space bs.
Proof. reflexivity. Qed.

Lemma percent_decode_urlencode (bs : list N) :
  Forall is_byte bs ->
  percent_decode (plus_to_space (flat_map urlencode_byte bs)) = bs.
Proof.
  induction 1 as [|b bs Hb _ IH]; [reflexivity|].
  unfold is_byte in Hb. cbn [flat_map]. unfold urlencode_byte at 1.
  destruct (N.eqb_spec b 32) as [->|Hne].
  { cbn [app]. rewrite plus_to_space_cons, percent_decode_cons.
    cbn [N.eqb Pos.eqb]. rewrite IH. reflexivity. }
  destruct (urlencoded_safe b) eqn:Hs.
  { apply urlencoded_safe_facts in Hs. cbn [app].
    rewrite plus_to_space_cons, (proj2 (N.eqb_neq b 43)) by lia.
    rewrite percent_decode_cons, (proj2 (N.eqb_neq b 37)) by lia.
    rewrite IH. reflexivity. }
  rewrite land_15, shiftr_div. change (2 ^ 4) with 16.
  pose proof (urlencoded_safe_hex_digit (b / 16)) as H1.
  pose proof (urlencoded_safe_hex_digit (b mod 16)) as H2.
  apply urlencoded_safe_facts in H1; [|lia].
  apply urlencoded_safe_facts in H2; [|lia].
  cbn [app]. rewrite !plus_to_space_cons. cbn [N.eqb Pos.eqb].
  rewrite (proj2 (N.eqb_neq (hex_digit (b / 16)) 43)) by lia.
  rewrite (proj2 (N.eqb_neq (hex_digit (b mod 16)) 43)) by lia.
  rewrite percent_decode_cons. cbn [N.eqb Pos.eqb].
  rewrite !hex_value_hex_digit by lia. rewrite IH. f_equal. lia.
Qed.

(** ** Strings of scalar values *)

Lemma utf16_encode_wf (cps : list N) :
  Forall is_scalar cps -> wf_string (utf16_encode cps).
Proof.
  induction 1 as [|cp cps [Hlt _] _ IH]; [constructor|].
  unfold utf16_encode. cbn [flat_map]. apply Forall_app. split; [|exact IH].
  unfold utf16_encode_cp, wf_unit.
  rewrite land_1023, shiftr_div. change (2 ^ 10) with 1024.
  destruct (N.ltb_spec cp 65536); repeat constructor; lia.
Qed.

Lemma to_usv_usv_string (s : jsstring) : wf_string s -> usv_string (to_usv s).
Proof.
  intros Hwf. split.
  - apply utf16_encode_wf, utf16_decode_scalar, Hwf.
  - apply to_usv_idempotent, Hwf.
Qed.

(** Decoding what the serializer wrote for a string gives the string's
    scalar values back. *)
Lemma urlencoded_decode_urlencode (s : jsstring) :
  wf_string s -> urlencoded_decode (urlencode s) = to_usv s.
Proof.
  intros Hwf. unfold urlencoded_decode, urlencode, utf8_encode, utf8_decode.
  pose proof (utf16_decode_scalar s Hwf) as Hs.
  rewrite percent_decode_urlencode by (apply utf8_encode_bytes; exact Hs).
  rewrite utf8_decode_encode by exact Hs. reflexivity.
Qed.

Lemma urlencode_units (s : jsstring) :
  wf_string s -> forallb urlencoded_unit (urlencode s) = true.
Proof.
  intros Hwf. apply urlencode_bytes_units, utf8_encode_bytes,
    utf16_decode_scalar, Hwf.
Qed.

Lemma utf16_decode_ascii (s : jsstring) : is_ascii s -> utf16_decode s = s.
Proof.
  induction 1 as [|c s Hc _ IH]; [reflexivity|].
  rewrite utf16_decode_cons. unfold is_high, is_low.
  rewrite !in_range_false by lia. rewrite IH. reflexivity.
Qed.

Lemma utf8_encode_ascii (s : jsstring) : is_ascii s -> utf8_encode s = s.
Proof.
  intros Ha. unfold utf8_encode. rewrite utf16_decode_ascii by assumption.
  induction Ha as [|c s Hc _ IH]; [reflexivity|].
  cbn [flat_map]. rewrite IH. unfold utf8_encode_cp.
  rewrite (proj2 (N.leb_le c 127)) by lia. reflexivity.
Qed.

Lemma to_usv_ascii (s : jsstring) : is_ascii s -> to_usv s = s.
Proof.
  intros Ha. unfold to_usv. rewrite utf16_decode_ascii by assumption.
  induction Ha as [|c s Hc _ IH]; [reflexivity|].
  unfold utf16_encode in *. cbn [flat_map]. rewrite IH.
  unfold utf16_encode_cp. rewrite (proj2 (N.ltb_lt c 65536)) by lia.
  reflexivity.
Qed.

(** ** The urlencoded parser undoes the serializer *)

Lemma lacks_cons (sep c : N) (bs : list N) :
  lacks sep (c :: bs) <-> c <> sep /\ lacks sep bs.
Proof.
  unfold lacks. cbn [forallb]. rewrite andb_true_iff, negb_true_iff, N.eqb_neq.
  tauto.
Qed.

Lemma lacks_app (sep : N) (a b : list N) :
  lacks sep (a ++ b) <-> lacks sep a /\ lacks sep b.
Proof. unfold lacks. rewrite forallb_app, andb_true_iff. tauto. Qed.

Lemma split_on_lacks (sep : N) (a : list N) : lacks sep a -> split_on sep a = [a].
Proof.
  induction a as [|c a IH]; [reflexivity|].
  intros [Hc Ha]%lacks_cons. cbn [split_on].
  rewrite (proj2 (N.eqb_neq c sep)) by assumption. rewrite IH by assumption.
  reflexivity.
Qed.

Lemma split_on_app (sep : N) (a b : list N) :
  lacks sep a -> split_on sep (a ++ sep :: b) = a :: split_on sep b.
Proof.
  induction a as [|c a IH].
  - intros _. cbn [app split_on]. rewrite N.eqb_refl. reflexivity.
  - intros [Hc Ha]%lacks_cons. cbn [app split_on].
    rewrite (proj2 (N.eqb_neq c sep)) by assumption. rewrite IH by assumption.
    reflexivity.
Qed.

Lemma split_first_app (sep : N) (a b : list N) :
  lacks sep a -> split_first sep (a ++ sep :: b) = (a, b).
Proof.
  induction a as [|c a IH].
  - intros _. cbn [app split_first]. rewrite N.eqb_refl. reflexivity.
  - intros [Hc Ha]%lacks_cons. cbn [app split_first].
    rewrite (proj2 (N.eqb_neq c sep)) by assumption. rewrite IH by assumption.
    reflexivity.
Qed.

Lemma existsb_sep_app (sep : N) (a b : list N) :
  existsb (N.eqb sep) (a ++ sep :: b) = true.
Proof.
  rewrite existsb_app. cbn [existsb]. rewrite N.eqb_refl, orb_true_r.
  reflexivity.
Qed.

Lemma includes_lacks (s : jsstring) (c : N) : lacks c s -> includes s c = false.
Proof.
  unfold includes. induction s as [|d s IH]; [reflexivity|].
  intros [Hd Hs]%lacks_cons. cbn [existsb].
  rewrite (proj2 (N.eqb_neq c d)) by congruence. exact (IH Hs).
Qed.

Lemma usv_tuple_wf (p : jsstring * jsstring) : usv_tuple p -> wf_tuple p.
Proof. intros [[H1 _] [H2 _]]. split; assumption. Qed.

Lemma urlencode_lacks (s : jsstring) (sep : N) :
  wf_string s -> sep = 38 \/ sep = 61 \/ sep = 63 \/ sep = 10 \/ sep = 13 ->
  lacks sep (urlencode s).
Proof.
  intros Hwf Hsep. pose proof (urlencode_units s Hwf) as Hu.
  unfold lacks. rewrite forallb_forall in *. intros c Hc.
  apply Hu, urlencoded_unit_facts in Hc.
  apply negb_true_iff, N.eqb_neq. lia.
Qed.

Lemma urlencode_ascii (s : jsstring) : wf_string s -> is_ascii (urlencode s).
Proof.
  intros Hwf. pose proof (urlencode_units s Hwf) as Hu.
  rewrite forallb_forall in Hu. apply List.Forall_forall. intros c Hc.
  apply Hu, urlencoded_unit_facts in Hc. lia.
Qed.

Lemma urlencoded_serialize_cons (p : jsstring * jsstring)
  (rest : list (jsstring * jsstring)) :
  urlencoded_serialize (p :: rest) =
  match rest with
  | [] => serialized_tuple p
  | _ => serialized_tuple p ++ 38 :: urlencoded_serialize rest
  end.
Proof.
  destruct p as [n v]. destruct rest; cbn [urlencoded_serialize];
    unfold serialized_tuple; cbn [fst snd app]; rewrite <- ?app_assoc;
    reflexivity.
Qed.

Lemma serialized_tuple_lacks (p : jsstring * jsstring) (sep : N) :
  wf_tuple p -> sep = 38 \/ sep = 63 \/ sep = 10 \/ sep = 13 ->
  lacks sep (serialized_tuple p).
Proof.
  intros [H1 H2] Hsep. unfold serialized_tuple.
  apply lacks_app. split; [apply urlencode_lacks; [assumption|lia]|].
  apply lacks_cons. split; [lia|]. apply urlencode_lacks; [assumption|lia].
Qed.

Lemma serialized_tuple_ascii (p : jsstring * jsstring) :
  wf_tuple p -> is_ascii (serialized_tuple p).
Proof.
  intros [H1 H2]. unfold serialized_tuple, is_ascii.
  apply Forall_app. split; [apply urlencode_ascii; assumption|].
  constructor; [lia|]. apply urlencode_ascii; assumption.
Qed.

Lemma urlencoded_serialize_ascii (tuples : list (jsstring * jsstring)) :
  Forall wf_tuple tuples -> is_ascii (urlencoded_serialize tuples).
Proof.
  induction 1 as [|p rest Hp Hrest IH]; [constructor|].
  rewrite urlencoded_serialize_cons. destruct rest as [|q rest].
  - apply serialized_tuple_ascii; assumption.
  - unfold is_ascii. apply Forall_app. split.
    + apply serialized_tuple_ascii; assumption.
    + constructor; [lia | exact IH].
Qed.

Lemma urlencoded_serialize_lacks (tuples : list (jsstring * jsstring)) (sep : N) :
  Forall wf_tuple tuples -> sep = 63 \/ sep = 10 \/ sep = 13 ->
  lacks sep (urlencoded_serialize tuples).
Proof.
  intros H Hsep. induction H as [|p rest Hp Hrest IH]; [reflexivity|].
  rewrite urlencoded_serialize_cons. destruct rest as [|q rest].
  - apply serialized_tuple_lacks; [assumption|lia].
  - apply lacks_app. split; [apply serialized_tuple_lacks; [assumption|lia]|].
    apply lacks_cons. split; [lia | exact IH].
Qed.

Lemma urlencoded_parse_bytes_eq (input : list N) :
  urlencoded_parse_bytes input = flat_map parse_sequence (split_on 38 input).
Proof. reflexivity. Qed.

Lemma parse_sequence_serialized (p : jsstring * jsstring) :
  wf_tuple p -> parse_sequence (serialized_tuple p) = [(to_usv p.1, to_usv p.2)].
Proof.
  intros [H1 H2]. unfold parse_sequence, serialized_tuple.
  destruct (urlencode p.1 ++ 61 :: urlencode p.2) as [|c r] eqn:E.
  { destruct (urlencode p.1); discriminate. }
  rewrite <- E. rewrite existsb_sep_app.
  rewrite split_first_app by (apply urlencode_lacks; [assumption|lia]).
  rewrite !urlencoded_decode_urlencode by assumption. reflexivity.
Qed.

Lemma urlencoded_parse_bytes_serialize (tuples : list (jsstring * jsstring)) :
  Forall wf_tuple tuples ->
  urlencoded_parse_bytes (urlencoded_serialize tuples)
  = List.map (fun p => (to_usv p.1, to_usv p.2)) tuples.
Proof.
  rewrite urlencoded_parse_bytes_eq.
  induction 1 as [|p rest Hp Hrest IH]; [reflexivity|].
  rewrite urlencoded_serialize_cons. destruct rest as [|q rest].
  - rewrite split_on_lacks by (apply serialized_tuple_lacks; [assumption|lia]).
    cbn [flat_map List.map]. rewrite parse_sequence_serialized by assumption.
    reflexivity.
  - rewrite split_on_app by (apply serialized_tuple_lacks; [assumption|lia]).
    cbn [flat_map]. rewrite IH, parse_sequence_serialized by assumption.
    reflexivity.
Qed.

(** Parsing the serialization of a list of tuples of scalar value
    strings gives the list back. *)
Lemma urlencoded_parse_serialize (tuples : list (jsstring * jsstring)) :
  Forall usv_tuple tuples ->
  urlencoded_parse (urlencoded_serialize tuples) = tuples.
Proof.
  intros H. unfold urlencoded_parse.
  assert (Hwf : Forall wf_tuple tuples).
  { eapply Forall_impl; [exact H | exact usv_tuple_wf]. }
  rewrite utf8_encode_ascii by (apply urlencoded_serialize_ascii; exact Hwf).
  rewrite urlencoded_parse_bytes_serialize by exact Hwf.
  clear Hwf. induction H as [|[n v] rest [[_ Hn] [_ Hv]] _ IH]; [reflexivity|].
  cbn [List.map fst snd] in *. rewrite IH, Hn, Hv. reflexivity.
Qed.

Lemma of_string_serialize (tuples : list (jsstring * jsstring)) :
  Forall usv_tuple tuples ->
  URLSearchParams.of_string (63 :: URLSearchParams.toString tuples) = tuples.
Proof.
  intros H. unfold URLSearchParams.of_string, URLSearchParams.toString.
  assert (Ha : is_ascii (63 :: urlencoded_serialize tuples)).
  { constructor; [lia|]. apply urlencoded_serialize_ascii.
    eapply Forall_impl; [exact H | exact usv_tuple_wf]. }
  rewrite to_usv_ascii by exact Ha.
  apply urlencoded_parse_serialize, H.
Qed.

Lemma toString_includes_equals (tuples : list (jsstring * jsstring)) :
  includes (URLSearchParams.toString tuples) 61
  = negb (bool_decide (tuples = [])).
Proof.
  unfold URLSearchParams.toString. destruct tuples as [|p rest]; [reflexivity|].
  rewrite urlencoded_serialize_cons. unfold includes, serialized_tuple.
  destruct rest; rewrite <- ?app_assoc; cbn [app]; rewrite existsb_sep_app;
    reflexivity.
Qed.

(** ** [JSON.parse] reads what [JSON.stringify] writes *)

Lemma parse_string_body_cons (c : N) (r : jsstring) :
  parse_string_body (c :: r) =
  if c =? 34 then Some ([], r)
  else if c =? 92 then
    match r with
    | e :: r1 =>
        let simple (u : N) :=
          match parse_string_body r1 with
          | Some (t, r') => Some (u :: t, r')
          | None => None
          end in
        if (e =? 34) || (e =? 92) || (e =? 47) then simple e
        else if e =? 98 then simple 8
        else if e =? 102 then simple 12
        else if e =? 110 then simple 10
        else if e =? 114 then simple 13
        else if e =? 116 then simple 9
        else if e =? 117 then
          match r1 with
          | h1 :: h2 :: h3 :: h4 :: r2 =>
              match hex_value h1, hex_value h2, hex_value h3, hex_value h4 with
              | Some a, Some b, Some c', Some d =>
                  match parse_string_body r2 with
                  | Some (t, r') =>
                      Some (4096 * a + 256 * b + 16 * c' + d :: t, r')
                  | None => None
                  end
              | _, _, _, _ => None
              end
          | _ => None
          end
        else None
    | [] => None
    end
  else if c <? 32 then None
  else match parse_string_body r with
       | Some (t, r') => Some (c :: t, r')
       | None => None
       end.
Proof. reflexivity. Qed.

Lemma parse_literal (c : N) (x : jsstring) :
  32 <= c -> c <> 34 -> c <> 92 ->
  parse_string_body (c :: x) = with_unit c (parse_string_body x).
Proof.
  intros H1 H2 H3. rewrite parse_string_body_cons. decide_tests. reflexivity.
Qed.

Lemma hex_value_lower_hex_digit (d : N) :
  d < 16 -> hex_value (lower_hex_digit d) = Some d.
Proof.
  intros Hd. unfold hex_value, lower_hex_digit.
  destruct (N.ltb_spec d 10); decide_tests; f_equal; lia.
Qed.

Lemma parse_unicode_escape (c : N) (x : jsstring) :
  c < 65536 ->
  parse_string_body (unicode_escape c ++ x) = with_unit c (parse_string_body x).
Proof.
  intros Hc. unfold unicode_escape. cbn [app].
  rewrite parse_string_body_cons. cbn [N.eqb Pos.eqb orb].
  rewrite !land_15, !shiftr_div.
  change (2 ^ 12) with 4096. change (2 ^ 8) with 256. change (2 ^ 4) with 16.
  rewrite !hex_value_lower_hex_digit by lia.
  replace (4096 * (c / 4096) + 256 * ((c / 256) mod 16)
           + 16 * ((c / 16) mod 16) + c mod 16) with c by lia.
  reflexivity.
Qed.

Lemma parse_quote_unit (c : N) (x : jsstring) :
  c < 65536 ->
  parse_string_body (quote_unit c ++ x) = with_unit c (parse_string_body x).
Proof.
  intros Hc. unfold quote_unit.
  destruct (N.eqb_spec c 8) as [->|H8]; [reflexivity|].
  destruct (N.eqb_spec c 9) as [->|H9]; [reflexivity|].
  destruct (N.eqb_spec c 10) as [->|H10]; [reflexivity|].
  destruct (N.eqb_spec c 12) as [->|H12]; [reflexivity|].
  destruct (N.eqb_spec c 13) as [->|H13]; [reflexivity|].
  destruct (N.eqb_spec c 34) as [->|H34]; [reflexivity|].
  destruct (N.eqb_spec c 92) as [->|H92]; [reflexivity|].
  destruct (N.ltb_spec c 32).
  - apply parse_unicode_escape, Hc.
  - apply parse_literal; assumption.
Qed.

Lemma quote_body_cons (c : N) (r : jsstring) :
  quote_body (c :: r) =
  if is_high c then
    match r with
    | d :: r' =>
        if is_low d then c :: d :: quote_body r'
        else unicode_escape c ++ quote_body r
    | [] => unicode_escape c
    end
  else if is_low c then unicode_escape c ++ quote_body r
  else quote_unit c ++ quote_body r.
Proof. reflexivity. Qed.

Lemma parse_string_body_quote_body (s rest : jsstring) :
  wf_string s ->
  parse_string_body (quote_body s ++ 34 :: rest) = Some (s, rest).
Proof.
  revert rest.
  induction s as [|c|c d r IH1 IH2] using string_ind2; intros rest Hwf.
  - reflexivity.
  - inversion_clear Hwf as [|? ? Hc _]. unfold wf_unit in Hc.
    rewrite quote_body_cons.
    destruct (is_high c); [|destruct (is_low c)];
      rewrite <- ?app_assoc;
      rewrite ?parse_unicode_escape, ?parse_quote_unit by exact Hc;
      reflexivity.
  - inversion Hwf as [|? ? Hc Hwf']; subst.
    inversion Hwf' as [|? ? Hd Hwf'']; subst.
    unfold wf_unit in Hc, Hd. rewrite quote_body_cons.
    destruct (is_high c) eqn:Hh.
    + destruct (is_low d) eqn:Hl.
      * apply in_range_spec in Hh. apply in_range_spec in Hl. cbn [app].
        rewrite (parse_literal c), (parse_literal d) by lia.
        rewrite (IH1 rest Hwf''). reflexivity.
      * rewrite <- app_assoc, parse_unicode_escape by exact Hc.
        rewrite (IH2 rest Hwf'). reflexivity.
    + destruct (is_low c).
      * rewrite <- app_assoc, parse_unicode_escape by exact Hc.
        rewrite (IH2 rest Hwf'). reflexivity.
      * rewrite <- app_assoc, parse_quote_unit by exact Hc.
        rewrite (IH2 rest Hwf'). reflexivity.
Qed.

Lemma parse_quoted (s rest : jsstring) :
  wf_string s ->
  parse_string_body (List.tail (QuoteJSONString s) ++ rest) = Some (s, rest).
Proof.
  intros Hwf. unfold QuoteJSONString. cbn [app List.tail].
  rewrite <- app_assoc. apply parse_string_body_quote_body, Hwf.
Qed.

(** One object of the array, with four units of fuel or more. *)
Lemma parse_value_stringify_pair (p : Pair) (rest : jsstring) (fuel : nat) :
  wf_pair p ->
  parse_value (S (S (S (S fuel)))) (stringify_pair p ++ rest)
  = Some (pair_value_of p, rest).
Proof.
  intros [Hk Hv]. unfold stringify_pair, QuoteJSONString.
  rewrite <- !app_assoc.
  change (jsq "{'key':" ++ [34] ++ quote_body (key p) ++ [34]
          ++ jsq ",'value':" ++ [34] ++ quote_body (value p) ++ [34]
          ++ js "}" ++ rest)
    with (123 :: 34 :: 107 :: 101 :: 121 :: 34 :: 58 :: 34
          :: (quote_body (key p) ++ 34
              :: (44 :: 34 :: 118 :: 97 :: 108 :: 117 :: 101 :: 34 :: 58 :: 34
                  :: (quote_body (value p) ++ 34 :: (125 :: rest))))).
  cbn [parse_value skip_ws is_json_ws N.eqb Pos.eqb orb].
  cbn [parse_members skip_ws is_json_ws N.eqb Pos.eqb orb].
  change (parse_string_body (107 :: 101 :: 121 :: 34 :: 58 :: 34
            :: (quote_body (key p) ++ 34
                :: (44 :: 34 :: 118 :: 97 :: 108 :: 117 :: 101 :: 34 :: 58
                    :: 34 :: (quote_body (value p) ++ 34 :: (125 :: rest))))))
    with (Some (js "key", 58 :: 34
            :: (quote_body (key p) ++ 34
                :: (44 :: 34 :: 118 :: 97 :: 108 :: 117 :: 101 :: 34 :: 58
                    :: 34 :: (quote_body (value p) ++ 34 :: (125 :: rest)))))).
  cbn [skip_ws is_json_ws N.eqb Pos.eqb orb parse_value].
  rewrite parse_string_body_quote_body by exact Hk.
  cbn [skip_ws is_json_ws N.eqb Pos.eqb orb parse_members].
  change (parse_string_body (118 :: 97 :: 108 :: 117 :: 101 :: 34 :: 58 :: 34
            :: (quote_body (value p) ++ 34 :: (125 :: rest))))
    with (Some (js "value", 58 :: 34
            :: (quote_body (value p) ++ 34 :: (125 :: rest)))).
  cbn [skip_ws is_json_ws N.eqb Pos.eqb orb parse_value].
  rewrite parse_string_body_quote_body by exact Hv.
  cbn [skip_ws is_json_ws N.eqb Pos.eqb orb]. reflexivity.
Qed.

Lemma parse_elements_S (fuel : nat) (s : jsstring) :
  parse_elements (S fuel) s =
  match parse_value fuel s with
  | None => None
  | Some (v, r) =>
      match skip_ws r with
      | 93 :: r' => Some ([v], r')
      | 44 :: r' =>
          match parse_elements fuel r' with
          | Some (l, r'') => Some (v :: l, r'')
          | None => None
          end
      | _ => None
      end
  end.
Proof. reflexivity. Qed.

Lemma parse_value_array (fuel : nat) (t : jsstring) :
  parse_value (S fuel) (91 :: 123 :: t) =
  match parse_elements fuel (123 :: t) with
  | Some (l, r') => Some (VArr l, r')
  | None => None
  end.
Proof. reflexivity. Qed.

Lemma join_cons_cons (sep p q : jsstring) (l : list jsstring) :
  join sep (p :: q :: l) = p ++ sep ++ join sep (q :: l).
Proof. reflexivity. Qed.

Lemma stringify_pair_head (p : Pair) :
  exists t, stringify_pair p = 123 :: t.
Proof. eexists. reflexivity. Qed.

(** The elements of the array: one unit of fuel for each of them, and
    four for the last. *)
Lemma parse_elements_pairs (ps : list Pair) (p : Pair) (rest : jsstring)
  (fuel : nat) :
  Forall wf_pair (p :: ps) ->
  parse_elements (S (S (S (S (S (List.length ps + fuel))))))
    (join [44] (List.map stringify_pair (p :: ps)) ++ 93 :: rest)
  = Some (List.map pair_value_of (p :: ps), rest).
Proof.
  revert p fuel. induction ps as [|q ps IH]; intros p fuel Hwf;
    inversion_clear Hwf as [|? ? Hp Hps].
  - cbn [List.map join List.length Nat.add]. rewrite parse_elements_S.
    rewrite (parse_value_stringify_pair p (93 :: rest) fuel Hp).
    reflexivity.
  - cbn [List.map]. rewrite join_cons_cons. rewrite <- !app_assoc.
    cbn [List.length Nat.add]. rewrite parse_elements_S.
    rewrite (parse_value_stringify_pair p _ _ Hp).
    cbn [app skip_ws is_json_ws N.eqb Pos.eqb orb].
    specialize (IH q fuel Hps). cbn [List.map] in IH. rewrite IH.
    reflexivity.
Qed.

Lemma join_length (l : list Pair) :
  (List.length l <= List.length (join [44%N] (List.map stringify_pair l)))%nat.
Proof.
  induction l as [|p l IH]; [cbn; lia|].
  destruct l as [|q l].
  - cbn [List.map join]. destruct (stringify_pair_head p) as [t ->].
    cbn. lia.
  - cbn [List.map] in *. rewrite join_cons_cons, !length_app.
    destruct (stringify_pair_head p) as [t ->]. cbn [List.length] in *. lia.
Qed.

(** [JSON.parse] of the text that [JSON.stringify] writes for an array
    of pairs is that array. *)
Lemma JSON_parse_stringify (ps : list Pair) :
  Forall wf_pair ps ->
  JSON_parse (JSON_stringify ps) = Returns (VArr (List.map pair_value_of ps)).
Proof.
  intros Hwf. destruct ps as [|p ps]; [reflexivity|].
  unfold JSON_parse, JSON_stringify.
  pose proof (join_length (p :: ps)) as Hlen.
  set (body := join [44] (List.map stringify_pair (p :: ps))) in *.
  assert (Hbody : exists t, body = 123 :: t).
  { unfold body. cbn [List.map]. destruct (stringify_pair_head p) as [t Ht].
    destruct ps as [|q ps]; [cbn [List.map join]; eauto|].
    cbn [List.map]. rewrite join_cons_cons, Ht. eexists. reflexivity. }
  rewrite !length_app.
  change (List.length (js "[")) with 1%nat.
  change (List.length (js "]")) with 1%nat.
  change (js "[" ++ body ++ js "]") with (91 :: (body ++ [93])).
  destruct Hbody as [t Ht].
  assert (Happ : body ++ [93] = 123 :: (t ++ [93])) by (rewrite Ht; reflexivity).
  cbn [List.length] in Hlen.
  replace (2 * (1 + (List.length body + 1)) + 2)%nat
    with (S (S (S (S (S (S (List.length ps
             + (2 * (1 + (List.length body + 1)) + 2 - 6
                - List.length ps))))))))%nat
    by lia.
  rewrite Happ, parse_value_array, <- Happ. unfold body.
  rewrite (parse_elements_pairs ps p [] _ Hwf). reflexivity.
Qed.

(** ** [trim] *)

Lemma trimStart_wf (s : jsstring) : wf_string s -> wf_string (trimStart s).
Proof.
  induction 1 as [|c s Hc Hs IH]; [constructor|].
  cbn [trimStart]. destruct (is_white_space c); [exact IH|].
  constructor; assumption.
Qed.

Lemma trimEnd_wf (s : jsstring) : wf_string s -> wf_string (trimEnd s).
Proof.
  induction 1 as [|c s Hc Hs IH]; [constructor|].
  cbn [trimEnd]. destruct (trimEnd s) as [|d r].
  - destruct (is_white_space c); repeat constructor; assumption.
  - constructor; assumption.
Qed.

Lemma trim_wf (s : jsstring) : wf_string s -> wf_string (trim s).
Proof. intros H. apply trimEnd_wf, trimStart_wf, H. Qed.

Lemma trimStart_head (s : jsstring) (c : N) (r : jsstring) :
  trimStart s = c :: r -> is_white_space c = false.
Proof.
  induction s as [|d s IH]; [discriminate|].
  cbn [trimStart]. destruct (is_white_space d) eqn:Hd; [exact IH|].
  intros [= <- _]. exact Hd.
Qed.

Lemma trimEnd_head (c : N) (s : jsstring) :
  is_white_space c = false -> exists r, trimEnd (c :: s) = c :: r.
Proof.
  intros Hc. cbn [trimEnd]. destruct (trimEnd s) as [|d r]; [|eauto].
  rewrite Hc. eauto.
Qed.

(** A trimmed string is empty or begins with a unit that is not white
    space. *)
Lemma trim_head (s : jsstring) (c : N) (r : jsstring) :
  trim s = c :: r -> is_white_space c = false.
Proof.
  unfold trim. destruct (trimStart s) as [|d t] eqn:E; [discriminate|].
  pose proof (trimStart_head _ _ _ E) as Hd.
  destruct (trimEnd_head d t Hd) as [r' ->]. intros [= <- _]. exact Hd.
Qed.

Lemma trim_not_white (c : N) (s : jsstring) :
  is_white_space c = false -> trim (c :: s) <> [].
Proof.
  intros Hc. unfold trim. cbn [trimStart]. rewrite Hc.
  destruct (trimEnd_head c s Hc) as [r ->]. discriminate.
Qed.

(** The first unit of a scalar value string is that of the string or
    U+FFFD. *)
Lemma to_usv_head (c : N) (s : jsstring) :
  wf_unit c -> exists c' r, to_usv (c :: s) = c' :: r /\ (c' = c \/ c' = 65533).
Proof.
  unfold wf_unit. intros Hc. unfold to_usv. rewrite utf16_decode_cons.
  destruct (is_high c) eqn:Hh.
  - destruct s as [|d s]; [cbn; eauto|].
    destruct (is_low d) eqn:Hl; [|cbn; eauto].
    unfold utf16_encode. cbn [flat_map].
    rewrite utf16_encode_pair by assumption. cbn [app]. eauto.
  - destruct (is_low c); [cbn; eauto|].
    unfold utf16_encode. cbn [flat_map]. unfold utf16_encode_cp at 1.
    rewrite (proj2 (N.ltb_lt c 65536)) by lia. cbn [app]. eauto.
Qed.

(** Trimming the scalar value string of a trimmed string that is not
    empty does not empty it. *)
Lemma trim_to_usv_trim (s : jsstring) :
  wf_string s -> trim s <> [] -> trim (to_usv (trim s)) <> [].
Proof.
  intros Hwf Hne. destruct (trim s) as [|c r] eqn:E; [congruence|].
  pose proof (trim_head _ _ _ E) as Hc.
  pose proof (trim_wf s Hwf) as Hwf'. rewrite E in Hwf'.
  inversion_clear Hwf' as [|? ? Hwc _].
  destruct (to_usv_head c r Hwc) as (c' & r' & -> & [-> | ->]);
    apply trim_not_white; [exact Hc | reflexivity].
Qed.

(** ** [URLSearchParams.set] and [Object.fromEntries] *)

Lemma fromEntries_snoc (l : list (jsstring * jsstring)) (p : jsstring * jsstring) :
  fromEntries (l ++ [p]) = <[p.1 := p.2]> (fromEntries l).
Proof. unfold fromEntries. rewrite fold_left_app. reflexivity. Qed.

Lemma fromEntries_list_to_map (l : list (jsstring * jsstring)) :
  NoDup l.*1 -> fromEntries l = list_to_map l.
Proof.
  induction l as [|[n v] l IH] using rev_ind; [reflexivity|].
  rewrite fmap_app, NoDup_app. intros (Hl & Hn & _).
  rewrite fromEntries_snoc, IH by assumption. cbn [fst snd].
  rewrite list_to_map_snoc; [reflexivity|].
  intros Hin. apply (Hn n Hin). cbn. left.
Qed.

Lemma has_name_spec (name : jsstring) (l : list (jsstring * jsstring)) :
  URLSearchParams.has_name name l = true <-> name ∈ l.*1.
Proof.
  unfold URLSearchParams.has_name. induction l as [|[n v] l IH].
  - cbn. split; [discriminate | intros H; inversion H].
  - cbn [existsb fmap list_fmap fst]. rewrite orb_true_iff, IH, elem_of_cons.
    rewrite bool_decide_eq_true. split; intros [H|H]; auto.
Qed.

Lemma filter_other_names (name : jsstring) (l : list (jsstring * jsstring)) :
  name ∉ l.*1 ->
  List.filter (fun p => negb (bool_decide (p.1 = name))) l = l.
Proof.
  induction l as [|[n v] l IH]; [reflexivity|].
  cbn [fmap list_fmap fst]. rewrite not_elem_of_cons. intros [Hn Hl].
  cbn [List.filter fst]. rewrite bool_decide_eq_false_2 by congruence.
  cbn [negb]. rewrite IH by assumption. reflexivity.
Qed.

Lemma set_first_spec (name value : jsstring) (l : list (jsstring * jsstring)) :
  NoDup l.*1 -> name ∈ l.*1 ->
  (URLSearchParams.set_first name value l).*1 = l.*1
  /\ (list_to_map (URLSearchParams.set_first name value l)
      : gmap jsstring jsstring) = <[name := value]> (list_to_map l).
Proof.
  induction l as [|[n v] l IH]; [intros _ H; inversion H|].
  cbn [fmap list_fmap fst]. rewrite NoDup_cons, elem_of_cons.
  intros [Hn Hl] Hin. cbn [URLSearchParams.set_first].
  destruct (bool_decide_reflect (n = name)) as [->|Hne].
  - rewrite filter_other_names by assumption. split; [reflexivity|].
    rewrite !list_to_map_cons, insert_insert_eq. reflexivity.
  - destruct Hin as [Heq|Hin]; [congruence|].
    destruct (IH Hl Hin) as [IH1 IH2]. split.
    + cbn [fmap list_fmap fst]. f_equal. exact IH1.
    + rewrite !list_to_map_cons, IH2. apply insert_insert_ne. congruence.
Qed.

Lemma set_spec (name value : jsstring) (l : list (jsstring * jsstring)) :
  NoDup l.*1 ->
  NoDup (URLSearchParams.set name value l).*1
  /\ fromEntries (URLSearchParams.set name value l)
     = <[to_usv name := to_usv value]> (fromEntries l).
Proof.
  intros Hl. unfold URLSearchParams.set.
  destruct (URLSearchParams.has_name (to_usv name) l) eqn:Hh.
  - apply has_name_spec in Hh.
    destruct (set_first_spec (to_usv name) (to_usv value) l Hl Hh) as [H1 H2].
    assert (Hnd : NoDup (URLSearchParams.set_first (to_usv name) (to_usv value) l).*1)
      by (rewrite H1; exact Hl).
    split; [exact Hnd|].
    rewrite !fromEntries_list_to_map by assumption. exact H2.
  - assert (Hn : to_usv name ∉ l.*1).
    { intros Hin. apply has_name_spec in Hin. congruence. }
    split.
    + rewrite fmap_app. apply NoDup_app. split; [exact Hl|]. split.
      * intros x Hx [->|H]%elem_of_cons; [exact (Hn Hx) | inversion H].
      * apply NoDup_singleton.
    + apply fromEntries_snoc.
Qed.

Lemma set_first_usv (name value : jsstring) (l : list (jsstring * jsstring)) :
  usv_string value -> Forall usv_tuple l ->
  Forall usv_tuple (URLSearchParams.set_first name value l).
Proof.
  intros Hv. induction 1 as [|[n v] l [Hn Hv'] Hl IH]; [constructor|].
  cbn [URLSearchParams.set_first]. destruct (bool_decide (n = name)).
  - constructor; [split; assumption|].
    apply List.Forall_forall. intros p [Hp _]%filter_In.
    rewrite List.Forall_forall in Hl. exact (Hl p Hp).
  - constructor; [split; assumption | exact IH].
Qed.

Lemma set_usv (name value : jsstring) (l : list (jsstring * jsstring)) :
  wf_string name -> wf_string value -> Forall usv_tuple l ->
  Forall usv_tuple (URLSearchParams.set name value l).
Proof.
  intros Hn Hv Hl. unfold URLSearchParams.set.
  destruct (URLSearchParams.has_name (to_usv name) l).
  - apply set_first_usv; [apply to_usv_usv_string; assumption | exact Hl].
  - apply Forall_app. split; [exact Hl|]. constructor; [|constructor].
    split; apply to_usv_usv_string; assumption.
Qed.

(** ** The rows and their parameters *)

Lemma collect_row_spec (usp : list (jsstring * jsstring)) (tr : Row) :
  NoDup usp.*1 ->
  NoDup (collect_row usp tr).*1
  /\ fromEntries (collect_row usp tr) = params_step (fromEntries usp) tr.
Proof.
  intros Hnd. unfold collect_row, params_step, row_key, row_value.
  destruct (trim (input_value (key_input tr))) as [|c r]; [split; auto|].
  apply set_spec, Hnd.
Qed.

Lemma search_params_fold (rows : list Row) (usp : list (jsstring * jsstring)) :
  NoDup usp.*1 ->
  NoDup (fold_left collect_row rows usp).*1
  /\ fromEntries (fold_left collect_row rows usp)
     = fold_left params_step rows (fromEntries usp).
Proof.
  revert usp. induction rows as [|tr rows IH]; intros usp Hnd; [split; auto|].
  cbn [fold_left]. destruct (collect_row_spec usp tr Hnd) as [H1 H2].
  destruct (IH _ H1) as [IH1 IH2]. split; [exact IH1|].
  rewrite IH2, H2. reflexivity.
Qed.

(** [getParams] computes the mapping of the specification. *)
Lemma fromEntries_search_params (rows : list Row) :
  fromEntries (search_params_of rows) = params_spec rows.
Proof.
  apply (search_params_fold rows []). constructor.
Qed.

Lemma search_params_nodup (rows : list Row) : NoDup (search_params_of rows).*1.
Proof. apply (search_params_fold rows []). constructor. Qed.

Lemma search_params_usv (rows : list Row) :
  wf_rows rows -> Forall usv_tuple (search_params_of rows).
Proof.
  unfold search_params_of, URLSearchParams.empty.
  assert (H : Forall usv_tuple []) by constructor. revert H.
  generalize (@nil (jsstring * jsstring)) as usp.
  induction rows as [|tr rows IH]; intros usp Husp Hwf; [exact Husp|].
  inversion_clear Hwf as [|? ? [Hk Hv] Hrows].
  cbn [fold_left]. apply IH; [|exact Hrows].
  unfold collect_row. destruct (trim (input_value (key_input tr))) eqn:E;
    [exact Husp|].
  rewrite <- E. apply set_usv; [apply trim_wf.. | exact Husp]; assumption.
Qed.

Lemma params_spec_snoc (rows : list Row) (tr : Row) :
  params_spec (rows ++ [tr]) = params_step (params_spec rows) tr.
Proof. unfold params_spec. rewrite fold_left_app. reflexivity. Qed.

(** Every key of the mapping is the key of a row that has one. *)
Lemma params_spec_keys (rows : list Row) (k : jsstring) :
  is_Some (params_spec rows !! k) ->
  exists tr, tr ∈ rows /\ has_key tr /\ row_key tr = k.
Proof.
  induction rows as [|tr rows IH] using rev_ind.
  - unfold params_spec. cbn. rewrite lookup_empty. intros [? [=]].
  - rewrite params_spec_snoc. unfold params_step.
    destruct (trim (input_value (key_input tr))) as [|c r] eqn:E.
    + intros H. destruct (IH H) as (tr' & Hin & Hk).
      exists tr'. split; [apply elem_of_app; left; exact Hin | exact Hk].
    + destruct (decide (row_key tr = k)) as [<-|Hne].
      * intros _. exists tr. split; [apply elem_of_app; right; left|].
        split; [unfold has_key; rewrite E; discriminate | reflexivity].
      * rewrite lookup_insert_ne by exact Hne. intros H.
        destruct (IH H) as (tr' & Hin & Hk).
        exists tr'. split; [apply elem_of_app; left; exact Hin | exact Hk].
Qed.

(** The value at a key is that of the last row with the key. *)
Lemma params_spec_last (pre post : list Row) (tr : Row) :
  has_key tr ->
  Forall (fun tr' => has_key tr' -> row_key tr' <> row_key tr) post ->
  params_spec (pre ++ tr :: post) !! row_key tr = Some (row_value tr).
Proof.
  intros Hk. induction post as [|tr' post IH] using rev_ind; intros Hpost.
  - rewrite params_spec_snoc. unfold params_step. unfold has_key in Hk.
    destruct (trim (input_value (key_input tr))); [congruence|].
    apply lookup_insert_eq.
  - apply Forall_app in Hpost as [Hpost Htr'].
    inversion_clear Htr' as [|? ? Hne _].
    replace (pre ++ tr :: post ++ [tr']) with ((pre ++ tr :: post) ++ [tr'])
      by (rewrite <- app_assoc; reflexivity).
    rewrite params_spec_snoc. unfold params_step.
    destruct (trim (input_value (key_input tr'))) eqn:E; [exact (IH Hpost)|].
    rewrite lookup_insert_ne; [exact (IH Hpost)|].
    apply Hne. unfold has_key. rewrite E. discriminate.
Qed.

Lemma this_tbody_initialized (e : Editor) :
  _initialized e = true -> this_tbody e = (Returns (tbody e), e).
Proof. intros H. unfold this_tbody, bind, get. rewrite H. reflexivity. Qed.

Lemma this_tbody_uninitialized (e : Editor) :
  _initialized e = false -> this_tbody e = (Throws TypeError, e).
Proof. intros H. unfold this_tbody, bind, get. rewrite H. reflexivity. Qed.

Lemma _getSearchParams_initialized (e : Editor) :
  _initialized e = true ->
  _getSearchParams e = (Returns (search_params_of (tbody e)), e).
Proof.
  intros H. unfold _getSearchParams, bind.
  rewrite this_tbody_initialized by exact H. reflexivity.
Qed.

Lemma getParams_initialized (e : Editor) :
  _initialized e = true ->
  getParams e = (Returns (params_spec (tbody e)), e).
Proof.
  intros H. unfold getParams, bind.
  rewrite _getSearchParams_initialized by exact H.
  unfold ret, URLSearchParams.entries. rewrite fromEntries_search_params.
  reflexivity.
Qed.

(** The names of the parameters, in the order of the rows. *)
Lemma set_names (name value : jsstring) (l : list (jsstring * jsstring)) :
  NoDup l.*1 ->
  (URLSearchParams.set name value l).*1 = keep_first l.*1 (to_usv name).
Proof.
  intros Hl. unfold URLSearchParams.set, keep_first.
  destruct (URLSearchParams.has_name (to_usv name) l) eqn:Hh.
  - apply has_name_spec in Hh. rewrite bool_decide_eq_true_2 by exact Hh.
    exact (proj1 (set_first_spec _ _ l Hl Hh)).
  - rewrite bool_decide_eq_false_2.
    + rewrite fmap_app. reflexivity.
    + intros Hin. apply has_name_spec in Hin. congruence.
Qed.

Lemma collect_row_names_order (usp : list (jsstring * jsstring)) (tr : Row) :
  NoDup usp.*1 ->
  (collect_row usp tr).*1
  = match keyed tr with Some k => keep_first usp.*1 k | None => usp.*1 end.
Proof.
  intros Hl. unfold collect_row, keyed, row_key.
  destruct (trim (input_value (key_input tr))) as [|c k]; [reflexivity|].
  apply set_names, Hl.
Qed.

Lemma search_params_order (rows : list Row) (usp : list (jsstring * jsstring)) :
  NoDup usp.*1 ->
  (fold_left collect_row rows usp).*1 = fold_left keep_first (row_keys rows) usp.*1.
Proof.
  revert usp. induction rows as [|tr rows IH]; intros usp Hl; [reflexivity|].
  cbn [fold_left]. rewrite IH by apply collect_row_spec, Hl.
  rewrite collect_row_names_order by exact Hl.
  unfold row_keys. cbn [omap list_omap]. destruct (keyed tr); reflexivity.
Qed.

(** ** Editors used as examples *)

Lemma example_rows_wf : wf_rows example_rows.
Proof.
  unfold wf_rows, wf_row, wf_string.
  repeat (constructor; cbn); reflexivity.
Qed.

(** C7: for every row list, [getParams()] returns a mapping in which no
    key is empty after trimming, every key being the trimmed key of a
    row that has one, and in which the value at a key is the trimmed
    value of the last row with that key: a later row overrides an
    earlier one. *)
Theorem getParams_trimmed_last_wins (e : Editor) :
  _initialized e = true -> wf_rows (tbody e) ->
  exists m,
    getParams e = (Returns m, e)
    /\ (forall k, is_Some (m !! k) ->
          trim k <> []
          /\ exists tr, tr ∈ tbody e /\ has_key tr /\ row_key tr = k)
    /\ (forall pre tr post,
          tbody e = pre ++ tr :: post -> has_key tr ->
          Forall (fun tr' => has_key tr' -> row_key tr' <> row_key tr) post ->
          m !! row_key tr = Some (row_value tr)).
Proof.
  intros Hi Hwf. exists (params_spec (tbody e)).
  split; [apply getParams_initialized, Hi|]. split.
  - intros k Hk. destruct (params_spec_keys _ _ Hk) as (tr & Hin & Hkey & <-).
    split; [|eauto].
    unfold wf_rows in Hwf. rewrite Forall_forall in Hwf.
    destruct (Hwf tr Hin) as [Hwk _].
    apply trim_to_usv_trim; assumption.
  - intros pre tr post -> Hk Hpost. apply params_spec_last; assumption.
Qed.

Lemma getParams_trimmed_last_wins_witness :
  _initialized (rendered no_attributes example_rows []) = true
  /\ wf_rows (tbody (rendered no_attributes example_rows []))
  /\ exists m,
       getParams (rendered no_attributes example_rows [])
       = (Returns m, rendered no_attributes example_rows [])
       /\ (forall k, is_Some (m !! k) ->
             trim k <> []
             /\ exists tr, tr ∈ example_rows /\ has_key tr /\ row_key tr = k)
       /\ (forall pre tr post,
             example_rows = pre ++ tr :: post -> has_key tr ->
             Forall (fun tr' => has_key tr' -> row_key tr' <> row_key tr) post ->
             m !! row_key tr = Some (row_value tr)).
Proof.
  split; [reflexivity|]. split; [exact example_rows_wf|].
  apply (getParams_trimmed_last_wins (rendered no_attributes example_rows []));
    [reflexivity | exact example_rows_wf].
Defined.

(** The rows of the example give [a] the value of the last row. *)
Example getParams_example :
  params_spec example_rows
  = <[js "b c" := js "x&y"]> (<[js "a" := js "2"]> ∅).
Proof. reflexivity. Qed.

(** ** The round trip through the query string *)

Lemma entry_of_pair_of_entry (l : list (jsstring * jsstring)) :
  List.map entry_of_pair (List.map pair_of_entry l) = l.
Proof.
  induction l as [|[n v] l IH]; [reflexivity|].
  cbn [List.map]. rewrite IH. reflexivity.
Qed.

Lemma parseUrlToData_serialized (tuples : list (jsstring * jsstring))
  (asArray : bool) :
  Forall usv_tuple tuples ->
  parseUrlToData (URLSearchParams.toString tuples) asArray =
  match tuples with
  | [] => AString (js "[]")
  | _ =>
      if asArray then AnArray (List.map pair_of_entry tuples)
      else AString (JSON_stringify (List.map pair_of_entry tuples))
  end.
Proof.
  intros H. unfold parseUrlToData.
  rewrite includes_lacks.
  2:{ apply urlencoded_serialize_lacks; [|lia].
      eapply Forall_impl; [exact H | exact usv_tuple_wf]. }
  rewrite toString_includes_equals.
  destruct tuples as [|p rest]; [reflexivity|].
  rewrite bool_decide_eq_false_2 by discriminate. cbn [negb app].
  rewrite of_string_serialize by exact H. reflexivity.
Qed.

Lemma usv_entries_wf_pairs (l : list (jsstring * jsstring)) :
  Forall usv_tuple l -> Forall wf_pair (List.map pair_of_entry l).
Proof.
  induction 1 as [|[n v] l [[Hn _] [Hv _]] _ IH]; [constructor|].
  cbn [List.map]. constructor; [split; assumption | exact IH].
Qed.

Lemma entries_of_names (l : list (jsstring * jsstring)) :
  NoDup l.*1 ->
  List.map (fun k => (k, default [] (fromEntries l !! k))) l.*1 = l.
Proof.
  intros Hl. rewrite fromEntries_list_to_map by exact Hl.
  induction l as [|[n v] l IH]; [reflexivity|].
  cbn [fmap list_fmap fst] in *. apply NoDup_cons in Hl as [Hn Hl].
  cbn [List.map]. rewrite list_to_map_cons, lookup_insert_eq. cbn [default].
  f_equal. rewrite <- (IH Hl) at 2. apply List.map_ext_in. intros k Hk.
  rewrite lookup_insert_ne; [reflexivity|].
  intros ->. apply Hn. apply list_elem_of_In. exact Hk.
Qed.

(** The search parameters of the rows are the derived parameters. *)
Lemma search_params_derived (rows : list Row) :
  search_params_of rows = derived_tuples rows.
Proof.
  unfold derived_tuples. rewrite <- fromEntries_search_params.
  pose proof (search_params_order rows [] (NoDup_nil_2 : NoDup ([] : list (jsstring * jsstring)).*1)) as Ho.
  change (fold_left collect_row rows []) with (search_params_of rows) in Ho.
  change (fold_left keep_first (row_keys rows) ([] : list (jsstring * jsstring)).*1)
    with (first_occurrences (row_keys rows)) in Ho.
  rewrite <- Ho. symmetry. apply entries_of_names, search_params_nodup.
Qed.

(** C1, as amended: for every row sequence, the query string derived
    from the rows is the serialization of the derived parameters (the
    trimmed key and value of the rows with a key, one parameter for
    each key); [parseUrlToData] applied to it returns by default the
    JSON text of the pair sequence of these parameters and, with
    [asArray] set and at least one parameter, the pair sequence
    itself; the key-to-value mapping of the sequence is the mapping
    that [getParams()] returns. *)
Theorem parse_of_derived_query_string (e : Editor) :
  _initialized e = true -> wf_rows (tbody e) ->
  let tuples := derived_tuples (tbody e) in
  let qs := URLSearchParams.toString tuples in
  let ps := List.map pair_of_entry tuples in
  _getSearchParams e = (Returns tuples, e)
  /\ getParams e = (Returns (params_spec (tbody e)), e)
  /\ mapping_of ps = params_spec (tbody e)
  /\ parseUrlToData qs false = AString (JSON_stringify ps)
  /\ (ps <> [] -> parseUrlToData qs true = AnArray ps).
Proof.
  intros Hi Hwf tuples qs ps. subst qs ps tuples.
  rewrite <- search_params_derived.
  pose proof (search_params_usv _ Hwf) as Husv.
  split; [apply _getSearchParams_initialized, Hi|].
  split; [apply getParams_initialized, Hi|].
  split.
  { unfold mapping_of. rewrite entry_of_pair_of_entry.
    apply fromEntries_search_params. }
  rewrite !parseUrlToData_serialized by exact Husv.
  destruct (search_params_of (tbody e)) as [|p l].
  - split; [reflexivity|]. intros H. exfalso. apply H. reflexivity.
  - split; [reflexivity|]. intros _. reflexivity.
Qed.

Lemma parse_of_derived_query_string_witness :
  let e := rendered no_attributes example_rows [] in
  _initialized e = true
  /\ wf_rows (tbody e)
  /\ _getSearchParams e
     = (Returns [(js "a", js "2"); (js "b c", js "x&y")], e)
  /\ getParams e
     = (Returns (<[js "b c" := js "x&y"]> (<[js "a" := js "2"]> ∅)), e)
  /\ parseUrlToData (js "a=2&b+c=x%26y") false
     = AString (jsq "[{'key':'a','value':'2'},{'key':'b c','value':'x&y'}]")
  /\ parseUrlToData (js "a=2&b+c=x%26y") true
     = AnArray [ {| key := js "a"; value := js "2" |};
                 {| key := js "b c"; value := js "x&y" |} ].
Proof.
  destruct (parse_of_derived_query_string
              (rendered no_attributes example_rows []) eq_refl example_rows_wf)
    as (H1 & H2 & _ & H4 & H5).
  split; [reflexivity|]. split; [exact example_rows_wf|].
  split; [exact H1|]. split; [exact H2|]. split; [exact H4|].
  apply H5. discriminate.
Defined.

(** C1, as stated, fails: [parseUrlToData] applied to the query
    string of the example rows returns text, and not a pair
    sequence. *)
Lemma parseUrlToData_of_query_string_is_text :
  query_string example_rows = js "a=2&b+c=x%26y"
  /\ parseUrlToData (js "a=2&b+c=x%26y") false
     = AString (jsq "[{'key':'a','value':'2'},{'key':'b c','value':'x&y'}]")
  /\ parseUrlToData (js "a=2&b+c=x%26y") false
     <> AnArray [ {| key := js "a"; value := js "2" |};
                  {| key := js "b c"; value := js "x&y" |} ].
Proof. split; [reflexivity|]. split; [reflexivity|discriminate]. Qed.
(** ** Query strings and the controls that keep them *)

Lemma query_unit_of_unit (s : jsstring) :
  forallb urlencoded_unit s = true -> forallb query_unit s = true.
Proof.
  induction s as [|c s IH]; [reflexivity|]. cbn [forallb].
  intros H. apply andb_true_iff in H as [Hc Hs].
  unfold query_unit at 1. rewrite Hc, (IH Hs). reflexivity.
Qed.

Lemma serialized_tuple_units (p : jsstring * jsstring) :
  wf_tuple p -> forallb query_unit (serialized_tuple p) = true.
Proof.
  intros [H1 H2]. unfold serialized_tuple.
  rewrite forallb_app. cbn [forallb].
  rewrite !query_unit_of_unit by (apply urlencode_units; assumption).
  reflexivity.
Qed.

Lemma urlencoded_serialize_units (tuples : list (jsstring * jsstring)) :
  Forall wf_tuple tuples -> forallb query_unit (urlencoded_serialize tuples) = true.
Proof.
  induction 1 as [|p r Hp Hr IH]; [reflexivity|].
  rewrite urlencoded_serialize_cons. destruct r as [|q r].
  - apply serialized_tuple_units, Hp.
  - rewrite forallb_app. cbn [forallb].
    rewrite serialized_tuple_units by exact Hp. rewrite IH. reflexivity.
Qed.






(** The query string holds no line break, so that a text control and
    a [textarea] keep it as it is. *)
Lemma strip_newlines_lacks (s : jsstring) :
  lacks 10 s -> lacks 13 s -> strip_newlines s = s.
Proof.
  induction s as [|c s IH]; [reflexivity|].
  intros [H10 Hs10]%lacks_cons [H13 Hs13]%lacks_cons.
  unfold strip_newlines in *. cbn [List.filter].
  rewrite (proj2 (N.eqb_neq c 10)), (proj2 (N.eqb_neq c 13)) by assumption.
  cbn [orb negb]. rewrite IH by assumption. reflexivity.
Qed.

Lemma normalize_newlines_lacks (s : jsstring) :
  lacks 13 s -> normalize_newlines s = s.
Proof.
  induction s as [|c s IH]; [reflexivity|].
  intros [H13 Hs13]%lacks_cons. cbn [normalize_newlines].
  rewrite (proj2 (N.eqb_neq c 13)) by assumption.
  rewrite IH by assumption. reflexivity.
Qed.

Lemma query_string_one_line (rows : list Row) :
  wf_rows rows ->
  let qs := URLSearchParams.toString (search_params_of rows) in
  strip_newlines qs = qs /\ normalize_newlines qs = qs.
Proof.
  intros Hwf qs.
  assert (H : Forall wf_tuple (search_params_of rows)).
  { eapply Forall_impl; [apply search_params_usv, Hwf | exact usv_tuple_wf]. }
  assert (H10 : lacks 10 qs) by (apply urlencoded_serialize_lacks; [exact H|lia]).
  assert (H13 : lacks 13 qs) by (apply urlencoded_serialize_lacks; [exact H|lia]).
  split; [apply strip_newlines_lacks | apply normalize_newlines_lacks];
    assumption.
Qed.



Lemma never_valid_query (tuples : list (jsstring * jsstring)) :
  never_valid (URLSearchParams.toString tuples) = true.
Proof.
  unfold never_valid. rewrite toString_includes_equals.
  destruct tuples; [reflexivity|].
  rewrite (bool_decide_eq_false_2 (_ :: _ = [])) by discriminate.
  apply orb_true_r.
Qed.

Lemma set_value_modelled (t : InputType) (s : jsstring) :
  never_valid s = true -> set_value t s <> Unmodelled.
Proof.
  intros H. destruct t as [| | | | |[|]| | | | | | | | | | | | | | | |];
    cbn [set_value]; rewrite ?H; try discriminate.
  destruct (bool_decide (s = [])); discriminate.
Qed.

Lemma set_value_throws (t : InputType) (s : jsstring) (err : JsError) :
  set_value t s = Throws err -> t = File /\ s <> [] /\ err = InvalidStateError.
Proof.
  destruct t as [| | | | |[|]| | | | | | | | | | | | | | | |];
    cbn [set_value]; try discriminate;
    try (destruct (never_valid s); discriminate).
  destruct (bool_decide_reflect (s = [])); [discriminate|].
  intros [= <-]. auto.
Qed.

(** ** Mirroring the query string *)

Lemma mirror_into_kind (qs : jsstring) (el el' : Element) :
  mirror_into qs el = Returns el' -> el_kind el' = el_kind el.
Proof.
  unfold mirror_into. destruct (el_kind el) as [t| |].
  - destruct (set_value t qs); cbn [obind]; try discriminate.
    intros [= <-]. reflexivity.
  - intros [= <-]. reflexivity.
  - intros [= <-]. reflexivity.
Qed.

Lemma mirror_into_again (qs : jsstring) (el el' : Element) :
  mirror_into qs el = Returns el' -> mirror_into qs el' = Returns el'.
Proof.
  intros H. pose proof (mirror_into_kind _ _ _ H) as Hk.
  unfold mirror_into in *. rewrite Hk. destruct (el_kind el) as [t| |].
  - destruct (set_value t qs); cbn [obind] in *; try discriminate.
    injection H as <-. reflexivity.
  - injection H as <-. reflexivity.
  - injection H as <-. reflexivity.
Qed.

Lemma mirror_into_modelled (qs : jsstring) (el : Element) :
  never_valid qs = true -> mirror_into qs el <> Unmodelled.
Proof.
  intros H. unfold mirror_into. destruct (el_kind el) as [t| |];
    try discriminate.
  pose proof (set_value_modelled t qs H).
  destruct (set_value t qs); cbn [obind]; congruence.
Qed.

Lemma mirror_into_throws (qs : jsstring) (el : Element) (err : JsError) :
  mirror_into qs el = Throws err ->
  is_file_input el = true /\ qs <> [] /\ err = InvalidStateError.
Proof.
  unfold mirror_into, is_file_input. destruct (el_kind el) as [t| |];
    try discriminate.
  destruct (set_value t qs) eqn:E; cbn [obind]; try discriminate.
  intros [= <-]. destruct (set_value_throws _ _ _ E) as (-> & Hs & ->). auto.
Qed.

(** An element that is no file control accepts a query string. *)
Lemma mirror_into_returns (qs : jsstring) (el : Element) :
  never_valid qs = true -> is_file_input el = false ->
  exists el', mirror_into qs el = Returns el'.
Proof.
  intros Hq Hf. pose proof (mirror_into_modelled qs el Hq) as Hm.
  destruct (mirror_into qs el) as [el'|err|] eqn:E; [eauto| |congruence].
  destruct (mirror_into_throws _ _ _ E) as [Hfile _]. congruence.
Qed.

Lemma written_returns (qs : jsstring) (el el' : Element) :
  mirror_into qs el = Returns el' -> written qs el = el'.
Proof. intros H. unfold written. rewrite H. reflexivity. Qed.

Lemma written_kind (qs : jsstring) (el : Element) :
  el_kind (written qs el) = el_kind el.
Proof.
  unfold written. destruct (mirror_into qs el) eqn:E; try reflexivity.
  exact (mirror_into_kind _ _ _ E).
Qed.


(** One step of the loop on an element outside the table. *)
Lemma mirror_outside (qs : jsstring) (j : nat) (e : Editor) :
  mirror qs (InDocument j) e =
  match document e !! j with
  | Some el =>
      match mirror_into qs el with
      | Returns el' =>
          (Returns tt, with_document (alter (written qs) j (document e)) e)
      | Throws err => (Throws err, e)
      | Unmodelled => (Unmodelled, e)
      end
  | None => (Returns tt, e)
  end.
Proof.
  unfold mirror, bind, get, lift, modify, ret.
  destruct (document e !! j) as [el|] eqn:Hj; [|reflexivity].
  destruct (mirror_into qs el) as [el'| |] eqn:E; try reflexivity.
  f_equal. f_equal. apply list_eq. intros k.
  destruct (decide (j = k)) as [<-|Hne].
  - rewrite list_lookup_alter_eq, Hj.
    rewrite list_lookup_insert_eq by (eapply lookup_lt_Some; exact Hj).
    cbn. rewrite (written_returns _ _ _ E). reflexivity.
  - rewrite list_lookup_alter_ne, list_lookup_insert_ne by exact Hne.
    reflexivity.
Qed.

Lemma with_document_same (e : Editor) : with_document (document e) e = e.
Proof. destruct e. reflexivity. Qed.

(** The loop on elements outside the table changes these elements
    only, whatever its outcome. *)
Lemma forEach_mirror_frame (qs : jsstring) (els : list ElementRef) (e : Editor) :
  Forall outside_table els ->
  exists o d,
    forEach els (mirror qs) e = (o, with_document d e)
    /\ List.length d = List.length (document e).
Proof.
  intros H. revert e. induction H as [|r els Hr _ IH]; intros e.
  { exists (Returns tt), (document e). rewrite with_document_same. auto. }
  destruct r as [| |j|]; try contradiction.
  cbn [forEach]. unfold bind. rewrite mirror_outside.
  destruct (document e !! j) as [el|].
  - destruct (mirror_into qs el) as [el'|err|].
    + destruct (IH (with_document (alter (written qs) j (document e)) e))
        as (o & d & Hd & Hlen).
      exists o, d. split; [exact Hd|]. rewrite Hlen. cbn. apply length_alter.
    + exists (Throws err), (document e). rewrite with_document_same. auto.
    + exists Unmodelled, (document e). rewrite with_document_same. auto.
  - apply IH.
Qed.

Lemma forEach_mirror_modelled (qs : jsstring) (els : list ElementRef)
  (e : Editor) :
  never_valid qs = true -> Forall outside_table els ->
  (forEach els (mirror qs) e).1 <> Unmodelled.
Proof.
  intros Hq H. revert e. induction H as [|r els Hr _ IH]; intros e;
    [discriminate|].
  destruct r as [| |j|]; try contradiction.
  cbn [forEach]. unfold bind. rewrite mirror_outside.
  destruct (document e !! j) as [el|]; [|apply IH].
  pose proof (mirror_into_modelled qs el Hq).
  destruct (mirror_into qs el); [apply IH|discriminate|congruence].
Qed.

Lemma alter_absent {A} (f : A -> A) (j : nat) (d : list A) :
  d !! j = None -> alter f j d = d.
Proof.
  intros Hj. apply list_eq. intros k. destruct (decide (j = k)) as [<-|Hne].
  - rewrite list_lookup_alter_eq, Hj. reflexivity.
  - apply list_lookup_alter_ne, Hne.
Qed.



(** The loop returns when no matched element is a file control. *)
Lemma forEach_mirror_returns (qs : jsstring) (els : list ElementRef)
  (e : Editor) :
  never_valid qs = true -> Forall outside_table els ->
  (forall j el, InDocument j ∈ els -> document e !! j = Some el ->
                is_file_input el = false) ->
  forEach els (mirror qs) e
  = (Returns tt, with_document (written_all qs els (document e)) e).
Proof.
  intros Hq H. revert e. induction H as [|r els Hr _ IH]; intros e Hf.
  { cbn. rewrite with_document_same. reflexivity. }
  destruct r as [| |j|]; try contradiction.
  cbn [forEach]. unfold bind. rewrite mirror_outside.
  unfold written_all. cbn [fold_left]. fold (written_all qs els).
  destruct (document e !! j) as [el|] eqn:Hj.
  - destruct (mirror_into_returns qs el Hq (Hf j el ltac:(left) Hj))
      as [el' ->].
    rewrite IH; [reflexivity|]. cbn [document with_document].
    intros k x Hk Hx.
    destruct (decide (j = k)) as [<-|Hne].
    + rewrite list_lookup_alter_eq, Hj in Hx. injection Hx as <-.
      unfold is_file_input. rewrite written_kind.
      exact (Hf j el ltac:(left) Hj).
    + rewrite list_lookup_alter_ne in Hx by exact Hne.
      apply (Hf k x); [right; exact Hk|exact Hx].
  - rewrite IH by (intros k x Hk Hx; apply (Hf k x); [right; exact Hk|exact Hx]).
    rewrite (alter_absent _ _ _ Hj). reflexivity.
Qed.

(** The loop keeps the attributes, the headers and the number of
    rows, whatever it matches. *)
Lemma mirror_fields (qs : jsstring) (r : ElementRef) (e e' : Editor)
  (o : Outcome unit) :
  mirror qs r e = (o, e') ->
  attributes e' = attributes e /\ _initialized e' = _initialized e
  /\ th_key e' = th_key e /\ th_value e' = th_value e
  /\ btnAdd e' = btnAdd e
  /\ List.length (tbody e') = List.length (tbody e).
Proof.
  destruct r as [i|i|j|].
  - cbn [mirror modify]. intros [= _ <-]. cbn. rewrite length_alter. repeat split.
  - cbn [mirror modify]. intros [= _ <-]. cbn. rewrite length_alter. repeat split.
  - rewrite mirror_outside. destruct (document e !! j) as [el|].
    + destruct (mirror_into qs el); intros [= _ <-]; cbn; repeat split.
    + intros [= _ <-]. repeat split.
  - cbn [mirror lift]. intros [= _ <-]. repeat split.
Qed.

Lemma forEach_mirror_fields (qs : jsstring) (els : list ElementRef)
  (e e' : Editor) (o : Outcome unit) :
  forEach els (mirror qs) e = (o, e') ->
  attributes e' = attributes e /\ _initialized e' = _initialized e
  /\ th_key e' = th_key e /\ th_value e' = th_value e
  /\ btnAdd e' = btnAdd e
  /\ List.length (tbody e') = List.length (tbody e).
Proof.
  revert e. induction els as [|r els IH]; intros e.
  { cbn. intros [= _ <-]. repeat split. }
  cbn [forEach]. unfold bind.
  destruct (mirror qs r e) as [o1 e1] eqn:E1.
  destruct (mirror_fields _ _ _ _ _ E1) as (A1 & A2 & A3 & A4 & A5 & A6).
  destruct o1.
  - intros H. destruct (IH _ H) as (B1 & B2 & B3 & B4 & B5 & B6).
    repeat split; congruence.
  - intros [= _ <-]. repeat split; assumption.
  - intros [= _ <-]. repeat split; assumption.
Qed.




Lemma no_file_input_nil (d : list Element) : no_file_input [] d.
Proof. intros j el H. inversion H. Qed.

(** An element that the assignment leaves as it is stays so through
    the loop. *)
Lemma forEach_mirror_settled (qs : jsstring) (els : list ElementRef)
  (e e1 : Editor) (o : Outcome unit) :
  Forall outside_table els -> forEach els (mirror qs) e = (o, e1) ->
  forall j el, document e !! j = Some el -> mirror_into qs el = Returns el ->
               document e1 !! j = Some el.
Proof.
  intros H. revert e. induction H as [|r els Hr _ IH]; intros e.
  { intros [= _ <-]. auto. }
  destruct r as [| |k|]; try contradiction.
  cbn [forEach]. unfold bind. rewrite mirror_outside.
  destruct (document e !! k) as [x|] eqn:Hk; [|apply IH].
  destruct (mirror_into qs x) as [x'|err|] eqn:Ex.
  - intros Hrun j el Hj Hel. apply (IH _ Hrun). 2: exact Hel.
    cbn [document with_document].
    destruct (decide (k = j)) as [<-|Hne].
    + rewrite list_lookup_alter_eq, Hj. cbn.
      rewrite (written_returns _ _ _ Hel). reflexivity.
    + rewrite list_lookup_alter_ne by exact Hne. exact Hj.
  - intros [= _ <-]. auto.
  - intros [= _ <-]. auto.
Qed.

(** The loop run again, on the state it has left, has the same outcome
    and changes nothing. *)
Lemma forEach_mirror_again (qs : jsstring) (els : list ElementRef)
  (e e1 : Editor) (o : Outcome unit) :
  Forall outside_table els -> forEach els (mirror qs) e = (o, e1) ->
  forEach els (mirror qs) e1 = (o, e1).
Proof.
  intros H. revert e. induction H as [|r els Hr Hels IH]; intros e.
  { intros [= <- <-]. reflexivity. }
  destruct r as [| |k|]; try contradiction.
  cbn [forEach]. unfold bind. rewrite !mirror_outside.
  destruct (document e !! k) as [x|] eqn:Hk.
  - destruct (mirror_into qs x) as [x'|err|] eqn:Ex.
    + intros Hrun.
      assert (Hx : document e1 !! k = Some x').
      { apply (forEach_mirror_settled _ _ _ _ _ Hels Hrun).
        - cbn [document with_document].
          rewrite list_lookup_alter_eq, Hk. cbn.
          rewrite (written_returns _ _ _ Ex). reflexivity.
        - exact (mirror_into_again _ _ _ Ex). }
      rewrite Hx, (mirror_into_again _ _ _ Ex).
      assert (Hsame : alter (written qs) k (document e1) = document e1).
      { apply list_eq. intros j. destruct (decide (k = j)) as [<-|Hne].
        - rewrite list_lookup_alter_eq, Hx. cbn.
          rewrite (written_returns _ _ _ (mirror_into_again _ _ _ Ex)).
          reflexivity.
        - apply list_lookup_alter_ne, Hne. }
      rewrite Hsame, with_document_same. exact (IH _ Hrun).
    + intros [= <- <-]. rewrite Hk, Ex. reflexivity.
    + intros [= <- <-]. rewrite Hk, Ex. reflexivity.
  - intros Hrun.
    destruct (forEach_mirror_frame qs els e Hels) as (o' & d & Hd & Hlen).
    rewrite Hd in Hrun. injection Hrun as -> <-.
    cbn [document with_document].
    assert (Hnone : d !! k = None).
    { apply lookup_ge_None. rewrite Hlen. apply lookup_ge_None, Hk. }
    rewrite Hnone. apply (IH e). exact Hd.
Qed.

Section Mirroring.

Variable querySelectorAll : Editor -> jsstring -> option (list ElementRef).

Lemma updateQuery_initialized (e : Editor) :
  _initialized e = true ->
  updateQuery querySelectorAll e =
  let qs := URLSearchParams.toString (search_params_of (tbody e)) in
  match target (attributes e) with
  | Some (c :: r) =>
      match querySelectorAll e (c :: r) with
      | Some els => forEach els (mirror qs) e
      | None => (Throws SyntaxError, e)
      end
  | _ => (Returns tt, e)
  end.
Proof.
  intros Hi. unfold updateQuery, bind.
  rewrite _getSearchParams_initialized by exact Hi.
  unfold getAttribute, bind, get, ret. cbn [attribute_of].
  destruct (target (attributes e)) as [[|c r]|]; try reflexivity.
  destruct (querySelectorAll e (c :: r)); reflexivity.
Qed.

Lemma updateQuery_uninitialized (e : Editor) :
  _initialized e = false ->
  updateQuery querySelectorAll e = (Throws TypeError, e).
Proof.
  intros Hi. unfold updateQuery, _getSearchParams, bind.
  rewrite this_tbody_uninitialized by exact Hi. reflexivity.
Qed.

(** [updateQuery] keeps the attributes, the headers and the number of
    rows. *)
Lemma updateQuery_fields (e e' : Editor) (o : Outcome unit) :
  updateQuery querySelectorAll e = (o, e') ->
  attributes e' = attributes e /\ _initialized e' = _initialized e
  /\ th_key e' = th_key e /\ th_value e' = th_value e
  /\ btnAdd e' = btnAdd e
  /\ List.length (tbody e') = List.length (tbody e).
Proof.
  destruct (bool_decide_reflect (_initialized e = true))
    as [Hi|Hi%not_true_is_false].
  2:{ rewrite updateQuery_uninitialized by exact Hi. intros [= _ <-].
      repeat split. }
  rewrite updateQuery_initialized by exact Hi. cbv zeta.
  destruct (target (attributes e)) as [[|c r]|].
  - intros [= _ <-]. repeat split.
  - destruct (querySelectorAll e (c :: r)) as [els|].
    + intros H. exact (forEach_mirror_fields _ _ _ _ _ H).
    + intros [= _ <-]. repeat split.
  - intros [= _ <-]. repeat split.
Qed.

(** With a target that matches outside elements only, [updateQuery]
    changes these elements and nothing else, whatever its outcome. *)
Lemma updateQuery_outside (e : Editor) :
  (forall sel els,
     target (attributes e) = Some sel -> querySelectorAll e sel = Some els ->
     Forall outside_table els) ->
  exists o d,
    updateQuery querySelectorAll e = (o, with_document d e)
    /\ o <> Unmodelled
    /\ List.length d = List.length (document e).
Proof.
  intros Hout. destruct (_initialized e) eqn:Hi.
  2:{ rewrite updateQuery_uninitialized by exact Hi.
      exists (Throws TypeError), (document e). rewrite with_document_same.
      repeat split. discriminate. }
  rewrite updateQuery_initialized by exact Hi. cbv zeta.
  destruct (target (attributes e)) as [[|c r]|] eqn:Ht;
    try (exists (Returns tt), (document e); rewrite with_document_same;
         repeat split; discriminate).
  destruct (querySelectorAll e (c :: r)) as [els|] eqn:Hq.
  - pose proof (Hout _ _ eq_refl Hq) as Hels.
    destruct (forEach_mirror_frame
                (URLSearchParams.toString (search_params_of (tbody e)))
                els e Hels) as (o & d & Hd & Hlen).
    exists o, d. split; [exact Hd|]. split; [|exact Hlen].
    pose proof (forEach_mirror_modelled
                  (URLSearchParams.toString (search_params_of (tbody e)))
                  els e (never_valid_query _) Hels) as Hm.
    rewrite Hd in Hm. exact Hm.
  - exists (Throws SyntaxError), (document e). rewrite with_document_same.
    repeat split. discriminate.
Qed.

(** When the matched elements are outside the table and none is a file
    control, [updateQuery] returns and has written to each. *)
Lemma updateQuery_writes (e : Editor) (els : list ElementRef) :
  _initialized e = true -> matches querySelectorAll e els ->
  Forall outside_table els ->
  no_file_input els (document e) ->
  updateQuery querySelectorAll e
  = (Returns tt,
     with_document (written_all (query_string (tbody e)) els (document e)) e).
Proof.
  intros Hi Hm Hels Hf. rewrite updateQuery_initialized by exact Hi. cbv zeta.
  unfold matches in Hm.
  destruct (target (attributes e)) as [[|c r]|];
    try (subst els; cbn; rewrite with_document_same; reflexivity).
  rewrite Hm. apply forEach_mirror_returns;
    [apply never_valid_query | exact Hels | exact Hf].
Qed.

End Mirroring.

(** ** Bulk replacement and the target *)

Section MirrorClaims.

Variable querySelectorAll : Editor -> jsstring -> option (list ElementRef).

(** C9: when [setParams] is given an argument that is not an array it
    throws before any mutation: the editor, its rows and the
    elements of the document are as they were. *)
Theorem setParams_rejects_before_any_change (data : JsVal) (append : bool)
  (e : Editor) :
  data <> VUndefined -> Array_isArray data = false ->
  setParams querySelectorAll data append e
  = (Throws (Error (js "data must be an array")), e).
Proof.
  intros Hu Ha. unfold setParams.
  destruct data; try congruence; try discriminate; reflexivity.
Qed.

(** C6, as amended: when the target selector matches only elements
    outside the editor's table, [setParams([], true)] leaves every
    existing row unchanged and adds no row, whether the call returns
    or throws. *)
Theorem setParams_append_nothing (e : Editor) :
  (forall sel els,
     target (attributes e) = Some sel -> querySelectorAll e sel = Some els ->
     Forall outside_table els) ->
  exists o e',
    setParams querySelectorAll (VArr []) true e = (o, e')
    /\ o <> Unmodelled
    /\ tbody e' = tbody e.
Proof.
  intros Hout. unfold setParams. cbn [Array_isArray negb elements_of forEach].
  change (bind (ret tt) (fun _ => updateQuery querySelectorAll) e)
    with (updateQuery querySelectorAll e).
  destruct (updateQuery_outside querySelectorAll e Hout) as (o & d & -> & Ho & _).
  exists o, (with_document d e). repeat split. exact Ho.
Qed.


End MirrorClaims.

Lemma setParams_rejects_before_any_change_witness :
  VNull <> VUndefined /\ Array_isArray VNull = false
  /\ setParams example_page VNull false
       (rendered (with_target (js ".out")) example_rows example_document)
     = (Throws (Error (js "data must be an array")),
        rendered (with_target (js ".out")) example_rows example_document).
Proof.
  split; [discriminate|]. split; [reflexivity|].
  apply (setParams_rejects_before_any_change example_page VNull false);
    [discriminate | reflexivity].
Defined.

Lemma example_page_out (e : Editor) (sel : jsstring) (els : list ElementRef) :
  target (attributes (rendered (with_target (js ".out")) example_rows
                        example_document)) = Some sel ->
  example_page e sel = Some els -> Forall outside_table els.
Proof.
  intros [= <-]. intros [= <-]. repeat constructor.
Qed.

Lemma setParams_append_nothing_witness :
  (forall sel els,
     target (attributes (rendered (with_target (js ".out")) example_rows
                           example_document)) = Some sel ->
     example_page (rendered (with_target (js ".out")) example_rows
                     example_document) sel = Some els ->
     Forall outside_table els)
  /\ exists o e',
       setParams example_page (VArr []) true
         (rendered (with_target (js ".out")) example_rows example_document)
       = (o, e')
       /\ o <> Unmodelled
       /\ tbody e' = example_rows.
Proof.
  split; [apply example_page_out|].
  apply (setParams_append_nothing example_page
           (rendered (with_target (js ".out")) example_rows example_document)).
  apply example_page_out.
Defined.

(** C6, as stated, fails: when the target selector matches the inputs
    of the editor's rows, [setParams([], true)] overwrites them with
    the query string. *)
Lemma setParams_append_overwrites_own_inputs :
  setParams example_page (VArr []) true
    (rendered (with_target (js "input")) [row_of (js "a") (js "1")]
       example_document)
  = (Returns tt,
     rendered (with_target (js "input")) [row_of (js "a=1") (js "a=1")]
       [ {| el_kind := HTMLInputElement Text; el_value := js "a=1";
            el_textContent := [] |}; output_area; output_span ])
  /\ [row_of (js "a=1") (js "a=1")] <> [row_of (js "a") (js "1")].
Proof. split; [vm_compute; reflexivity | discriminate]. Qed.



(** With a file control as the target the call throws, and the rows
    are as they were. *)
Example appending_nothing_throws :
  setParams typed_page (VArr []) true
    (rendered (with_target (js ".file")) example_rows typed_document)
  = (Throws InvalidStateError,
     rendered (with_target (js ".file")) example_rows typed_document).
Proof. reflexivity. Qed.


(** The three kinds of element, after the target is set. *)
Example target_change_example :
  (setAttribute example_page Target (js ".out")
     (rendered no_attributes example_rows example_document)).2.(document)
  = [ {| el_kind := HTMLInputElement Text; el_value := js "a=2&b+c=x%26y";
         el_textContent := [] |};
      {| el_kind := HTMLTextAreaElement; el_value := js "a=2&b+c=x%26y";
         el_textContent := [] |};
      {| el_kind := OtherElement; el_value := [];
         el_textContent := js "a=2&b+c=x%26y" |} ].
Proof. reflexivity. Qed.

(** ** [parseUrlToData] *)

Lemma to_usv_cons_plain (c : N) (s : jsstring) :
  c < 55296 -> to_usv (c :: s) = c :: to_usv s.
Proof.
  intros Hc. unfold to_usv. rewrite utf16_decode_cons.
  unfold is_high, is_low. rewrite !in_range_false by lia.
  unfold utf16_encode. cbn [flat_map]. unfold utf16_encode_cp at 1.
  rewrite (proj2 (N.ltb_lt c 65536)) by lia. reflexivity.
Qed.

Lemma includes_app_cons (pre q : jsstring) (c : N) :
  includes (pre ++ c :: q) c = true.
Proof. apply existsb_sep_app. Qed.

Lemma indexOf_app_cons (pre q : jsstring) (c : N) :
  lacks c pre -> indexOf (pre ++ c :: q) c = Z.of_nat (List.length pre).
Proof.
  induction pre as [|d pre IH].
  - intros _. cbn [app indexOf]. rewrite N.eqb_refl. reflexivity.
  - intros [Hd Hpre]%lacks_cons. cbn [app indexOf].
    rewrite (proj2 (N.eqb_neq d c)) by assumption. rewrite IH by assumption.
    cbn [List.length]. rewrite Nat2Z.inj_succ.
    pose proof (Nat2Z.is_nonneg (List.length pre)) as Hnn.
    destruct (Z.of_nat (List.length pre)); lia.
Qed.

Lemma slice_app_cons (pre q : jsstring) (c : N) :
  slice (pre ++ c :: q) (Z.of_nat (List.length pre)) = c :: q.
Proof.
  unfold slice. rewrite (proj2 (Z.ltb_ge _ 0)) by lia.
  rewrite Z.min_l by (rewrite length_app; lia).
  rewrite Nat2Z.id, drop_app_length. reflexivity.
Qed.

Lemma of_string_question_mark (q : jsstring) :
  URLSearchParams.of_string (63 :: q) = urlencoded_parse (to_usv q).
Proof.
  unfold URLSearchParams.of_string. rewrite to_usv_cons_plain by lia.
  reflexivity.
Qed.

Lemma parseUrlToData_query (input : jsstring) (asArray : bool) :
  includes input 63 = false -> includes input 61 = true ->
  parseUrlToData input asArray =
  if asArray then AnArray (query_pairs input)
  else AString (JSON_stringify (query_pairs input)).
Proof.
  intros H1 H2. unfold parseUrlToData. rewrite H1, H2. cbn [app].
  rewrite of_string_question_mark. reflexivity.
Qed.

Lemma parseUrlToData_url (pre q : jsstring) (asArray : bool) :
  lacks 63 pre ->
  parseUrlToData (pre ++ 63 :: q) asArray =
  if asArray then AnArray (query_pairs q)
  else AString (JSON_stringify (query_pairs q)).
Proof.
  intros Hpre. unfold parseUrlToData.
  rewrite includes_app_cons, indexOf_app_cons, slice_app_cons by exact Hpre.
  rewrite of_string_question_mark. reflexivity.
Qed.

(** C2, as stated, fails: on an input without parameters the code
    returns the text of an empty array, in either mode, and not an
    empty sequence; by default it returns the JSON text of the pairs
    and not the pairs. *)
Lemma parseUrlToData_returns_text :
  parseUrlToData (js "no-params-here") false <> AnArray []
  /\ parseUrlToData (js "no-params-here") true <> AnArray []
  /\ parseUrlToData (js "a=1&b=2") false
     <> AnArray [ {| key := js "a"; value := js "1" |};
                  {| key := js "b"; value := js "2" |} ].
Proof. repeat split; discriminate. Qed.

(** C2, as amended: by default [parseUrlToData] returns the JSON text
    of the parsed ordered sequence of pairs, and with [asArray] the
    sequence itself, for a bare query string (with or without its
    question mark) and for a URL (what precedes the first question
    mark is ignored); on an input with neither a question mark nor an
    equals sign the default result is the text of the empty array. *)
Theorem parseUrlToData_text_or_array (input : jsstring) :
  (includes input 63 = false -> includes input 61 = false ->
   parseUrlToData input false = AString (JSON_stringify []))
  /\ (includes input 63 = false -> includes input 61 = true ->
      parseUrlToData input true = AnArray (query_pairs input)
      /\ parseUrlToData input false
         = AString (JSON_stringify (query_pairs input))
      /\ forall asArray,
           parseUrlToData (63 :: input) asArray = parseUrlToData input asArray)
  /\ (forall pre q,
        input = pre ++ 63 :: q -> lacks 63 pre ->
        parseUrlToData input true = AnArray (query_pairs q)
        /\ parseUrlToData input false
           = AString (JSON_stringify (query_pairs q))).
Proof.
  split; [|split].
  - intros H1 H2. unfold parseUrlToData. rewrite H1, H2. reflexivity.
  - intros H1 H2. split; [|split].
    + apply (parseUrlToData_query input true H1 H2).
    + apply (parseUrlToData_query input false H1 H2).
    + intros asArray. rewrite (parseUrlToData_query input asArray H1 H2).
      apply (parseUrlToData_url [] input asArray). reflexivity.
  - intros pre q -> Hpre. split.
    + apply (parseUrlToData_url pre q true Hpre).
    + apply (parseUrlToData_url pre q false Hpre).
Qed.

Lemma parseUrlToData_text_or_array_witness :
  includes (js "a=1&b=2") 63 = false /\ includes (js "a=1&b=2") 61 = true
  /\ parseUrlToData (js "a=1&b=2") true
     = AnArray [ {| key := js "a"; value := js "1" |};
                 {| key := js "b"; value := js "2" |} ]
  /\ parseUrlToData (js "a=1&b=2") false
     = AString (jsq "[{'key':'a','value':'1'},{'key':'b','value':'2'}]")
  /\ parseUrlToData (js "?a=1&b=2") true = parseUrlToData (js "a=1&b=2") true.
Proof.
  split; [reflexivity|]. split; [reflexivity|].
  destruct (parseUrlToData_text_or_array (js "a=1&b=2")) as (_ & H & _).
  destruct (H eq_refl eq_refl) as (H1 & H2 & H3).
  split; [rewrite H1; vm_compute; reflexivity|].
  split; [rewrite H2; vm_compute; reflexivity|].
  apply (H3 true).
Defined.

(** The examples of the specification. *)
Example parseUrlToData_examples :
  parseUrlToData (js "https://example.com?a=1&b=2") true
  = AnArray [ {| key := js "a"; value := js "1" |};
              {| key := js "b"; value := js "2" |} ]
  /\ parseUrlToData (js "https://example.com?a=1&b=2") false
     = AString (jsq "[{'key':'a','value':'1'},{'key':'b','value':'2'}]")
  /\ parseUrlToData (js "no-params-here") false = AString (js "[]")
  /\ parseUrlToData (js "no-params-here") true = AString (js "[]")
  /\ parseUrlToData (js "a=1&b=2") true
     = AnArray [ {| key := js "a"; value := js "1" |};
                 {| key := js "b"; value := js "2" |} ].
Proof. repeat split; reflexivity. Qed.

(** ** The markup of a row *)

Lemma normalize_newlines_cons (c : N) (r : jsstring) :
  normalize_newlines (c :: r) =
  if c =? 13 then
    match r with
    | 10 :: _ => normalize_newlines r
    | _ => 10 :: normalize_newlines r
    end
  else c :: normalize_newlines r.
Proof. reflexivity. Qed.

Lemma match_lf {A} (r : jsstring) (x y : A) :
  match r with 10 :: _ => x | _ => y end = if starts_with_lf r then x else y.
Proof.
  destruct r as [|d r]; [reflexivity|]. destruct d as [|p]; [reflexivity|].
  cbn [starts_with_lf].
  repeat (destruct p as [p|p|]; try reflexivity).
Qed.

Lemma normalize_newlines_cons' (c : N) (r : jsstring) :
  normalize_newlines (c :: r) =
  if c =? 13 then
    if starts_with_lf r then normalize_newlines r
    else 10 :: normalize_newlines r
  else c :: normalize_newlines r.
Proof. rewrite normalize_newlines_cons, match_lf. reflexivity. Qed.

Lemma normalize_newlines_app (a b : jsstring) :
  starts_with_lf b = false ->
  normalize_newlines (a ++ b) = normalize_newlines a ++ normalize_newlines b.
Proof.
  intros Hb. induction a as [|c a IH]; [reflexivity|].
  cbn [app]. rewrite !normalize_newlines_cons', IH.
  destruct (c =? 13); [|reflexivity].
  destruct a as [|d a]; cbn [app starts_with_lf].
  - rewrite Hb. reflexivity.
  - destruct (d =? 10); reflexivity.
Qed.

Lemma normalize_newlines_lacks_any (sep : N) (s : jsstring) :
  sep <> 10 -> lacks sep s -> lacks sep (normalize_newlines s).
Proof.
  intros Hsep. induction s as [|c s IH]; [intros _; reflexivity|].
  intros [Hc Hs]%lacks_cons. rewrite normalize_newlines_cons'.
  destruct (c =? 13).
  - destruct (starts_with_lf s); [exact (IH Hs)|].
    apply lacks_cons. split; [congruence | exact (IH Hs)].
  - apply lacks_cons. split; [exact Hc | exact (IH Hs)].
Qed.

Lemma normalize_plain (s : jsstring) : plain s -> plain (normalize_newlines s).
Proof.
  intros [H1 H2].
  split; apply normalize_newlines_lacks_any; try assumption; discriminate.
Qed.

(** In a double-quoted attribute value, a plain string is appended to
    the value. *)
Lemma tokenize_plain (s rest : jsstring) (attrs : list (jsstring * jsstring))
  (n v : jsstring) :
  plain s ->
  tokenize_tag {| tok_state := AttributeValueDoubleQuoted;
                  tok_attributes := attrs; tok_current := Some (n, v) |}
               (s ++ rest)
  = tokenize_tag {| tok_state := AttributeValueDoubleQuoted;
                    tok_attributes := attrs;
                    tok_current := Some (n, v ++ List.map value_char s) |}
                 rest.
Proof.
  intros [H34 H38]. revert v.
  induction s as [|c s IH]; intros v.
  - cbn [List.map app]. rewrite app_nil_r. reflexivity.
  - apply lacks_cons in H34 as [Hc34 Hs34].
    apply lacks_cons in H38 as [Hc38 Hs38].
    cbn [app tokenize_tag]. unfold tokenizer_step.
    cbn [tok_state tok_attributes tok_current].
    rewrite (proj2 (N.eqb_neq c 34)), (proj2 (N.eqb_neq c 38)) by assumption.
    unfold append_value, in_state. cbn [tok_current tok_attributes].
    rewrite (IH Hs34 Hs38). cbn [List.map]. rewrite <- app_assoc.
    reflexivity.
Qed.

(** Between the placeholder and the value of the template. *)
Lemma tokenize_value_attr (ph rest : jsstring) :
  tokenize_tag {| tok_state := AttributeValueDoubleQuoted;
                  tok_attributes :=
                    [(js "class", js "form-control form-control-sm")];
                  tok_current := Some (js "placeholder", ph) |}
               (value_attr ++ rest)
  = tokenize_tag {| tok_state := AttributeValueDoubleQuoted;
                    tok_attributes :=
                      [(js "class", js "form-control form-control-sm");
                       (js "placeholder", ph)];
                    tok_current := Some (js "value", []) |}
                 rest.
Proof. reflexivity. Qed.

(** The end of an [input] tag of the template. *)
Lemma tokenize_end_of_tag (ph v rest : jsstring) :
  tokenize_tag {| tok_state := AttributeValueDoubleQuoted;
                  tok_attributes :=
                    [(js "class", js "form-control form-control-sm");
                     (js "placeholder", ph)];
                  tok_current := Some (js "value", v) |}
               (34 :: 62 :: rest)
  = Returns ([(js "class", js "form-control form-control-sm");
              (js "placeholder", ph); (js "value", v)], rest).
Proof. reflexivity. Qed.

Lemma tokenize_template_input (ph v rest : jsstring) :
  plain ph -> plain v ->
  tokenize_tag in_placeholder (ph ++ value_attr ++ v ++ 34 :: 62 :: rest)
  = Returns ([(js "class", js "form-control form-control-sm");
              (js "placeholder", List.map value_char ph);
              (js "value", List.map value_char v)], rest).
Proof.
  intros Hph Hv. unfold in_placeholder.
  rewrite tokenize_plain by exact Hph. cbn [app].
  rewrite tokenize_value_attr, tokenize_plain by exact Hv. cbn [app].
  apply tokenize_end_of_tag.
Qed.

Lemma strip_prefix_app (p s : jsstring) : strip_prefix p (p ++ s) = Some s.
Proof.
  unfold strip_prefix. rewrite take_app_length, drop_app_length.
  rewrite bool_decide_eq_true_2 by reflexivity. reflexivity.
Qed.

Lemma row_next_split : row_next = 34 :: 62 :: after_first_input.
Proof. reflexivity. Qed.

Lemma row_close_split : row_close = 34 :: 62 :: after_second_input.
Proof. reflexivity. Qed.

Lemma normalize_row_html (kph key vph val : jsstring) :
  normalize_newlines (row_html kph key vph val)
  = row_html (normalize_newlines kph) (normalize_newlines key)
             (normalize_newlines vph) (normalize_newlines val).
Proof.
  unfold row_html.
  assert (Hopen : forall x, normalize_newlines (row_open ++ x)
                            = row_open ++ normalize_newlines x)
    by reflexivity.
  assert (Hvalue : forall x, normalize_newlines (value_attr ++ x)
                             = value_attr ++ normalize_newlines x)
    by reflexivity.
  assert (Hnext : forall x, normalize_newlines (row_next ++ x)
                            = row_next ++ normalize_newlines x)
    by reflexivity.
  assert (Hclose : normalize_newlines row_close = row_close) by reflexivity.
  assert (Hq : forall s p x, (exists t, p = 34 :: t) ->
             normalize_newlines (s ++ p ++ x)
             = normalize_newlines s ++ normalize_newlines (p ++ x)).
  { intros s p x [t ->]. apply normalize_newlines_app. reflexivity. }
  rewrite Hopen, (Hq kph value_attr) by (eexists; reflexivity).
  rewrite Hvalue, (Hq key row_next) by (eexists; reflexivity).
  rewrite Hnext, (Hq vph value_attr) by (eexists; reflexivity).
  rewrite Hvalue.
  rewrite (normalize_newlines_app val row_close) by reflexivity.
  rewrite Hclose. reflexivity.
Qed.

(** With plain strings the markup of [addRow] gives the row of the
    template: its placeholders and values are the strings, with the
    line breaks of a value removed. *)
Lemma parse_row_plain (kph key vph val : jsstring) :
  plain kph -> plain key -> plain vph -> plain val ->
  parse_row (row_html kph key vph val)
  = Returns {| key_input :=
                 {| placeholder := attribute_text kph;
                    input_value := strip_newlines (attribute_text key) |};
               value_input :=
                 {| placeholder := attribute_text vph;
                    input_value := strip_newlines (attribute_text val) |} |}.
Proof.
  intros Hk%normalize_plain Hkey%normalize_plain
         Hv%normalize_plain Hval%normalize_plain.
  unfold parse_row. rewrite normalize_row_html. unfold row_html.
  rewrite strip_prefix_app, row_next_split, row_close_split. cbn [app].
  rewrite tokenize_template_input by assumption. cbn [obind].
  rewrite strip_prefix_app.
  rewrite tokenize_template_input by assumption. cbn [obind].
  rewrite bool_decide_eq_true_2 by reflexivity. reflexivity.
Qed.

(** ** Adding rows *)

Lemma addRow_eq (key val : JsVal) (e : Editor) :
  addRow key val e =
  match ToString (default_empty key) with
  | Returns key_s =>
      match ToString (default_empty val) with
      | Returns val_s =>
          match parse_row (row_html (key_placeholder e) key_s
                                    (value_placeholder e) val_s) with
          | Returns tr =>
              if _initialized e
              then (Returns tt, with_tbody (tbody e ++ [tr]) e)
              else (Throws TypeError, e)
          | Throws err => (Throws err, e)
          | Unmodelled => (Unmodelled, e)
          end
      | Throws err => (Throws err, e)
      | Unmodelled => (Unmodelled, e)
      end
  | Throws err => (Throws err, e)
  | Unmodelled => (Unmodelled, e)
  end.
Proof.
  unfold addRow, bind, getAttribute, get, ret, lift, bind.
  fold (default_empty key). fold (default_empty val).
  cbn [attribute_of]. fold (key_placeholder e). fold (value_placeholder e).
  destruct (ToString (default_empty key)); try reflexivity.
  destruct (ToString (default_empty val)); try reflexivity.
  destruct (parse_row _); try reflexivity.
  unfold this_tbody, bind, get. destruct (_initialized e); reflexivity.
Qed.

(** [addRow] appends one row, or leaves the editor as it was. *)
Lemma addRow_frame (key val : JsVal) (e : Editor) :
  (exists tr, _initialized e = true
              /\ addRow key val e = (Returns tt, with_tbody (tbody e ++ [tr]) e))
  \/ (exists o, o <> Returns tt /\ addRow key val e = (o, e)).
Proof.
  rewrite addRow_eq.
  destruct (ToString (default_empty key));
    try (right; eexists; split; [|reflexivity]; discriminate).
  destruct (ToString (default_empty val));
    try (right; eexists; split; [|reflexivity]; discriminate).
  destruct (parse_row _) as [tr| |];
    try (right; eexists; split; [|reflexivity]; discriminate).
  destruct (_initialized e).
  - left. exists tr. split; reflexivity.
  - right. eexists; split; [|reflexivity]; discriminate.
Qed.

Lemma addRow_plain (k v : jsstring) (e : Editor) :
  _initialized e = true -> plain_labels e -> plain k -> plain v ->
  addRow (VStr k) (VStr v) e
  = (Returns tt, with_tbody (tbody e ++ [plain_row e k v]) e).
Proof.
  intros Hi [Hkp Hvp] Hk Hv. rewrite addRow_eq. cbn [default_empty ToString].
  rewrite parse_row_plain by assumption. rewrite Hi. reflexivity.
Qed.

Lemma plain_nil : plain [].
Proof. split; reflexivity. Qed.

Lemma addRow_default (e : Editor) :
  _initialized e = true -> plain_labels e ->
  addRow VUndefined VUndefined e
  = (Returns tt, with_tbody (tbody e ++ [plain_row e [] []]) e).
Proof.
  intros Hi Hl. rewrite addRow_eq. cbn [default_empty ToString].
  destruct Hl as [Hkp Hvp].
  rewrite parse_row_plain by (try assumption; apply plain_nil).
  rewrite Hi. reflexivity.
Qed.

(** A loop of [addRow] calls appends as many rows as it makes calls,
    when it returns. *)
Lemma forEach_addRow_frame {A} (l : list A) (f : A -> M unit) (e : Editor) :
  (forall x e0,
     (exists tr, _initialized e0 = true
                 /\ f x e0 = (Returns tt, with_tbody (tbody e0 ++ [tr]) e0))
     \/ (exists o, o <> Returns tt /\ f x e0 = (o, e0))) ->
  forall e', forEach l f e = (Returns tt, e') ->
  exists rows, e' = with_tbody (tbody e ++ rows) e
               /\ List.length rows = List.length l.
Proof.
  intros Hf. revert e. induction l as [|x l IH]; intros e e' Hrun.
  - cbn in Hrun. injection Hrun as <-. exists [].
    rewrite app_nil_r. destruct e; split; reflexivity.
  - cbn [forEach] in Hrun. unfold bind in Hrun.
    destruct (Hf x e) as [(tr & Hi & Hx) | (o & Ho & Hx)]; rewrite Hx in Hrun.
    + destruct (IH _ _ Hrun) as (rows & -> & Hlen).
      exists (tr :: rows). cbn [tbody with_tbody List.length].
      rewrite <- app_assoc. split; [reflexivity | congruence].
    + destruct o as [[]| |]; congruence.
Qed.

Lemma add_pair_frame (el : JsVal) (e : Editor) :
  (exists tr, _initialized e = true
              /\ add_pair el e = (Returns tt, with_tbody (tbody e ++ [tr]) e))
  \/ (exists o, o <> Returns tt /\ add_pair el e = (o, e)).
Proof.
  unfold add_pair, bind, lift.
  destruct (Get el (js "key"));
    try (right; eexists; split; [|reflexivity]; discriminate).
  destruct (Get el (js "value"));
    try (right; eexists; split; [|reflexivity]; discriminate).
  apply addRow_frame.
Qed.

Lemma add_pair_plain (p : Pair) (e : Editor) :
  _initialized e = true -> plain_labels e -> plain (key p) -> plain (value p) ->
  add_pair (pair_value_of p) e
  = (Returns tt, with_tbody (tbody e ++ [plain_row e (key p) (value p)]) e).
Proof.
  intros Hi Hl Hk Hv. unfold add_pair, bind, lift, pair_value_of.
  change (Get (VObj [(js "key", VStr (key p)); (js "value", VStr (value p))])
              (js "key")) with (Returns (VStr (key p))).
  change (Get (VObj [(js "key", VStr (key p)); (js "value", VStr (value p))])
              (js "value")) with (Returns (VStr (value p))).
  apply addRow_plain; assumption.
Qed.

Lemma forEach_add_pair_plain (ps : list Pair) (e : Editor) :
  _initialized e = true -> plain_labels e -> Forall plain_pair ps ->
  forEach (List.map pair_value_of ps) add_pair e
  = (Returns tt,
     with_tbody
       (tbody e ++ List.map (fun p => plain_row e (key p) (value p)) ps) e).
Proof.
  intros Hi Hl Hps. revert e Hi Hl.
  induction Hps as [|p ps [Hk Hv] _ IH]; intros e Hi Hl.
  - cbn. rewrite app_nil_r. destruct e; reflexivity.
  - cbn [List.map forEach]. unfold bind.
    rewrite add_pair_plain by assumption.
    rewrite IH by assumption. cbn [tbody with_tbody].
    rewrite <- app_assoc. reflexivity.
Qed.

(** ** Which errors the methods throw *)

Lemma ToString_array (l : list JsVal) :
  ToString (VArr l)
  = obind (element_strings l) (fun parts => Returns (join [44] parts)).
Proof.
  reflexivity.
Qed.

Lemma ToString_throws (v : JsVal) (err : JsError) :
  ToString v = Throws err -> err = TypeError.
Proof.
  revert err.
  induction v as [| |b|n|s|l IH|props _] using JsVal_induction; intros err.
  - discriminate.
  - discriminate.
  - destruct b; discriminate.
  - destruct n as [z|]; cbn; [destruct (_ <=? _)%Z|]; discriminate.
  - discriminate.
  - rewrite ToString_array.
    assert (Hl : forall err', element_strings l = Throws err' -> err' = TypeError).
    { induction IH as [|x l Hx _ IHl]; intros err'; [discriminate|].
      cbn [element_strings].
      destruct (if is_nullish x then Returns [] else ToString x)
        as [s| e |] eqn:Ex; cbn [obind].
      - destruct (element_strings l) as [ss| e |]; cbn [obind];
          try discriminate.
        intros [= <-]. exact (IHl e eq_refl).
      - intros [= <-]. destruct (is_nullish x); [discriminate|].
        exact (Hx _ Ex).
      - discriminate. }
    destruct (element_strings l) as [ss| e |]; cbn [obind]; try discriminate.
    intros [= <-]. exact (Hl e eq_refl).
  - cbn [ToString]. destruct (own_property props (js "toString"));
      [|discriminate].
    intros [= <-]. reflexivity.
Qed.

Lemma never_bind {A B} (m : M A) (k : A -> M B) :
  never_invalid_argument m -> (forall a, never_invalid_argument (k a)) ->
  never_invalid_argument (bind m k).
Proof.
  intros Hm Hk e msg e'. unfold bind.
  destruct (m e) as [[a|err|] e1] eqn:E.
  - apply Hk.
  - intros [= -> ->]. exact (Hm _ _ _ E).
  - discriminate.
Qed.

Lemma never_lift {A} (o : Outcome A) :
  not_invalid_argument o -> never_invalid_argument (lift o).
Proof. intros Ho e msg e' [= H _]. exact (Ho _ H). Qed.

Lemma never_ret {A} (a : A) : never_invalid_argument (ret a).
Proof. intros e msg e'. discriminate. Qed.

Lemma never_modify (f : Editor -> Editor) : never_invalid_argument (modify f).
Proof. intros e msg e'. discriminate. Qed.

Lemma never_get : never_invalid_argument get.
Proof. intros e msg e'. discriminate. Qed.

Lemma never_this_tbody : never_invalid_argument this_tbody.
Proof.
  intros e msg e'. unfold this_tbody, bind, get.
  destruct (_initialized e); discriminate.
Qed.

Lemma never_forEach {A} (l : list A) (f : A -> M unit) :
  (forall x, never_invalid_argument (f x)) ->
  never_invalid_argument (forEach l f).
Proof.
  intros Hf. induction l as [|x l IH]; [apply never_ret|].
  cbn [forEach]. apply never_bind; [apply Hf | intros _; exact IH].
Qed.

Lemma Get_not_invalid (v : JsVal) (name : jsstring) :
  not_invalid_argument (Get v name).
Proof. intros msg. destruct v; discriminate. Qed.

Lemma ToString_not_invalid (v : JsVal) : not_invalid_argument (ToString v).
Proof. intros msg H. apply ToString_throws in H. discriminate. Qed.

Lemma tokenize_tag_never_throws (t : TagToken) (s : jsstring) (err : JsError) :
  tokenize_tag t s <> Throws err.
Proof.
  revert t. induction s as [|c s IH]; intros t; [discriminate|].
  cbn [tokenize_tag]. destruct (tokenizer_step t c); [apply IH|..]; discriminate.
Qed.

Lemma parse_row_never_throws (html : jsstring) (err : JsError) :
  parse_row html <> Throws err.
Proof.
  unfold parse_row. destruct (strip_prefix row_open _) as [s1|]; [|discriminate].
  destruct (tokenize_tag in_placeholder s1) as [[attrs1 s2]|e1|] eqn:E1;
    cbn [obind].
  - destruct (strip_prefix after_first_input s2) as [s3|]; [|discriminate].
    destruct (tokenize_tag in_placeholder s3) as [[attrs2 s4]|e2|] eqn:E2;
      cbn [obind].
    + destruct (bool_decide (s4 = after_second_input)); [|discriminate].
      unfold input_of_attributes.
      destruct (has_attribute (js "type") attrs1); [discriminate|].
      destruct (has_attribute (js "type") attrs2); discriminate.
    + exfalso. exact (tokenize_tag_never_throws _ _ _ E2).
    + discriminate.
  - exfalso. exact (tokenize_tag_never_throws _ _ _ E1).
  - discriminate.
Qed.

Lemma never_addRow (key val : JsVal) : never_invalid_argument (addRow key val).
Proof.
  intros e msg e'. rewrite addRow_eq.
  destruct (ToString (default_empty key)) as [ks|err|] eqn:Ek;
    [| intros [= -> _]; exact (ToString_not_invalid _ _ Ek) | discriminate].
  destruct (ToString (default_empty val)) as [vs|err|] eqn:Ev;
    [| intros [= -> _]; exact (ToString_not_invalid _ _ Ev) | discriminate].
  destruct (parse_row _) as [tr|err|] eqn:Ep;
    [| intros _; exact (parse_row_never_throws _ _ Ep) | discriminate].
  destruct (_initialized e); discriminate.
Qed.

Lemma never_add_pair (el : JsVal) : never_invalid_argument (add_pair el).
Proof.
  unfold add_pair.
  apply never_bind; [apply never_lift, Get_not_invalid|]. intros k.
  apply never_bind; [apply never_lift, Get_not_invalid|]. intros v.
  apply never_addRow.
Qed.

Lemma never_mirror (qs : jsstring) (el : ElementRef) :
  never_invalid_argument (mirror qs el).
Proof.
  intros e msg e'. destruct el as [i|i|j|]; try discriminate.
  rewrite mirror_outside. destruct (document e !! j) as [x|]; [|discriminate].
  destruct (mirror_into qs x) as [x'|err|] eqn:Ex; try discriminate.
  intros [= -> _]. apply mirror_into_throws in Ex as (_ & _ & Herr).
  discriminate.
Qed.

Section Errors.

Variable querySelectorAll : Editor -> jsstring -> option (list ElementRef).

Lemma never_updateQuery : never_invalid_argument (updateQuery querySelectorAll).
Proof.
  unfold updateQuery.
  apply never_bind.
  { unfold _getSearchParams. apply never_bind; [apply never_this_tbody|].
    intros rows. apply never_ret. }
  intros usp. apply never_bind.
  { unfold getAttribute. apply never_bind; [apply never_get|].
    intros e. apply never_ret. }
  intros [[|c r]|]; try apply never_ret.
  apply never_bind; [apply never_get|]. intros e.
  destruct (querySelectorAll e (c :: r)).
  - apply never_forEach. intros el. apply never_mirror.
  - intros e0 msg e'. discriminate.
Qed.

(** On an array [setParams] never throws the error of an invalid
    argument. *)
Lemma never_setParams_array (l : list JsVal) (append : bool) :
  never_invalid_argument (setParams querySelectorAll (VArr l) append).
Proof.
  unfold setParams. cbn [Array_isArray negb elements_of].
  apply never_bind; [|intros _; apply never_updateQuery].
  destruct append.
  - apply never_forEach, never_add_pair.
  - apply never_bind; [apply never_this_tbody|]. intros _.
    apply never_bind; [apply never_modify|]. intros _.
    apply never_bind; [apply never_forEach, never_add_pair|]. intros _.
    destruct (List.length l =? 0)%nat; [apply never_addRow | apply never_ret].
Qed.

End Errors.

(** ** Initialization and bulk replacement *)

Section RowClaims.

Variable querySelectorAll : Editor -> jsstring -> option (list ElementRef).

(** When [updateQuery] returns, the editor has as many rows as before
    and the same attributes. *)
Lemma updateQuery_frame (e e' : Editor) :
  updateQuery querySelectorAll e = (Returns tt, e') ->
  _initialized e = true
  /\ List.length (tbody e') = List.length (tbody e)
  /\ attributes e' = attributes e
  /\ ((target (attributes e) = None \/ target (attributes e) = Some [])
      -> e' = e).
Proof.
  intros H.
  destruct (updateQuery_fields _ _ _ _ H) as (Ha & _ & _ & _ & _ & Hlen).
  destruct (_initialized e) eqn:Hi.
  2:{ rewrite updateQuery_uninitialized in H by exact Hi. discriminate. }
  repeat split; try assumption.
  rewrite updateQuery_initialized in H by exact Hi. cbv zeta in H.
  intros [Ht|Ht]; rewrite Ht in H; injection H as <-; reflexivity.
Qed.

(** C4, as amended: [setParams] throws the error of an invalid
    argument, before any change, if and only if an argument is given
    and it is not an array.  An omitted argument counts as the empty
    array, the elements of an array are not checked, and an array
    never raises this error. *)
Theorem setParams_invalid_argument (data : JsVal) (append : bool) (e : Editor) :
  let given := match data with VUndefined => VArr [] | _ => data end in
  (Array_isArray given = false ->
   setParams querySelectorAll data append e
   = (Throws (Error (js "data must be an array")), e))
  /\ (Array_isArray given = true ->
      forall msg e',
        setParams querySelectorAll data append e <> (Throws (Error msg), e')).
Proof.
  split.
  - intros Ha. unfold setParams.
    destruct data; try discriminate; reflexivity.
  - intros Ha msg e'. destruct data; try discriminate.
    + apply (never_setParams_array querySelectorAll [] append).
    + apply never_setParams_array.
Qed.

(** When [loadParams] returns it has appended at least one row. *)
Lemma loadParams_frame (e e' : Editor) :
  loadParams e = (Returns tt, e') ->
  exists rows, rows <> [] /\ e' = with_tbody (tbody e ++ rows) e.
Proof.
  unfold loadParams, bind at 1. unfold getAttribute, bind, get, ret, lift.
  cbn [attribute_of].
  set (items := match initial_data (attributes e) with
                | Some (c :: r) =>
                    match JSON_parse (c :: r) with
                    | Returns v => v
                    | _ => VArr []
                    end
                | _ => VArr []
                end).
  destruct (Get_length items) as [len| |] eqn:Elen; try discriminate.
  destruct (ToBoolean len) as [[]| |] eqn:Eb; try discriminate.
  - destruct items as [| | | | |l|]; cbn [Array_isArray]; try discriminate.
    cbn [elements_of]. intros Hrun.
    destruct (forEach_addRow_frame l _ e (fun i e0 => add_pair_frame i e0) e' Hrun)
      as (rows & -> & Hlen).
    exists rows. split; [|reflexivity].
    cbn in Elen. injection Elen as <-. cbn in Eb.
    destruct l; [discriminate|]. destruct rows; discriminate.
  - intros Hrun.
    destruct (addRow_frame VUndefined VUndefined e)
      as [(tr & _ & Hx) | (o & Ho & Hx)]; rewrite Hx in Hrun.
    + injection Hrun as <-. exists [tr]. split; [discriminate | reflexivity].
    + destruct o as [[]| |]; congruence.
Qed.

Lemma _render_frame (e e' : Editor) :
  _render e = (Returns tt, e') -> _initialized e' = true /\ tbody e' = []
  /\ attributes e' = attributes e.
Proof.
  unfold _render, bind, getAttribute, get, ret, lift, modify, bind.
  destruct (element_text _); try discriminate.
  destruct (element_text _); try discriminate.
  destruct (element_text _); try discriminate.
  intros [= <-]. repeat split.
Qed.

(** After [connectedCallback] returns the table has at least one row. *)
Lemma rows_after_connectedCallback (e e' : Editor) :
  connectedCallback querySelectorAll e = (Returns tt, e') ->
  (1 <= List.length (tbody e'))%nat.
Proof.
  unfold connectedCallback, bind.
  destruct (_render e) as [[[]| |] e1] eqn:E1; try discriminate.
  destruct (_render_frame _ _ E1) as (Hi & Hrows & _).
  cbn [_bindEvents ret].
  destruct (loadParams e1) as [[[]| |] e2] eqn:E2; try discriminate.
  destruct (loadParams_frame _ _ E2) as (rows & Hne & ->).
  intros Hq. apply updateQuery_frame in Hq as (_ & Hlen & _).
  rewrite Hlen. cbn [tbody with_tbody]. rewrite length_app.
  destruct rows; [congruence | cbn; lia].
Qed.

(** After [setParams([], false)] returns the table has one row; it is
    the empty row when the labels are plain. *)
Lemma rows_after_empty_replace (e e' : Editor) :
  setParams querySelectorAll (VArr []) false e = (Returns tt, e') ->
  List.length (tbody e') = 1%nat
  /\ (plain_labels e ->
      (target (attributes e) = None \/ target (attributes e) = Some []) ->
      tbody e' = [plain_row e [] []]).
Proof.
  unfold setParams. cbn [Array_isArray negb elements_of forEach List.length Nat.eqb].
  unfold bind at 1. unfold bind at 1.
  destruct (_initialized e) eqn:Hi.
  2:{ rewrite this_tbody_uninitialized by exact Hi. discriminate. }
  rewrite this_tbody_initialized by exact Hi.
  unfold bind at 1. cbn [modify]. unfold bind at 1. cbn [ret].
  destruct (addRow_frame VUndefined VUndefined (with_tbody [] e))
    as [(tr & _ & Hx) | (o & Ho & Hx)]; rewrite Hx.
  2:{ destruct o as [[]| |]; congruence. }
  intros Hq. pose proof Hq as Hq'.
  apply updateQuery_frame in Hq as (_ & Hlen & _ & Hsame).
  split; [rewrite Hlen; reflexivity|].
  intros Hl Ht. rewrite (Hsame Ht). cbn [tbody with_tbody app].
  rewrite addRow_default in Hx by assumption.
  apply (f_equal (fun p => tbody p.2)) in Hx.
  cbn [snd tbody with_tbody app] in Hx. injection Hx as <-. reflexivity.
Qed.

(** C3: the code raises an error on initial data that is JSON but is
    no pair list.  With [initial-data="null"], [JSON.parse] returns
    [null], nothing is caught, and [items.length] throws a
    [TypeError]: the editor is left rendered and without a row. *)
Theorem connectedCallback_null_initial_data (d : list Element) :
  JSON_parse (js "null") = Returns VNull
  /\ connectedCallback querySelectorAll
       (created (set_attribute_of no_attributes InitialData (Some (js "null"))) d)
     = (Throws TypeError,
        rendered (set_attribute_of no_attributes InitialData (Some (js "null")))
                 [] d).
Proof. split; reflexivity. Qed.

(** C5: with the label [" value="x] for the key column, the row that
    [setParams([], false)] inserts is not empty: the label ends the
    [placeholder] attribute and supplies the value [x] of the key
    input. *)
Theorem empty_replace_with_quoted_label (d : list Element) :
  let a := set_attribute_of no_attributes KeyText (Some (jsq "' value='x")) in
  (connectedCallback querySelectorAll >>>
   setParams querySelectorAll (VArr []) false) (created a d)
  = (Returns tt,
     {| attributes := a; _initialized := true;
        th_key := jsq "' value='x"; th_value := js "Value";
        btnAdd := js "Add parameter";
        tbody := [ {| key_input := text_input [] (js "x");
                      value_input := text_input (js "Value") [] |} ];
        document := d |}).
Proof. reflexivity. Qed.

End RowClaims.

(** C10: [addRow] does not keep a key with a double quote: the quote
    ends the [value] attribute of the markup, and the stored key is
    what precedes it. *)
Theorem addRow_truncates_at_quote :
  addRow (VStr (jsq "a'b")) (VStr (js "1")) (rendered no_attributes [] [])
  = (Returns tt, rendered no_attributes [row_of (js "a") (js "1")] []).
Proof. reflexivity. Qed.

(** A line break in a key is removed, as a text control has none. *)
Example addRow_strips_line_break :
  addRow (VStr [97; 10; 98]) (VStr []) (rendered no_attributes [] [])
  = (Returns tt, rendered no_attributes [row_of (js "ab") []] []).
Proof. reflexivity. Qed.

(** A key of plain text without a line break is kept as given. *)
Example addRow_keeps_plain_text :
  addRow (VStr (js "q r")) (VStr (js "x=1")) (rendered no_attributes [] [])
  = (Returns tt, rendered no_attributes [row_of (js "q r") (js "x=1")] []).
Proof. reflexivity. Qed.

(** C4, as stated, fails.  An array with a [null] element makes
    [setParams] throw a [TypeError], after the rows were removed: a
    sequence argument does not always complete.  An array of numbers
    is no sequence of pair-like records, and an omitted argument is no
    sequence at all, and neither is rejected. *)
Lemma setParams_null_element_throws :
  Array_isArray (VArr [VNull]) = true
  /\ setParams example_page (VArr [VNull]) false
       (rendered no_attributes example_rows example_document)
     = (Throws TypeError, rendered no_attributes [] example_document)
  /\ setParams example_page (VArr [VNum (NumInt 5)]) false
       (rendered no_attributes example_rows example_document)
     = (Returns tt, rendered no_attributes [row_of [] []] example_document)
  /\ setParams example_page VUndefined true
       (rendered no_attributes example_rows example_document)
     = (Returns tt, rendered no_attributes example_rows example_document).
Proof. repeat split. Qed.

Lemma example_labels_plain (a : list Row) (d : list Element) :
  plain_labels (rendered (with_target (js ".out")) a d).
Proof. repeat split. Qed.

Lemma setParams_invalid_argument_witness :
  Array_isArray (VStr (js "a=1")) = false
  /\ setParams example_page (VStr (js "a=1")) true
       (rendered (with_target (js ".out")) example_rows example_document)
     = (Throws (Error (js "data must be an array")),
        rendered (with_target (js ".out")) example_rows example_document)
  /\ Array_isArray (VArr [VNull]) = true
  /\ forall msg e',
       setParams example_page (VArr [VNull]) false
         (rendered (with_target (js ".out")) example_rows example_document)
       <> (Throws (Error msg), e').
Proof.
  split; [reflexivity|]. split; [|split; [reflexivity|]].
  - exact (proj1 (setParams_invalid_argument example_page (VStr (js "a=1")) true
                    (rendered (with_target (js ".out")) example_rows
                       example_document)) eq_refl).
  - exact (proj2 (setParams_invalid_argument example_page (VArr [VNull]) false
                    (rendered (with_target (js ".out")) example_rows
                       example_document)) eq_refl).
Defined.

(** ** What the defects leave intact *)

Lemma attribute_text_single_line (s : jsstring) :
  lacks 0 s -> lacks 10 s -> lacks 13 s ->
  strip_newlines (attribute_text s) = s.
Proof.
  intros H0 H10 H13. unfold attribute_text.
  rewrite normalize_newlines_lacks by exact H13.
  assert (Hmap : List.map value_char s = s).
  { clear H10 H13. induction s as [|c s IH]; [reflexivity|].
    apply lacks_cons in H0 as [Hc Hs]. cbn [List.map]. rewrite (IH Hs).
    unfold value_char. rewrite (proj2 (N.eqb_neq c 0)) by exact Hc.
    reflexivity. }
  rewrite Hmap. apply strip_newlines_lacks; assumption.
Qed.

(** Initialization with text that is not JSON, and with a pair list. *)
Example connectedCallback_not_json :
  connectedCallback example_page
    (created (set_attribute_of no_attributes InitialData (Some (js "{oops"))) [])
  = (Returns tt,
     rendered (set_attribute_of no_attributes InitialData (Some (js "{oops")))
       [row_of [] []] []).
Proof. reflexivity. Qed.

Example connectedCallback_pair_list :
  connectedCallback example_page
    (created (set_attribute_of (with_target (js ".out")) InitialData
                (Some (jsq "[{'key':'a','value':'1'},{'key':'b c','value':''}]")))
             example_document)
  = (Returns tt,
     rendered (set_attribute_of (with_target (js ".out")) InitialData
                 (Some (jsq "[{'key':'a','value':'1'},{'key':'b c','value':''}]")))
       [row_of (js "a") (js "1"); row_of (js "b c") []]
       [ {| el_kind := HTMLInputElement Text; el_value := js "a=1&b+c=";
            el_textContent := [] |};
         {| el_kind := HTMLTextAreaElement; el_value := js "a=1&b+c=";
            el_textContent := [] |};
         {| el_kind := OtherElement; el_value := [];
            el_textContent := js "a=1&b+c=" |} ]).
Proof. vm_compute. reflexivity. Qed.

(** Other initial data that is JSON but no pair list: a string throws,
    an array of numbers gives one empty row for each number. *)
Example connectedCallback_string_initial_data :
  (connectedCallback example_page
     (created (set_attribute_of no_attributes InitialData
                 (Some (jsq "'abc'"))) [])).1
  = Throws TypeError.
Proof. reflexivity. Qed.

Example connectedCallback_numbers_initial_data :
  (connectedCallback example_page
     (created (set_attribute_of no_attributes InitialData
                 (Some (js "[1,2]"))) [])).2.(tbody)
  = [row_of [] []; row_of [] []].
Proof. reflexivity. Qed.

(** * Further properties of the methods *)

(** ** [parseUrlToData] on any input *)

Lemma utf8_lead_bound (b : N) :
  utf8_state_bound (utf8_lead b).2
  /\ forall cp, (utf8_lead b).1 = Some cp -> decoded_code_point cp.
Proof.
  unfold utf8_lead, utf8_state_bound, decoded_code_point.
  destruct (b <=? 127) eqn:H1.
  { split; [left; reflexivity|]. intros cp [= <-].
    apply N.leb_le in H1. lia. }
  destruct (in_range 194 223 b).
  { cbn. rewrite land_31. split; [|discriminate].
    right; left. repeat split. lia. }
  destruct (in_range 224 239 b).
  { cbn. rewrite land_15. split; [|discriminate].
    right; right; left. repeat split. lia. }
  destruct (in_range 240 244 b).
  { cbn. rewrite land_7. split; [|discriminate].
    do 4 right; left. repeat split. lia. }
  split; [left; reflexivity|]. intros cp [= <-]. lia.
Qed.

Lemma utf8_decode_from_bound (bs : list N) (st : Utf8State) :
  utf8_state_bound st -> Forall decoded_code_point (utf8_decode_from st bs).
Proof.
  revert st. induction bs as [|b r IH]; intros st Hst.
  { cbn. destruct (u8_needed st =? 0); repeat constructor. }
  rewrite utf8_decode_from_cons.
  pose proof (utf8_lead_bound b) as [Hlead Hout].
  destruct (utf8_lead b) as [out st'] eqn:Hl. cbn [fst snd] in Hlead, Hout.
  assert (Hrest : Forall decoded_code_point (cons_opt out (utf8_decode_from st' r))).
  { destruct out as [cp|]; cbn [cons_opt]; [constructor|]; auto. }
  destruct (u8_needed st =? 0) eqn:Hn; [exact Hrest|].
  destruct (negb (in_range (u8_lower st) (u8_upper st) b)).
  { constructor; [reflexivity|exact Hrest]. }
  rewrite continuation_value. cbn zeta.
  apply N.eqb_neq in Hn.
  assert (Hcp : u8_code_point st * 64 + b mod 64 < 2097152
                /\ (u8_seen st + 1 <> u8_needed st ->
                    utf8_state_bound
                      {| u8_code_point := u8_code_point st * 64 + b mod 64;
                         u8_seen := u8_seen st + 1;
                         u8_needed := u8_needed st;
                         u8_lower := 128; u8_upper := 191 |})).
  { unfold utf8_state_bound in *. cbn [u8_needed u8_seen u8_code_point].
    destruct Hst as [H|[H|[H|[H|[H|[H|H]]]]]]; [lia|..];
      destruct H as (Hneed & Hseen & Hb); rewrite Hneed, Hseen;
      (split; [lia|intros Hne]); try (exfalso; apply Hne; reflexivity).
    - right; right; right; left. repeat split. lia.
    - do 5 right; left. repeat split. lia.
    - do 6 right. repeat split. lia. }
  destruct Hcp as [Hlt Hnext].
  destruct (u8_seen st + 1 =? u8_needed st) eqn:Hs.
  - constructor; [exact Hlt|]. apply IH. left; reflexivity.
  - apply IH, Hnext. apply N.eqb_neq, Hs.
Qed.

Lemma utf16_encode_decoded (cps : list N) :
  Forall decoded_code_point cps -> wf_string (utf16_encode cps).
Proof.
  unfold wf_string, utf16_encode. induction 1 as [|cp r Hcp _ IH]; [constructor|].
  cbn [flat_map]. apply Forall_app. split; [|exact IH].
  unfold utf16_encode_cp, decoded_code_point, wf_unit in *.
  destruct (cp <? 65536) eqn:Hlt.
  - apply N.ltb_lt in Hlt. repeat constructor. exact Hlt.
  - apply N.ltb_ge in Hlt. rewrite shiftr_div, land_1023.
    repeat constructor; change (2 ^ 10) with 1024; lia.
Qed.

Lemma urlencoded_decode_wf (bs : list N) : wf_string (urlencoded_decode bs).
Proof.
  unfold urlencoded_decode, utf8_decode.
  apply utf16_encode_decoded, utf8_decode_from_bound. left; reflexivity.
Qed.

Lemma urlencoded_parse_bytes_wf (input : list N) :
  Forall wf_tuple (urlencoded_parse_bytes input).
Proof.
  rewrite urlencoded_parse_bytes_eq.
  induction (split_on 38 input) as [|bytes l IH]; [constructor|].
  cbn [flat_map]. apply Forall_app. split; [|exact IH].
  unfold parse_sequence. destruct bytes as [|b bytes]; [constructor|].
  destruct (if existsb (N.eqb 61) (b :: bytes)
            then split_first 61 (b :: bytes) else (b :: bytes, []))
    as [name value].
  repeat constructor; apply urlencoded_decode_wf.
Qed.

Lemma of_string_parses (init : jsstring) :
  exists bytes, URLSearchParams.of_string init = urlencoded_parse_bytes bytes.
Proof.
  unfold URLSearchParams.of_string, urlencoded_parse.
  destruct (to_usv init) as [|c r]; [eexists; reflexivity|].
  destruct c as [|p]; [eexists; reflexivity|].
  do 6 (try (destruct p as [p|p|]; try (eexists; reflexivity))).
Qed.

Lemma of_string_wf (init : jsstring) :
  Forall wf_tuple (URLSearchParams.of_string init).
Proof.
  destruct (of_string_parses init) as [bytes ->].
  apply urlencoded_parse_bytes_wf.
Qed.

Lemma wf_entries_wf_pairs (l : list (jsstring * jsstring)) :
  Forall wf_tuple l -> Forall wf_pair (List.map pair_of_entry l).
Proof.
  induction 1 as [|p l Hp _ IH]; [constructor|].
  cbn [List.map]. constructor; [exact Hp|exact IH].
Qed.

(** X1: the text that [parseUrlToData] returns by default is always
    JSON: for every input string, [JSON.parse] reads it back without
    an error as an array of [{key, value}] records with string fields,
    the array that the call with [asArray] set returns (or the empty
    array, when the input has neither a question mark nor an equals
    sign and both calls return the text of the empty array). *)
Theorem parseUrlToData_text_is_json (input : jsstring) :
  exists text ps,
    parseUrlToData input false = AString text
    /\ JSON_parse text = Returns (VArr (List.map pair_value_of ps))
    /\ (parseUrlToData input true = AnArray ps
        \/ (ps = [] /\ parseUrlToData input true = AString (js "[]")
            /\ includes input 63 = false /\ includes input 61 = false)).
Proof.
  unfold parseUrlToData.
  destruct (includes input 63) eqn:H63; [|destruct (includes input 61) eqn:H61].
  - eexists _, _. split; [reflexivity|]. split; [|left; reflexivity].
    apply JSON_parse_stringify, wf_entries_wf_pairs, of_string_wf.
  - eexists _, _. split; [reflexivity|]. split; [|left; reflexivity].
    apply JSON_parse_stringify, wf_entries_wf_pairs, of_string_wf.
  - exists (js "[]"), []. split; [reflexivity|]. split; [reflexivity|].
    right. repeat split.
Qed.

Lemma query_pairs_serialized (tuples : list (jsstring * jsstring)) :
  Forall usv_tuple tuples ->
  query_pairs (URLSearchParams.toString tuples) = List.map pair_of_entry tuples.
Proof.
  intros H. unfold query_pairs.
  rewrite <- of_string_question_mark, of_string_serialize by exact H.
  reflexivity.
Qed.

(** X2: [parseUrlToData] undoes the serializer and keeps every pair.
    For every list of name/value tuples of scalar value strings,
    duplicated and empty names included, the array parsed from the
    serialized list, behind any prefix that ends at the first
    question mark or (for a list that is not empty) on its own, holds
    exactly those tuples in their order. *)
Theorem parseUrlToData_keeps_every_pair (pre : jsstring)
  (tuples : list (jsstring * jsstring)) :
  lacks 63 pre -> Forall usv_tuple tuples ->
  parseUrlToData (pre ++ 63 :: URLSearchParams.toString tuples) true
  = AnArray (List.map pair_of_entry tuples)
  /\ (tuples <> [] ->
      parseUrlToData (URLSearchParams.toString tuples) true
      = AnArray (List.map pair_of_entry tuples)).
Proof.
  intros Hpre Hts. split.
  - rewrite parseUrlToData_url by exact Hpre.
    rewrite query_pairs_serialized by exact Hts. reflexivity.
  - intros Hne. rewrite parseUrlToData_serialized by exact Hts.
    destruct tuples; [contradiction|reflexivity].
Qed.

Lemma parseUrlToData_keeps_every_pair_witness :
  lacks 63 (js "https://example.com/p")
  /\ Forall usv_tuple [(js "a", js "1"); (js "a", js "2"); ([], js "x y")]
  /\ parseUrlToData (js "https://example.com/p?a=1&a=2&=x+y") true
     = AnArray [ {| key := js "a"; value := js "1" |};
                 {| key := js "a"; value := js "2" |};
                 {| key := []; value := js "x y" |} ].
Proof.
  assert (Hpre : lacks 63 (js "https://example.com/p")) by reflexivity.
  assert (Hts : Forall usv_tuple
                  [(js "a", js "1"); (js "a", js "2"); ([], js "x y")]).
  { repeat constructor. }
  split; [exact Hpre|]. split; [exact Hts|].
  exact (proj1 (parseUrlToData_keeps_every_pair
                  (js "https://example.com/p")
                  [(js "a", js "1"); (js "a", js "2"); ([], js "x y")]
                  Hpre Hts)).
Defined.

(** ** The derived search parameters and their publication *)

Lemma to_usv_nil (s : jsstring) : to_usv s = [] -> s = [].
Proof.
  destruct s as [|c r]; [reflexivity|]. unfold to_usv.
  assert (H : exists cp cps, utf16_decode (c :: r) = cp :: cps).
  { rewrite utf16_decode_cons.
    destruct (is_high c); [destruct r as [|d r']; [|destruct (is_low d)]|
                           destruct (is_low c)]; eauto. }
  destruct H as (cp & cps & ->). unfold utf16_encode. cbn [flat_map].
  unfold utf16_encode_cp. destruct (cp <? 65536); discriminate.
Qed.

Lemma set_first_names (name value : jsstring) (l : list (jsstring * jsstring)) :
  Forall (fun p => p.1 <> []) l ->
  Forall (fun p => p.1 <> []) (URLSearchParams.set_first name value l)
  /\ (List.length (URLSearchParams.set_first name value l) <= List.length l)%nat.
Proof.
  induction 1 as [|[n v] r Hn Hr IH]; [split; [constructor|reflexivity]|].
  cbn [URLSearchParams.set_first].
  destruct (bool_decide (n = name)).
  - split.
    + constructor; [exact Hn|]. apply List.Forall_forall. intros p Hp.
      apply List.filter_In in Hp as [Hp _].
      exact (proj1 (List.Forall_forall _ _) Hr p Hp).
    + cbn [List.length]. pose proof (List.filter_length_le
        (fun p : jsstring * jsstring => negb (bool_decide (p.1 = name))) r). lia.
  - destruct IH as [IH1 IH2]. split; [constructor; assumption|].
    cbn [List.length]. lia.
Qed.

Lemma collect_row_names (usp : list (jsstring * jsstring)) (tr : Row) :
  Forall (fun p => p.1 <> []) usp ->
  Forall (fun p => p.1 <> []) (collect_row usp tr)
  /\ (List.length (collect_row usp tr) <= S (List.length usp))%nat.
Proof.
  intros H. unfold collect_row.
  destruct (trim (input_value (key_input tr))) as [|c k] eqn:Hk.
  { split; [exact H|lia]. }
  unfold URLSearchParams.set.
  destruct (URLSearchParams.has_name (to_usv (c :: k)) usp).
  - destruct (set_first_names (to_usv (c :: k))
                (to_usv (trim (input_value (value_input tr)))) usp H).
    split; [assumption|lia].
  - split.
    + apply Forall_app. split; [exact H|]. constructor; [|constructor].
      cbn [fst]. intros Hnil. apply to_usv_nil in Hnil. discriminate.
    + rewrite length_app. cbn [List.length]. lia.
Qed.

Lemma search_params_names (rows : list Row) (usp : list (jsstring * jsstring)) :
  Forall (fun p => p.1 <> []) usp ->
  Forall (fun p => p.1 <> []) (fold_left collect_row rows usp)
  /\ (List.length (fold_left collect_row rows usp)
      <= List.length rows + List.length usp)%nat.
Proof.
  revert usp. induction rows as [|tr rows IH]; intros usp H.
  { split; [exact H|cbn; lia]. }
  cbn [fold_left]. destruct (collect_row_names usp tr H) as [H1 H2].
  destruct (IH _ H1) as [H3 H4]. split; [exact H3|]. cbn [List.length]. lia.
Qed.

(** X3: the search parameters that [_getSearchParams] collects hold
    every name once, no empty name, and at most one parameter for
    each row; collecting them changes nothing. *)
Theorem getSearchParams_names_once (e : Editor) :
  _initialized e = true ->
  exists usp,
    _getSearchParams e = (Returns usp, e)
    /\ NoDup (URLSearchParams.entries usp).*1
    /\ Forall (fun p => p.1 <> []) (URLSearchParams.entries usp)
    /\ (List.length (URLSearchParams.entries usp) <= List.length (tbody e))%nat.
Proof.
  intros Hi. exists (search_params_of (tbody e)).
  split; [apply _getSearchParams_initialized, Hi|].
  split; [apply search_params_nodup|].
  destruct (search_params_names (tbody e) [] (@List.Forall_nil _ _)) as [H1 H2].
  unfold URLSearchParams.entries, search_params_of, URLSearchParams.empty.
  split; [exact H1|]. cbn [List.length] in H2. lia.
Qed.

Lemma getSearchParams_names_once_witness :
  _initialized (rendered no_attributes example_rows []) = true
  /\ exists usp,
       _getSearchParams (rendered no_attributes example_rows [])
       = (Returns usp, rendered no_attributes example_rows [])
       /\ NoDup (URLSearchParams.entries usp).*1
       /\ Forall (fun p => p.1 <> []) (URLSearchParams.entries usp)
       /\ (List.length (URLSearchParams.entries usp)
           <= List.length (tbody (rendered no_attributes example_rows [])))%nat.
Proof.
  split; [reflexivity|].
  apply (getSearchParams_names_once (rendered no_attributes example_rows [])).
  reflexivity.
Defined.

(** X4: the query string that the rows derive is made of ASCII
    letters and digits, of [*], [-], [.] and [_], and of [%], [+],
    [=] and [&] only: no space, no quote, no line break and no unit
    outside ASCII is published. *)
Theorem query_string_units (e : Editor) :
  _initialized e = true -> wf_rows (tbody e) ->
  exists usp,
    _getSearchParams e = (Returns usp, e)
    /\ forallb query_unit (URLSearchParams.toString usp) = true
    /\ is_ascii (URLSearchParams.toString usp).
Proof.
  intros Hi Hwf. exists (search_params_of (tbody e)).
  split; [apply _getSearchParams_initialized, Hi|].
  pose proof (search_params_usv _ Hwf) as Husv.
  assert (Hw : Forall wf_tuple (search_params_of (tbody e))).
  { eapply Forall_impl; [exact Husv|]. intros p. apply usv_tuple_wf. }
  split; [apply urlencoded_serialize_units, Hw|].
  apply urlencoded_serialize_ascii, Hw.
Qed.

Lemma query_string_units_witness :
  _initialized (rendered no_attributes example_rows []) = true
  /\ wf_rows (tbody (rendered no_attributes example_rows []))
  /\ exists usp,
       _getSearchParams (rendered no_attributes example_rows [])
       = (Returns usp, rendered no_attributes example_rows [])
       /\ forallb query_unit (URLSearchParams.toString usp) = true
       /\ is_ascii (URLSearchParams.toString usp).
Proof.
  split; [reflexivity|]. split; [exact example_rows_wf|].
  apply (query_string_units (rendered no_attributes example_rows []));
    [reflexivity|exact example_rows_wf].
Defined.

Section Publication.

Variable querySelectorAll : Editor -> jsstring -> option (list ElementRef).

Lemma matched_matches (e : Editor) (els : list ElementRef) :
  matched querySelectorAll e els -> matches querySelectorAll e els.
Proof.
  unfold matched, matches.
  destruct (target (attributes e)) as [[|c r]|]; auto.
Qed.

Lemma updateQuery_matched (e : Editor) (els : list ElementRef) :
  _initialized e = true -> matched querySelectorAll e els ->
  Forall outside_table els -> no_file_input els (document e) ->
  updateQuery querySelectorAll e
  = (Returns tt,
     with_document (written_all (query_string (tbody e)) els (document e)) e).
Proof.
  intros Hi Hm Hout Hf.
  apply updateQuery_writes; auto using matched_matches.
Qed.



(** X5: when the editor has no target, an empty one, or one that
    matches no element, [updateQuery] changes nothing and raises no
    error. *)
Theorem updateQuery_without_match (e : Editor) :
  _initialized e = true -> matched querySelectorAll e [] ->
  updateQuery querySelectorAll e = (Returns tt, e).
Proof.
  intros Hi Hm.
  rewrite (updateQuery_matched e [])
    by (auto using no_file_input_nil; constructor).
  cbn. apply f_equal, with_document_same.
Qed.

(** X6: publishing is idempotent when the target matches the same
    elements in every state of the editor, all of them outside the
    table: a second [updateQuery] right after the first has the same
    outcome, a return or the same error, and changes nothing. *)
Theorem updateQuery_twice (e : Editor) (els : list ElementRef) :
  matched querySelectorAll e els -> Forall outside_table els ->
  exists o e',
    updateQuery querySelectorAll e = (o, e')
    /\ o <> Unmodelled
    /\ updateQuery querySelectorAll e' = (o, e').
Proof.
  intros Hm Hout.
  destruct (_initialized e) eqn:Hi.
  2:{ exists (Throws TypeError), e.
      rewrite updateQuery_uninitialized by exact Hi.
      repeat split. discriminate. }
  rewrite updateQuery_initialized by exact Hi. cbv zeta.
  unfold matched in Hm.
  destruct (target (attributes e)) as [[|c r]|] eqn:Ht.
  - exists (Returns tt), e. rewrite updateQuery_initialized by exact Hi.
    rewrite Ht. repeat split. discriminate.
  - rewrite (Hm e eq_refl).
    destruct (forEach_mirror_frame
                (URLSearchParams.toString (search_params_of (tbody e)))
                els e Hout) as (o & d & Hd & _).
    exists o, (with_document d e). split; [exact Hd|]. split.
    { pose proof (forEach_mirror_modelled
                    (URLSearchParams.toString (search_params_of (tbody e)))
                    els e (never_valid_query _) Hout) as Hmod.
      rewrite Hd in Hmod. exact Hmod. }
    rewrite updateQuery_initialized by exact Hi. cbv zeta.
    cbn [attributes tbody with_document]. rewrite Ht.
    rewrite (Hm (with_document d e) eq_refl).
    apply (forEach_mirror_again _ _ e); assumption.
  - exists (Returns tt), e. rewrite updateQuery_initialized by exact Hi.
    rewrite Ht. repeat split. discriminate.
Qed.

End Publication.


Lemma example_page_outside :
  Forall outside_table [InDocument 0; InDocument 1; InDocument 2].
Proof. repeat constructor. Qed.

Lemma updateQuery_without_match_witness :
  _initialized (rendered (with_target (js ".none")) example_rows example_document)
  = true
  /\ matched example_page
       (rendered (with_target (js ".none")) example_rows example_document) []
  /\ updateQuery example_page
       (rendered (with_target (js ".none")) example_rows example_document)
     = (Returns tt,
        rendered (with_target (js ".none")) example_rows example_document).
Proof.
  assert (Hm : matched example_page
                 (rendered (with_target (js ".none")) example_rows
                    example_document) []).
  { intros e' Ha. reflexivity. }
  split; [reflexivity|]. split; [exact Hm|].
  exact (updateQuery_without_match example_page
           (rendered (with_target (js ".none")) example_rows example_document)
           eq_refl Hm).
Defined.

Lemma typed_page_matched (rows : list Row) (d : list Element) :
  matched typed_page (rendered (with_target (js ".all")) rows d)
    [InDocument 0; InDocument 1; InDocument 2].
Proof. intros e' Ha. reflexivity. Qed.

Lemma updateQuery_twice_witness :
  matched typed_page
    (rendered (with_target (js ".all")) example_rows typed_document)
    [InDocument 0; InDocument 1; InDocument 2]
  /\ Forall outside_table [InDocument 0; InDocument 1; InDocument 2]
  /\ exists o e',
       updateQuery typed_page
         (rendered (with_target (js ".all")) example_rows typed_document)
       = (o, e')
       /\ o <> Unmodelled
       /\ updateQuery typed_page e' = (o, e').
Proof.
  split; [apply typed_page_matched|]. split; [exact example_page_outside|].
  exact (updateQuery_twice typed_page
           (rendered (with_target (js ".all")) example_rows typed_document)
           [InDocument 0; InDocument 1; InDocument 2]
           (typed_page_matched example_rows typed_document)
           example_page_outside).
Defined.

(** With a file control among the matched elements both calls throw,
    and the number control before it is written once. *)
Example publishing_throws_twice :
  let e := rendered (with_target (js ".all")) example_rows typed_document in
  updateQuery typed_page e
  = (Throws InvalidStateError,
     with_document
       (<[0%nat := {| el_kind := HTMLInputElement Number; el_value := [];
                      el_textContent := [] |}]> typed_document) e)
  /\ updateQuery typed_page (updateQuery typed_page e).2
     = updateQuery typed_page e.
Proof. vm_compute. split; reflexivity. Qed.

(** ** Rows: [addRow] and the add button *)

Lemma strip_newlines_single_line (s : jsstring) :
  lacks 10 (strip_newlines s) /\ lacks 13 (strip_newlines s).
Proof.
  unfold lacks, strip_newlines. induction s as [|c s [IH1 IH2]]; [split; reflexivity|].
  cbn [List.filter].
  destruct (c =? 10) eqn:H10; [split; assumption|].
  destruct (c =? 13) eqn:H13; [split; assumption|].
  cbn [orb negb forallb]. rewrite H10, H13, IH1, IH2. split; reflexivity.
Qed.

Lemma input_of_attributes_single_line (attrs : list (jsstring * jsstring))
  (i : Input) :
  input_of_attributes attrs = Returns i ->
  lacks 10 (input_value i) /\ lacks 13 (input_value i).
Proof.
  unfold input_of_attributes. destruct (has_attribute (js "type") attrs);
    [discriminate|].
  intros [= <-]. cbn [input_value]. apply strip_newlines_single_line.
Qed.

Lemma parse_row_single_line (html : jsstring) (tr : Row) :
  parse_row html = Returns tr ->
  (lacks 10 (input_value (key_input tr)) /\ lacks 13 (input_value (key_input tr)))
  /\ (lacks 10 (input_value (value_input tr))
      /\ lacks 13 (input_value (value_input tr))).
Proof.
  unfold parse_row.
  destruct (strip_prefix row_open (normalize_newlines html)) as [s1|];
    [|discriminate].
  destruct (tokenize_tag in_placeholder s1) as [[attrs1 s2]| |]; cbn [obind];
    try discriminate.
  destruct (strip_prefix after_first_input s2) as [s3|]; [|discriminate].
  destruct (tokenize_tag in_placeholder s3) as [[attrs2 s4]| |]; cbn [obind];
    try discriminate.
  destruct (bool_decide (s4 = after_second_input)); [|discriminate].
  destruct (input_of_attributes attrs1) as [k| |] eqn:Hk; cbn [obind];
    try discriminate.
  destruct (input_of_attributes attrs2) as [v| |] eqn:Hv; cbn [obind];
    try discriminate.
  intros [= <-]. cbn [key_input value_input].
  split; eapply input_of_attributes_single_line; eassumption.
Qed.

Lemma addRow_outcomes (key val : JsVal) (e : Editor) :
  (exists key_s val_s tr,
     _initialized e = true
     /\ parse_row (row_html (key_placeholder e) key_s
                            (value_placeholder e) val_s) = Returns tr
     /\ addRow key val e = (Returns tt, with_tbody (tbody e ++ [tr]) e))
  \/ (exists o,
        addRow key val e = (o, e) /\ (o = Throws TypeError \/ o = Unmodelled)).
Proof.
  rewrite addRow_eq.
  destruct (ToString (default_empty key)) as [k|err|] eqn:Hk;
    [|right; eexists; split; [reflexivity|left; f_equal;
                               exact (ToString_throws _ _ Hk)]
     |right; eexists; split; [reflexivity|right; reflexivity]].
  destruct (ToString (default_empty val)) as [v|err|] eqn:Hv;
    [|right; eexists; split; [reflexivity|left; f_equal;
                               exact (ToString_throws _ _ Hv)]
     |right; eexists; split; [reflexivity|right; reflexivity]].
  destruct (parse_row _) as [tr|err|] eqn:Hp;
    [|exfalso; exact (parse_row_never_throws _ _ Hp)
     |right; eexists; split; [reflexivity|right; reflexivity]].
  destruct (_initialized e) eqn:Hi;
    [|right; eexists; split; [reflexivity|left; reflexivity]].
  left. exists k, v, tr. split; [reflexivity|]. split; [exact Hp|reflexivity].
Qed.

(** X7: when [addRow] returns, it has appended exactly one row to the
    table and changed nothing else (no attribute, no header and no
    element outside the table: it does not publish), and the key and
    the value of the new row hold no line break; when it throws, the
    error is a [TypeError] and nothing has changed.  Markup outside
    the model is not covered. *)
Theorem addRow_effect (key val : JsVal) (e e' : Editor) (o : Outcome unit) :
  addRow key val e = (o, e') ->
  match o with
  | Returns _ =>
      exists tr,
        e' = with_tbody (tbody e ++ [tr]) e
        /\ _initialized e = true
        /\ lacks 10 (input_value (key_input tr))
        /\ lacks 13 (input_value (key_input tr))
        /\ lacks 10 (input_value (value_input tr))
        /\ lacks 13 (input_value (value_input tr))
  | Throws err => err = TypeError /\ e' = e
  | Unmodelled => True
  end.
Proof.
  destruct (addRow_outcomes key val e)
    as [(k & v & tr & Hi & Hp & ->)|(o' & -> & Ho)].
  - intros [= <- <-]. exists tr. split; [reflexivity|]. split; [exact Hi|].
    destruct (parse_row_single_line _ _ Hp) as [[? ?] [? ?]]. auto.
  - intros [= <- <-]. destruct Ho as [-> | ->]; auto.
Qed.

Lemma addRow_effect_witness :
  addRow (VStr [97; 13; 10; 98]) (VStr (jsq "x'y"))
    (rendered no_attributes example_rows example_document)
  = (Returns tt,
     rendered no_attributes (example_rows ++ [row_of (js "ab") (js "x")])
       example_document)
  /\ exists tr,
       rendered no_attributes (example_rows ++ [row_of (js "ab") (js "x")])
         example_document
       = with_tbody (example_rows ++ [tr])
           (rendered no_attributes example_rows example_document)
       /\ true = true
       /\ lacks 10 (input_value (key_input tr))
       /\ lacks 13 (input_value (key_input tr))
       /\ lacks 10 (input_value (value_input tr))
       /\ lacks 13 (input_value (value_input tr)).
Proof.
  split; [reflexivity|].
  exact (addRow_effect (VStr [97; 13; 10; 98]) (VStr (jsq "x'y"))
           (rendered no_attributes example_rows example_document) _ _ eq_refl).
Defined.

(** X8: [addRow] keeps text that is plain and on a single line.  On
    a rendered editor, when the texts of the two arguments (the empty
    string for an omitted one, the decimal digits for an integer of
    magnitude at most 2^53) hold no double quote, ampersand, null
    character or line break, and the column labels no double quote or
    ampersand, the row appended holds exactly these texts, beside the
    labels, as the parser reads them in an attribute, as
    placeholders. *)
Theorem addRow_stores_text (key val : JsVal) (k v : jsstring) (e : Editor) :
  _initialized e = true -> plain_labels e ->
  ToString (default_empty key) = Returns k ->
  ToString (default_empty val) = Returns v ->
  plain k -> single_line k -> plain v -> single_line v ->
  exists tr,
    addRow key val e = (Returns tt, with_tbody (tbody e ++ [tr]) e)
    /\ input_value (key_input tr) = k
    /\ input_value (value_input tr) = v
    /\ placeholder (key_input tr) = attribute_text (key_placeholder e)
    /\ placeholder (value_input tr) = attribute_text (value_placeholder e).
Proof.
  intros Hi [Hl1 Hl2] Hk Hv Pk (Hk0 & Hk10 & Hk13) Pv (Hv0 & Hv10 & Hv13).
  exists (plain_row e k v). rewrite addRow_eq, Hk, Hv.
  unfold key_placeholder, value_placeholder in Hl1, Hl2.
  rewrite parse_row_plain by assumption. rewrite Hi.
  split; [reflexivity|]. cbn [plain_row key_input value_input input_value placeholder].
  split; [apply attribute_text_single_line; assumption|].
  split; [apply attribute_text_single_line; assumption|].
  split; reflexivity.
Qed.

Lemma addRow_stores_text_witness :
  exists tr,
    addRow (VStr (js "page size")) (VNum (NumInt 25))
      (rendered no_attributes [] [])
    = (Returns tt,
       with_tbody (tbody (rendered no_attributes [] []) ++ [tr])
         (rendered no_attributes [] []))
    /\ input_value (key_input tr) = js "page size"
    /\ input_value (value_input tr) = js "25"
    /\ placeholder (key_input tr) = js "Key"
    /\ placeholder (value_input tr) = js "Value".
Proof.
  apply (addRow_stores_text (VStr (js "page size")) (VNum (NumInt 25))
           (js "page size") (js "25") (rendered no_attributes [] []));
    repeat split; reflexivity.
Defined.

Lemma collect_row_no_key (usp : URLSearchParams.t) (tr : Row) :
  input_value (key_input tr) = [] -> collect_row usp tr = usp.
Proof. intros H. unfold collect_row. rewrite H. reflexivity. Qed.

Lemma search_params_snoc (rows : list Row) (tr : Row) :
  search_params_of (rows ++ [tr]) = collect_row (search_params_of rows) tr.
Proof. unfold search_params_of. rewrite fold_left_app. reflexivity. Qed.

(** X9: on a rendered editor whose column labels hold no double
    quote and no ampersand, a click on the add button appends one row
    with an empty key and an empty value and does not publish; it need
    not, for the parameters that the rows derive are the same as
    before the click. *)
Theorem on_add_click_keeps_query (e : Editor) :
  _initialized e = true -> plain_labels e ->
  exists tr,
    on_add_click e = (Returns tt, with_tbody (tbody e ++ [tr]) e)
    /\ input_value (key_input tr) = []
    /\ input_value (value_input tr) = []
    /\ _getSearchParams (with_tbody (tbody e ++ [tr]) e)
       = (Returns (search_params_of (tbody e)), with_tbody (tbody e ++ [tr]) e).
Proof.
  intros Hi Hl. exists (plain_row e [] []). unfold on_add_click.
  rewrite addRow_default by assumption.
  split; [reflexivity|]. split; [reflexivity|]. split; [reflexivity|].
  rewrite _getSearchParams_initialized by exact Hi.
  cbn [tbody with_tbody]. rewrite search_params_snoc, collect_row_no_key;
    reflexivity.
Qed.

Lemma on_add_click_keeps_query_witness :
  _initialized (rendered no_attributes example_rows []) = true
  /\ plain_labels (rendered no_attributes example_rows [])
  /\ exists tr,
       on_add_click (rendered no_attributes example_rows [])
       = (Returns tt,
          with_tbody (tbody (rendered no_attributes example_rows []) ++ [tr])
            (rendered no_attributes example_rows []))
       /\ input_value (key_input tr) = []
       /\ input_value (value_input tr) = []
       /\ _getSearchParams
            (with_tbody (tbody (rendered no_attributes example_rows []) ++ [tr])
               (rendered no_attributes example_rows []))
          = (Returns (search_params_of
                        (tbody (rendered no_attributes example_rows []))),
             with_tbody (tbody (rendered no_attributes example_rows []) ++ [tr])
               (rendered no_attributes example_rows [])).
Proof.
  assert (Hl : plain_labels (rendered no_attributes example_rows []))
    by (split; split; reflexivity).
  split; [reflexivity|]. split; [exact Hl|].
  exact (on_add_click_keeps_query (rendered no_attributes example_rows [])
           eq_refl Hl).
Defined.

(** ** The listeners of a row *)


Section Listeners.

Variable querySelectorAll : Editor -> jsstring -> option (list ElementRef).



End Listeners.




Example on_delete_click_example :
  on_delete_click example_page 0
    (rendered (with_target (js ".out")) [row_of (js "a") (js "1")]
       example_document)
  = (Returns tt,
     rendered (with_target (js ".out")) []
       [ {| el_kind := HTMLInputElement Text; el_value := []; el_textContent := [] |};
         {| el_kind := HTMLTextAreaElement; el_value := [];
            el_textContent := [] |};
         {| el_kind := OtherElement; el_value := []; el_textContent := [] |} ]).
Proof. reflexivity. Qed.

(** ** [setParams] with pairs of plain strings *)






Section SetParams.

Variable querySelectorAll : Editor -> jsstring -> option (list ElementRef).

Lemma setParams_plain (ps : list Pair) (append : bool) (e : Editor) :
  _initialized e = true -> plain_labels e -> Forall plain_pair ps ->
  setParams querySelectorAll (VArr (List.map pair_value_of ps)) append e
  = updateQuery querySelectorAll
      (with_tbody (if append then tbody e ++ rows_of_pairs e ps
                   else replaced_rows e ps) e).
Proof.
  intros Hi Hl Hps. unfold setParams. cbn [Array_isArray negb elements_of].
  destruct append.
  - unfold bind at 1. rewrite forEach_add_pair_plain by assumption. reflexivity.
  - unfold bind at 1. unfold bind at 1.
    rewrite this_tbody_initialized by exact Hi.
    unfold bind at 1. unfold modify at 1. unfold bind at 1.
    rewrite (forEach_add_pair_plain ps (with_tbody [] e)) by assumption.
    rewrite length_map. destruct ps as [|p r].
    + cbn [List.length Nat.eqb List.map app tbody with_tbody].
      rewrite addRow_default by assumption. reflexivity.
    + cbn [List.length Nat.eqb]. unfold ret. reflexivity.
Qed.




(** X14: a target selector that does not parse makes [setParams]
    fail after it has changed the table: the rows are replaced, then
    the [SyntaxError] of [querySelectorAll] is thrown, and the rows
    stay replaced. *)
Theorem setParams_unparsable_target (ps : list Pair) (e : Editor)
  (sel : jsstring) :
  _initialized e = true -> plain_labels e -> Forall plain_pair ps ->
  target (attributes e) = Some sel -> sel <> [] ->
  (forall e', querySelectorAll e' sel = None) ->
  setParams querySelectorAll (VArr (List.map pair_value_of ps)) false e
  = (Throws SyntaxError, with_tbody (replaced_rows e ps) e).
Proof.
  intros Hi Hl Hps Ht Hsel Hq. rewrite setParams_plain by assumption.
  rewrite updateQuery_initialized by exact Hi.
  cbn [attributes with_tbody]. rewrite Ht.
  destruct sel as [|c r]; [contradiction|]. rewrite Hq. reflexivity.
Qed.

End SetParams.

Lemma example_pairs_plain :
  Forall plain_pair [ {| key := js "a"; value := js "1" |};
                      {| key := js "b c"; value := js "x=y" |} ].
Proof. repeat constructor. Qed.

Lemma example_pairs_wf :
  Forall wf_pair [ {| key := js "a"; value := js "1" |};
                   {| key := js "b c"; value := js "x=y" |} ].
Proof. repeat constructor. Qed.



Lemma unparsable_labels_plain :
  plain_labels (rendered (with_target (js ":")) example_rows example_document).
Proof. split; split; reflexivity. Qed.

Lemma setParams_unparsable_target_witness :
  setParams example_page
    (VArr (List.map pair_value_of [ {| key := js "a"; value := js "1" |};
                                    {| key := js "b c"; value := js "x=y" |} ]))
    false (rendered (with_target (js ":")) example_rows example_document)
  = (Throws SyntaxError,
     rendered (with_target (js ":"))
       [row_of (js "a") (js "1"); row_of (js "b c") (js "x=y")]
       example_document).
Proof.
  exact (setParams_unparsable_target example_page
           [ {| key := js "a"; value := js "1" |};
             {| key := js "b c"; value := js "x=y" |} ]
           (rendered (with_target (js ":")) example_rows example_document)
           (js ":") eq_refl unparsable_labels_plain example_pairs_plain
           eq_refl ltac:(discriminate) (fun e' => eq_refl)).
Defined.

Example setParams_replaces_rows_example :
  setParams example_page
    (VArr (List.map pair_value_of [ {| key := js "a"; value := js "1" |};
                                    {| key := js "b c"; value := js "x=y" |} ]))
    false (rendered (with_target (js ".out")) example_rows example_document)
  = (Returns tt,
     rendered (with_target (js ".out"))
       [row_of (js "a") (js "1"); row_of (js "b c") (js "x=y")]
       [ {| el_kind := HTMLInputElement Text; el_value := js "a=1&b+c=x%3Dy";
            el_textContent := [] |};
         {| el_kind := HTMLTextAreaElement; el_value := js "a=1&b+c=x%3Dy";
            el_textContent := [] |};
         {| el_kind := OtherElement; el_value := [];
            el_textContent := js "a=1&b+c=x%3Dy" |} ]).
Proof. vm_compute. reflexivity. Qed.

(** ** From pairs to rows and back *)

Lemma to_usv_cons (c : N) (s : jsstring) :
  wf_unit c ->
  to_usv (c :: s) =
  if is_high c then
    match s with
    | d :: r' =>
        if is_low d then c :: d :: to_usv r' else 65533 :: to_usv s
    | [] => [65533]
    end
  else if is_low c then 65533 :: to_usv s
  else c :: to_usv s.
Proof.
  unfold wf_unit. intros Hc. unfold to_usv. rewrite utf16_decode_cons.
  destruct (is_high c) eqn:Hh.
  - destruct s as [|d s]; [reflexivity|].
    destruct (is_low d) eqn:Hl; [|reflexivity].
    unfold utf16_encode. cbn [flat_map].
    rewrite utf16_encode_pair by assumption. reflexivity.
  - destruct (is_low c); [reflexivity|].
    unfold utf16_encode. cbn [flat_map]. unfold utf16_encode_cp at 1.
    rewrite (proj2 (N.ltb_lt c 65536)) by lia. reflexivity.
Qed.

Lemma last_cons_cons {A} (x y : A) (l : list A) : last (x :: y :: l) = last (y :: l).
Proof. reflexivity. Qed.

(** The last unit of the scalar value string of a string is its last
    unit, or U+FFFD in place of a surrogate. *)
Lemma to_usv_last (s : jsstring) (c' : N) :
  wf_string s -> last (to_usv s) = Some c' ->
  exists c, last s = Some c /\ (c' = c \/ c' = 65533).
Proof.
  revert c'. induction s as [|c|c d r IH1 IH2] using string_ind2;
    intros c' Hwf.
  - discriminate.
  - rewrite to_usv_cons by exact (Forall_inv Hwf).
    destruct (is_high c); [|destruct (is_low c)]; intros [= <-]; eauto.
  - pose proof (Forall_inv Hwf) as Hc.
    pose proof (Forall_inv_tail Hwf) as Hdr.
    pose proof (Forall_inv_tail Hdr) as Hr.
    assert (Hne : exists x t, to_usv (d :: r) = x :: t).
    { destruct (to_usv_head d r (Forall_inv Hdr)) as (x & t & -> & _). eauto. }
    rewrite last_cons_cons. rewrite to_usv_cons by exact Hc.
    destruct (is_high c).
    + destruct (is_low d) eqn:Hl.
      * destruct r as [|x r'].
        { intros [= <-]. eauto. }
        destruct (to_usv_head x r' (Forall_inv Hr)) as (y & t & E & _).
        rewrite E, !last_cons_cons, <- E. intros H.
        exact (IH1 c' Hr H).
      * destruct Hne as (x & t & E). rewrite E, last_cons_cons, <- E.
        apply IH2, Hdr.
    + destruct Hne as (x & t & E).
      destruct (is_low c); rewrite E, last_cons_cons, <- E; apply IH2, Hdr.
Qed.

Lemma trimEnd_last (s : jsstring) (c : N) :
  last (trimEnd s) = Some c -> is_white_space c = false.
Proof.
  induction s as [|x r IH]; [discriminate|]. cbn [trimEnd].
  destruct (trimEnd r) as [|y t].
  - destruct (is_white_space x) eqn:Hx; [discriminate|]. intros [= <-]. exact Hx.
  - rewrite last_cons_cons. exact IH.
Qed.

Lemma trimEnd_fixed (s : jsstring) :
  (forall c, last s = Some c -> is_white_space c = false) -> trimEnd s = s.
Proof.
  induction s as [|x r IH]; [reflexivity|]. intros H. cbn [trimEnd].
  destruct r as [|y t].
  - cbn [trimEnd]. rewrite (H x eq_refl). reflexivity.
  - rewrite IH by (intros c Hc; apply H; rewrite last_cons_cons; exact Hc).
    reflexivity.
Qed.

Lemma trim_fixed (s : jsstring) :
  (forall c, head s = Some c -> is_white_space c = false) ->
  (forall c, last s = Some c -> is_white_space c = false) ->
  trim s = s.
Proof.
  intros Hh Hl. unfold trim.
  assert (Hs : trimStart s = s).
  { destruct s as [|c r]; [reflexivity|]. cbn [trimStart].
    rewrite (Hh c eq_refl). reflexivity. }
  rewrite Hs. apply trimEnd_fixed, Hl.
Qed.

Lemma trim_ends (s : jsstring) :
  (forall c, head (trim s) = Some c -> is_white_space c = false)
  /\ (forall c, last (trim s) = Some c -> is_white_space c = false).
Proof.
  split.
  - intros c. destruct (trim s) as [|x r] eqn:E; [discriminate|].
    intros [= <-]. exact (trim_head _ _ _ E).
  - intros c. unfold trim. apply trimEnd_last.
Qed.

(** The scalar value string of a trimmed string is trimmed. *)
Lemma trim_to_usv_trim_eq (s : jsstring) :
  wf_string s -> trim (to_usv (trim s)) = to_usv (trim s).
Proof.
  intros Hwf. pose proof (trim_wf s Hwf) as Hwf'.
  destruct (trim_ends s) as [Hh Hl].
  apply trim_fixed.
  - intros c' Hc'. destruct (trim s) as [|x r] eqn:E; [discriminate|].
    destruct (to_usv_head x r (Forall_inv Hwf')) as (y & t & Ey & Hor).
    rewrite Ey in Hc'. injection Hc' as <-.
    destruct Hor as [-> | ->]; [apply Hh; reflexivity|reflexivity].
  - intros c' Hc'. destruct (to_usv_last _ _ Hwf' Hc') as (c & Hc & Hor).
    destruct Hor as [-> | ->]; [apply Hl, Hc|reflexivity].
Qed.

Lemma trim_idempotent (s : jsstring) : trim (trim s) = trim s.
Proof. destruct (trim_ends s). apply trim_fixed; assumption. Qed.

Lemma clean_input (s : jsstring) :
  clean s -> strip_newlines (attribute_text s) = s.
Proof.
  intros (_ & (H0 & H10 & H13) & _). apply attribute_text_single_line; assumption.
Qed.

Lemma params_step_clean (m : gmap jsstring jsstring) (e : Editor) (p : Pair) :
  clean_pair p ->
  params_step m (plain_row e (key p) (value p)) = <[key p := value p]> m.
Proof.
  intros (Hk & Hne & Hv). unfold params_step, row_key, row_value.
  cbn [plain_row key_input value_input input_value].
  rewrite !clean_input by assumption.
  destruct Hk as (_ & _ & [_ Huk] & Htk). destruct Hv as (_ & _ & [_ Huv] & Htv).
  rewrite Htk, Htv, Huk, Huv.
  destruct (key p); [contradiction|reflexivity].
Qed.

Lemma params_spec_clean (e : Editor) (ps : list Pair) :
  Forall clean_pair ps -> params_spec (rows_of_pairs e ps) = mapping_of ps.
Proof.
  unfold params_spec, mapping_of, fromEntries, rows_of_pairs.
  generalize (∅ : gmap jsstring jsstring).
  induction ps as [|p ps IH]; intros m H; [reflexivity|].
  cbn [List.map fold_left].
  rewrite params_step_clean by exact (Forall_inv H).
  apply IH, (Forall_inv_tail H).
Qed.

Lemma clean_pair_plain (ps : list Pair) :
  Forall clean_pair ps -> Forall plain_pair ps /\ Forall wf_pair ps.
Proof.
  induction 1 as [|p ps (Hk & _ & Hv) _ [IH1 IH2]]; [split; constructor|].
  destruct Hk as (Pk & _ & [Wk _] & _). destruct Hv as (Pv & _ & [Wv _] & _).
  split; constructor; try assumption; split; assumption.
Qed.

Section RoundTrip.

Variable querySelectorAll : Editor -> jsstring -> option (list ElementRef).

Lemma setParams_stores (ps : list Pair) (append : bool) (e : Editor) :
  _initialized e = true -> plain_labels e -> Forall plain_pair ps ->
  external_target querySelectorAll e ->
  let rows := if append then tbody e ++ rows_of_pairs e ps
              else replaced_rows e ps in
  exists o d,
    setParams querySelectorAll (VArr (List.map pair_value_of ps)) append e
    = (o, with_document d (with_tbody rows e))
    /\ o <> Unmodelled.
Proof.
  intros Hi Hl Hps Hext rows. rewrite setParams_plain by assumption.
  destruct (updateQuery_outside querySelectorAll (with_tbody rows e))
    as (o & d & Hu & Ho & _).
  { intros sel els Ht Hq. exact (Hext (with_tbody rows e) sel els eq_refl Ht Hq). }
  exists o, d. split; assumption.
Qed.

(** X15: what [setParams] stores, [getParams] returns.  On a rendered
    editor whose labels hold no double quote and no ampersand and
    whose target matches only elements outside the table, for pairs
    of strings that a row keeps as they are (no double quote,
    ampersand, null character or line break, no lone surrogate, no
    white space at the ends) and keys that are not empty,
    [getParams()] after [setParams(pairs)] returns the mapping of the
    pairs, a later pair overriding an earlier one with the same key;
    so it does when [setParams] throws while it publishes. *)
Theorem getParams_after_setParams (ps : list Pair) (e : Editor) :
  _initialized e = true -> plain_labels e -> Forall clean_pair ps ->
  external_target querySelectorAll e ->
  exists o e',
    setParams querySelectorAll (VArr (List.map pair_value_of ps)) false e
    = (o, e')
    /\ o <> Unmodelled
    /\ getParams e' = (Returns (mapping_of ps), e').
Proof.
  intros Hi Hl Hps Hext. destruct (clean_pair_plain ps Hps) as [Hp Hw].
  destruct (setParams_stores ps false e Hi Hl Hp Hext) as (o & d & Hs & Ho).
  eexists _, _. split; [exact Hs|]. split; [exact Ho|].
  rewrite getParams_initialized by exact Hi.
  cbn [tbody with_document with_tbody]. f_equal. f_equal.
  destruct ps as [|p ps]; [reflexivity|].
  apply (params_spec_clean e (p :: ps) Hps).
Qed.

End RoundTrip.

Lemma example_pairs_clean :
  Forall clean_pair [ {| key := js "a"; value := js "1" |};
                      {| key := js "b c"; value := js "x=y" |};
                      {| key := js "a"; value := js "2" |} ].
Proof. repeat constructor; discriminate. Qed.

Lemma example_page_external (rows : list Row) (d : list Element) :
  external_target example_page (rendered (with_target (js ".out")) rows d).
Proof. intros e' sel els _ [= <-] [= <-]. repeat constructor. Qed.

Lemma getParams_after_setParams_witness :
  let e := rendered (with_target (js ".out")) example_rows example_document in
  let ps := [ {| key := js "a"; value := js "1" |};
              {| key := js "b c"; value := js "x=y" |};
              {| key := js "a"; value := js "2" |} ] in
  exists o e',
    setParams example_page (VArr (List.map pair_value_of ps)) false e
    = (o, e')
    /\ o <> Unmodelled
    /\ getParams e' = (Returns (mapping_of ps), e').
Proof.
  exact (getParams_after_setParams example_page
           [ {| key := js "a"; value := js "1" |};
             {| key := js "b c"; value := js "x=y" |};
             {| key := js "a"; value := js "2" |} ]
           (rendered (with_target (js ".out")) example_rows example_document)
           eq_refl (example_labels_plain example_rows example_document)
           example_pairs_clean
           (example_page_external example_rows example_document)).
Defined.

(** ** From one editor to another through the query string *)

Lemma set_first_Forall (P : jsstring * jsstring -> Prop) (name value : jsstring)
  (l : list (jsstring * jsstring)) :
  (forall n v, P (n, v) -> P (n, value)) ->
  Forall P l -> Forall P (URLSearchParams.set_first name value l).
Proof.
  intros Hv. induction 1 as [|[n v] r Hp Hr IH]; [constructor|].
  cbn [URLSearchParams.set_first]. destruct (bool_decide (n = name)).
  - constructor; [exact (Hv n v Hp)|].
    apply List.Forall_forall. intros p Hin.
    apply List.filter_In in Hin as [Hin _].
    exact (proj1 (List.Forall_forall _ _) Hr p Hin).
  - constructor; assumption.
Qed.

Lemma collect_row_trimmed (usp : list (jsstring * jsstring)) (tr : Row) :
  wf_row tr ->
  Forall (fun p => trim p.1 = p.1 /\ trim p.2 = p.2) usp ->
  Forall (fun p => trim p.1 = p.1 /\ trim p.2 = p.2) (collect_row usp tr).
Proof.
  intros [Hk Hv] H. unfold collect_row.
  destruct (trim (input_value (key_input tr))) as [|c k] eqn:E; [exact H|].
  unfold URLSearchParams.set.
  pose proof (trim_to_usv_trim_eq _ Hk) as Tk. rewrite E in Tk.
  pose proof (trim_to_usv_trim_eq _ Hv) as Tv.
  destruct (URLSearchParams.has_name _ usp).
  - apply set_first_Forall; [|exact H]. intros n v [Hn _]. split; assumption.
  - apply Forall_app. split; [exact H|]. repeat constructor; assumption.
Qed.

Lemma search_params_trimmed (rows : list Row) :
  wf_rows rows ->
  Forall (fun p => trim p.1 = p.1 /\ trim p.2 = p.2) (search_params_of rows).
Proof.
  unfold search_params_of, URLSearchParams.empty.
  assert (H0 : Forall (fun p : jsstring * jsstring =>
                         trim p.1 = p.1 /\ trim p.2 = p.2) []) by constructor.
  revert H0. generalize (@nil (jsstring * jsstring)).
  induction rows as [|tr rows IH]; intros usp H0 Hwf; [exact H0|].
  cbn [fold_left]. apply IH; [|exact (Forall_inv_tail Hwf)].
  apply collect_row_trimmed; [exact (Forall_inv Hwf)|exact H0].
Qed.

Lemma collect_row_clean (usp : list (jsstring * jsstring)) (e : Editor)
  (p : Pair) :
  clean_pair p -> key p ∉ usp.*1 ->
  collect_row usp (plain_row e (key p) (value p)) = usp ++ [entry_of_pair p].
Proof.
  intros (Hk & Hne & Hv) Hnot. unfold collect_row.
  cbn [plain_row key_input value_input input_value].
  rewrite !clean_input by assumption.
  destruct Hk as (_ & _ & [_ Huk] & Htk). destruct Hv as (_ & _ & [_ Huv] & Htv).
  rewrite Htk, Htv. destruct (key p) as [|c k] eqn:E; [contradiction|].
  unfold URLSearchParams.set. rewrite Huk, Huv.
  destruct (URLSearchParams.has_name (c :: k) usp) eqn:Hh.
  - apply has_name_spec in Hh. contradiction.
  - unfold entry_of_pair. rewrite E. reflexivity.
Qed.

Lemma search_params_rows_of_pairs (e : Editor) (ps : list Pair)
  (usp : list (jsstring * jsstring)) :
  Forall clean_pair ps -> NoDup (usp.*1 ++ List.map key ps) ->
  fold_left collect_row (rows_of_pairs e ps) usp
  = usp ++ List.map entry_of_pair ps.
Proof.
  revert usp. induction ps as [|p ps IH]; intros usp Hc Hn.
  { cbn. rewrite app_nil_r. reflexivity. }
  cbn [rows_of_pairs List.map fold_left].
  assert (Hnot : key p ∉ usp.*1).
  { apply NoDup_app in Hn as (_ & Hn & _). intros Hin.
    apply (Hn _ Hin). left. }
  rewrite collect_row_clean by (try exact (Forall_inv Hc); exact Hnot).
  fold (rows_of_pairs e ps). rewrite IH.
  - rewrite <- app_assoc. reflexivity.
  - exact (Forall_inv_tail Hc).
  - rewrite fmap_app. cbn [fmap list_fmap entry_of_pair fst].
    rewrite <- app_assoc. exact Hn.
Qed.

Lemma entries_clean (rows : list Row) :
  wf_rows rows -> Forall kept (search_params_of rows) ->
  Forall clean_pair (List.map pair_of_entry (search_params_of rows)).
Proof.
  intros Hwf Hk.
  pose proof (search_params_usv rows Hwf) as Hu.
  pose proof (search_params_trimmed rows Hwf) as Ht.
  destruct (search_params_names rows [] (@List.Forall_nil _ _)) as [Hn _].
  change (fold_left collect_row rows []) with (search_params_of rows) in Hn.
  revert Hk Hu Ht Hn. generalize (search_params_of rows). intros l.
  induction l as [|[n v] l IH]; intros Hk Hu Ht Hn; [constructor|].
  cbn [List.map]. constructor.
  - pose proof (Forall_inv Hk) as [[P1 S1] [P2 S2]].
    pose proof (Forall_inv Hu) as [U1 U2].
    pose proof (Forall_inv Ht) as [T1 T2].
    pose proof (Forall_inv Hn) as N1.
    cbn [fst snd] in *.
    split; [exact (conj P1 (conj S1 (conj U1 T1)))|].
    split; [exact N1|exact (conj P2 (conj S2 (conj U2 T2)))].
  - apply IH; eapply Forall_inv_tail; eassumption.
Qed.

Section Transfer.

Variable querySelectorAll : Editor -> jsstring -> option (list ElementRef).

(** X16: the query string of one editor loads another.  When the
    rows of an editor derive at least one parameter, and no derived
    name or value holds a double quote, an ampersand, a null character
    or a line break, [setParams(parseUrlToData(qs, true))] on a
    second rendered editor, with [qs] the query string of the first,
    gives the second editor rows that derive the same query string,
    provided the labels of the second editor hold no double quote and
    no ampersand and its target matches only elements outside the
    table; so it does when [setParams] throws while it publishes. *)
Theorem query_string_transfers (e e2 : Editor) :
  _initialized e = true -> wf_rows (tbody e) ->
  Forall kept (search_params_of (tbody e)) ->
  search_params_of (tbody e) <> [] ->
  _initialized e2 = true -> plain_labels e2 ->
  external_target querySelectorAll e2 ->
  exists o e2',
    setParams querySelectorAll
      (value_of_result (parseUrlToData (query_string (tbody e)) true)) false e2
    = (o, e2')
    /\ o <> Unmodelled
    /\ query_string (tbody e2') = query_string (tbody e).
Proof.
  intros Hi Hwf Hk Hne Hi2 Hl2 Hext.
  pose proof (search_params_usv _ Hwf) as Hu.
  pose proof (entries_clean _ Hwf Hk) as Hc.
  unfold query_string at 1.
  rewrite parseUrlToData_serialized by exact Hu.
  destruct (search_params_of (tbody e)) as [|p usp] eqn:E; [contradiction|].
  rewrite <- E in *. cbn [value_of_result].
  destruct (clean_pair_plain _ Hc) as [Hp Hw].
  destruct (setParams_stores querySelectorAll
              (List.map pair_of_entry (search_params_of (tbody e)))
              false e2 Hi2 Hl2 Hp Hext)
    as (o & d & Hs & Ho).
  eexists _, _. split; [exact Hs|]. split; [exact Ho|].
  cbn [tbody with_document with_tbody]. unfold query_string. f_equal.
  assert (Hr : replaced_rows e2
                 (List.map pair_of_entry (search_params_of (tbody e)))
               = rows_of_pairs e2
                   (List.map pair_of_entry (search_params_of (tbody e)))).
  { rewrite E. reflexivity. }
  rewrite Hr. unfold search_params_of at 1, URLSearchParams.empty.
  rewrite search_params_rows_of_pairs.
  - cbn [app]. apply entry_of_pair_of_entry.
  - exact Hc.
  - cbn [fmap list_fmap app]. rewrite List.map_map.
    pose proof (search_params_nodup (tbody e)) as Hn.
    erewrite List.map_ext; [exact Hn|]. intros [n v]. reflexivity.
Qed.

(** X17: for an input without a question mark and without an equals
    sign [parseUrlToData] returns text even when the array is asked
    for, and [setParams] rejects that text: the editor is left as it
    was. *)
Theorem setParams_of_parsed_text (input : jsstring) (append : bool)
  (e : Editor) :
  includes input 63 = false -> includes input 61 = false ->
  parseUrlToData input true = AString (js "[]")
  /\ setParams querySelectorAll
       (value_of_result (parseUrlToData input true)) append e
     = (Throws (Error (js "data must be an array")), e).
Proof.
  intros H1 H2. unfold parseUrlToData. rewrite H1, H2.
  split; reflexivity.
Qed.

End Transfer.

Lemma simple_rows_wf : wf_rows simple_rows.
Proof. repeat (constructor; cbn); reflexivity. Qed.

Lemma simple_rows_kept : Forall kept (search_params_of simple_rows).
Proof. vm_compute. repeat constructor. Qed.

Lemma simple_rows_keyed : search_params_of simple_rows <> [].
Proof. vm_compute. discriminate. Qed.

Lemma query_string_transfers_witness :
  let e := rendered no_attributes simple_rows [] in
  let e2 := rendered (with_target (js ".out")) example_rows example_document in
  exists o e2',
    setParams example_page
      (value_of_result (parseUrlToData (query_string (tbody e)) true)) false e2
    = (o, e2')
    /\ o <> Unmodelled
    /\ query_string (tbody e2') = query_string (tbody e).
Proof.
  exact (query_string_transfers example_page
           (rendered no_attributes simple_rows [])
           (rendered (with_target (js ".out")) example_rows example_document)
           eq_refl simple_rows_wf simple_rows_kept simple_rows_keyed
           eq_refl (example_labels_plain example_rows example_document)
           (example_page_external example_rows example_document)).
Defined.

Lemma setParams_of_parsed_text_witness :
  parseUrlToData (js "no-params-here") true = AString (js "[]")
  /\ setParams example_page
       (value_of_result (parseUrlToData (js "no-params-here") true)) false
       (rendered no_attributes example_rows example_document)
     = (Throws (Error (js "data must be an array")),
        rendered no_attributes example_rows example_document).
Proof.
  exact (setParams_of_parsed_text example_page (js "no-params-here") false
           (rendered no_attributes example_rows example_document)
           eq_refl eq_refl).
Defined.

Example query_string_transfers_example :
  query_string simple_rows = js "a=2&b+c=x%3Dy"
  /\ (setParams example_page
        (value_of_result (parseUrlToData (js "a=2&b+c=x%3Dy") true)) false
        (rendered no_attributes example_rows [])).2.(tbody)
     = [row_of (js "a") (js "2"); row_of (js "b c") (js "x=y")].
Proof. vm_compute. split; reflexivity. Qed.

(** ** Initialization *)

Lemma no_items_length (v : JsVal) :
  no_items v = true -> obind (Get_length v) ToBoolean = Returns false.
Proof.
  destruct v as [| |b|n|s|l|props]; cbn; try discriminate; intros H;
    try reflexivity.
  - apply bool_decide_eq_true in H. subst s. reflexivity.
  - apply bool_decide_eq_true in H. subst l. reflexivity.
  - apply bool_decide_eq_true in H. rewrite H. reflexivity.
Qed.

Lemma loadParams_eq (e : Editor) :
  loadParams e =
  let items :=
    match initial_data (attributes e) with
    | Some (c :: r) =>
        match JSON_parse (c :: r) with
        | Returns v => v
        | _ => VArr []
        end
    | _ => VArr []
    end in
  match obind (Get_length items) ToBoolean with
  | Returns true =>
      if Array_isArray items then forEach (elements_of items) add_pair e
      else (Throws TypeError, e)
  | Returns false => addRow VUndefined VUndefined e
  | Throws err => (Throws err, e)
  | Unmodelled => (Unmodelled, e)
  end.
Proof.
  unfold loadParams, bind at 1. unfold getAttribute, bind at 1, get, ret.
  cbn [attribute_of]. cbn zeta.
  set (items := match initial_data (attributes e) with
                | Some (c :: r) => match JSON_parse (c :: r) with
                                   | Returns v => v | _ => VArr [] end
                | _ => VArr [] end).
  unfold bind at 1, lift at 1.
  destruct (Get_length items) as [len| |]; cbn [obind]; try reflexivity.
  unfold bind at 1, lift at 1.
  destruct (ToBoolean len) as [[|]| |]; try reflexivity.
  destruct (Array_isArray items); reflexivity.
Qed.

Lemma loadParams_no_items (e : Editor) :
  _initialized e = true -> plain_labels e ->
  no_initial_items (initial_data (attributes e)) ->
  loadParams e = (Returns tt, with_tbody (tbody e ++ [plain_row e [] []]) e).
Proof.
  intros Hi Hl Hno. rewrite loadParams_eq. cbn zeta.
  assert (Hnone : match obind (Get_length (VArr [])) ToBoolean with
                  | Returns true =>
                      if Array_isArray (VArr [])
                      then forEach (elements_of (VArr [])) add_pair e
                      else (Throws TypeError, e)
                  | Returns false => addRow VUndefined VUndefined e
                  | Throws err => (Throws err, e)
                  | Unmodelled => (Unmodelled, e)
                  end
                  = (Returns tt, with_tbody (tbody e ++ [plain_row e [] []]) e)).
  { apply addRow_default; assumption. }
  unfold no_initial_items in Hno.
  destruct (initial_data (attributes e)) as [[|c r]|]; try exact Hnone.
  destruct Hno as [-> | (v & -> & Hv)]; [exact Hnone|].
  rewrite (no_items_length v Hv).
  apply addRow_default; assumption.
Qed.

(** X18: initial data without items is taken for none.  On a
    rendered editor whose column labels hold no double quote and no
    ampersand, when the [initial-data] attribute is absent or empty,
    is not JSON, or is JSON for a number, a boolean, an empty string,
    an empty array or an object without a [length], [loadParams]
    raises no error and appends one row with an empty key and an empty
    value; nothing else changes. *)
Theorem loadParams_falls_back (e : Editor) :
  _initialized e = true -> plain_labels e ->
  no_initial_items (initial_data (attributes e)) ->
  exists tr,
    loadParams e = (Returns tt, with_tbody (tbody e ++ [tr]) e)
    /\ input_value (key_input tr) = []
    /\ input_value (value_input tr) = [].
Proof.
  intros Hi Hl Hno. exists (plain_row e [] []).
  split; [apply loadParams_no_items; assumption|]. split; reflexivity.
Qed.

Lemma loadParams_falls_back_witness :
  let e := rendered (set_attribute_of no_attributes InitialData
                       (Some (js "{oops"))) example_rows [] in
  exists tr,
    loadParams e = (Returns tt, with_tbody (tbody e ++ [tr]) e)
    /\ input_value (key_input tr) = []
    /\ input_value (value_input tr) = [].
Proof.
  apply (loadParams_falls_back
           (rendered (set_attribute_of no_attributes InitialData
                        (Some (js "{oops"))) example_rows [])).
  - reflexivity.
  - split; split; reflexivity.
  - left. reflexivity.
Defined.

Lemma JSON_stringify_head (ps : list Pair) :
  exists r, JSON_stringify ps = 91 :: r.
Proof. unfold JSON_stringify. eexists. reflexivity. Qed.

Lemma loadParams_pair_list (ps : list Pair) (e : Editor) :
  _initialized e = true -> plain_labels e ->
  Forall plain_pair ps -> Forall wf_pair ps ->
  initial_data (attributes e) = Some (JSON_stringify ps) ->
  loadParams e = (Returns tt, with_tbody (tbody e ++ replaced_rows e ps) e).
Proof.
  intros Hi Hl Hp Hw Hraw. rewrite loadParams_eq, Hraw. cbn zeta.
  pose proof (JSON_parse_stringify ps Hw) as Hparse.
  destruct (JSON_stringify_head ps) as [r Hr]. rewrite Hr in *. rewrite Hparse.
  cbn [Get_length obind ToBoolean Array_isArray elements_of].
  rewrite length_map. destruct ps as [|p ps].
  - cbn [List.length Z.of_nat Z.eqb negb].
    apply addRow_default; assumption.
  - cbn [List.length Z.of_nat Z.eqb negb].
    apply forEach_add_pair_plain; assumption.
Qed.

(** X19: [loadParams] reads the text that [JSON.stringify] makes of a
    pair list, and appends.  On a rendered editor whose column labels
    hold no double quote and no ampersand, for pairs of strings that
    hold none either, it puts one row for each pair, in order, after
    the rows that the table has (one empty row when the list is
    empty); called a second time it appends the same rows again. *)
Theorem loadParams_reads_pair_list (ps : list Pair) (e : Editor) :
  _initialized e = true -> plain_labels e ->
  Forall plain_pair ps -> Forall wf_pair ps ->
  initial_data (attributes e) = Some (JSON_stringify ps) ->
  loadParams e = (Returns tt, with_tbody (tbody e ++ replaced_rows e ps) e)
  /\ (loadParams >>> loadParams) e
     = (Returns tt,
        with_tbody (tbody e ++ replaced_rows e ps ++ replaced_rows e ps) e).
Proof.
  intros Hi Hl Hp Hw Hraw.
  pose proof (loadParams_pair_list ps e Hi Hl Hp Hw Hraw) as H1.
  split; [exact H1|]. unfold bind. rewrite H1.
  rewrite (loadParams_pair_list ps (with_tbody (tbody e ++ replaced_rows e ps) e))
    by assumption.
  cbn [tbody with_tbody]. rewrite <- app_assoc.
  destruct e; reflexivity.
Qed.

Lemma loadParams_reads_pair_list_witness :
  let ps := [ {| key := js "a"; value := js "1" |};
              {| key := js "b c"; value := js "x=y" |} ] in
  let e := rendered (set_attribute_of no_attributes InitialData
                       (Some (JSON_stringify ps))) example_rows [] in
  loadParams e = (Returns tt, with_tbody (tbody e ++ replaced_rows e ps) e)
  /\ (loadParams >>> loadParams) e
     = (Returns tt,
        with_tbody (tbody e ++ replaced_rows e ps ++ replaced_rows e ps) e).
Proof.
  apply (loadParams_reads_pair_list
           [ {| key := js "a"; value := js "1" |};
             {| key := js "b c"; value := js "x=y" |} ]
           (rendered (set_attribute_of no_attributes InitialData
                        (Some (JSON_stringify
                                 [ {| key := js "a"; value := js "1" |};
                                   {| key := js "b c"; value := js "x=y" |} ])))
                     example_rows [])).
  - reflexivity.
  - split; split; reflexivity.
  - exact example_pairs_plain.
  - exact example_pairs_wf.
  - reflexivity.
Defined.

Lemma _render_eq (e : Editor) :
  _render e =
  match rendered_texts (attributes e) with
  | Returns (th0, th1, btn) =>
      (Returns tt,
       {| attributes := attributes e; _initialized := true;
          th_key := th0; th_value := th1; btnAdd := btn;
          tbody := []; document := document e |})
  | Throws err => (Throws err, e)
  | Unmodelled => (Unmodelled, e)
  end.
Proof.
  unfold _render, rendered_texts, getAttribute, get, ret, bind, lift, modify.
  cbn [attribute_of].
  destruct (element_text (or_else (key_text (attributes e)) (js "Key")));
    cbn [obind]; try reflexivity.
  destruct (element_text (or_else (value_text (attributes e)) (js "Value")));
    cbn [obind]; try reflexivity.
  destruct (element_text (or_else (add_button_text (attributes e))
                                  (js "Add parameter")));
    cbn [obind]; reflexivity.
Qed.

Lemma element_text_never_throws (s : jsstring) (err : JsError) :
  element_text s <> Throws err.
Proof. unfold element_text. destruct (existsb _ s); discriminate. Qed.

Lemma rendered_texts_never_throw (a : Attributes) (err : JsError) :
  rendered_texts a <> Throws err.
Proof.
  unfold rendered_texts.
  destruct (element_text (or_else (key_text a) (js "Key"))) eqn:H1;
    cbn [obind]; try discriminate;
    [|intros [= ->]; exact (element_text_never_throws _ _ H1)].
  destruct (element_text (or_else (value_text a) (js "Value"))) eqn:H2;
    cbn [obind]; try discriminate;
    [|intros [= ->]; exact (element_text_never_throws _ _ H2)].
  destruct (element_text (or_else (add_button_text a) (js "Add parameter")))
    eqn:H3; cbn [obind]; try discriminate.
  intros [= ->]. exact (element_text_never_throws _ _ H3).
Qed.

Section Initialization.

Variable querySelectorAll : Editor -> jsstring -> option (list ElementRef).

Lemma connectedCallback_eq (e : Editor) :
  connectedCallback querySelectorAll e =
  match rendered_texts (attributes e) with
  | Returns (th0, th1, btn) =>
      (loadParams >>> updateQuery querySelectorAll)
        {| attributes := attributes e; _initialized := true;
           th_key := th0; th_value := th1; btnAdd := btn;
           tbody := []; document := document e |}
  | Throws err => (Throws err, e)
  | Unmodelled => (Unmodelled, e)
  end.
Proof.
  unfold connectedCallback. unfold bind at 1. rewrite _render_eq.
  destruct (rendered_texts (attributes e)) as [[[th0 th1] btn]|err|];
    reflexivity.
Qed.

(** X20: [connectedCallback] builds the table from the attributes and
    the page alone.  Two editors with the same attributes on the same
    page end with the same outcome, and (where the labels are within
    the modelled markup) in the same state, whatever rows, headers and
    flag they had: connecting an editor again discards its rows. *)
Theorem connectedCallback_discards_rows (e e0 : Editor) :
  attributes e = attributes e0 -> document e = document e0 ->
  (connectedCallback querySelectorAll e).1
  = (connectedCallback querySelectorAll e0).1
  /\ ((connectedCallback querySelectorAll e).1 <> Unmodelled ->
      connectedCallback querySelectorAll e
      = connectedCallback querySelectorAll e0).
Proof.
  intros Ha Hd. rewrite !connectedCallback_eq, Ha, Hd.
  pose proof (rendered_texts_never_throw (attributes e0)) as Hnt.
  destruct (rendered_texts (attributes e0)) as [[[th0 th1] btn]|err|].
  - split; [reflexivity|]. intros _. reflexivity.
  - exfalso. exact (Hnt err eq_refl).
  - split; [reflexivity|]. intros H. exfalso. apply H. reflexivity.
Qed.

End Initialization.






Lemma rendered_state (a : Attributes) (rows : list Row) (d : list Element) :
  {| attributes := a; _initialized := true;
     th_key := or_else (key_text a) (js "Key");
     th_value := or_else (value_text a) (js "Value");
     btnAdd := or_else (add_button_text a) (js "Add parameter");
     tbody := rows; document := d |}
  = rendered a rows d.
Proof. reflexivity. Qed.

Section Connection.

Variable querySelectorAll : Editor -> jsstring -> option (list ElementRef).




End Connection.

Lemma connectedCallback_discards_rows_witness :
  let a := with_target (js ".out") in
  (connectedCallback example_page (rendered a example_rows example_document)).1
  = (connectedCallback example_page (created a example_document)).1
  /\ ((connectedCallback example_page
         (rendered a example_rows example_document)).1 <> Unmodelled ->
      connectedCallback example_page (rendered a example_rows example_document)
      = connectedCallback example_page (created a example_document)).
Proof.
  exact (connectedCallback_discards_rows example_page
           (rendered (with_target (js ".out")) example_rows example_document)
           (created (with_target (js ".out")) example_document)
           eq_refl eq_refl).
Defined.




(** ** Attribute changes *)

Lemma search_params_map (f : Row -> Row) (rows : list Row) :
  (forall tr, input_value (key_input (f tr)) = input_value (key_input tr)
              /\ input_value (value_input (f tr)) = input_value (value_input tr)) ->
  search_params_of (List.map f rows) = search_params_of rows.
Proof.
  intros Hf. unfold search_params_of. generalize URLSearchParams.empty.
  induction rows as [|tr rows IH]; intros usp; [reflexivity|].
  cbn [List.map fold_left]. rewrite IH. f_equal.
  unfold collect_row. destruct (Hf tr) as [-> ->]. reflexivity.
Qed.

Section Attributes.

Variable querySelectorAll : Editor -> jsstring -> option (list ElementRef).

(** X23: a change of an attribute other than [target] after
    initialization.  Setting [key-text] (or [value-text]) to any
    string, markup included, shows that string as the text of the
    header and as the placeholder of the key (or value) input of every
    row; setting [add-button-text] changes the text of the button
    only; setting [initial-data] changes the attribute only, and no
    row is loaded.  None raises an error, changes the key or the value
    of a row, hence the derived parameters, or writes to an element
    outside the table. *)
Theorem setAttribute_keeps_rows (v : jsstring) (e : Editor) :
  _initialized e = true ->
  (exists e',
     setAttribute querySelectorAll KeyText v e = (Returns tt, e')
     /\ key_text (attributes e') = Some v
     /\ th_key e' = v
     /\ tbody e' = List.map (on_key_input (set_placeholder v)) (tbody e)
     /\ document e' = document e
     /\ search_params_of (tbody e') = search_params_of (tbody e))
  /\ (exists e',
        setAttribute querySelectorAll ValueText v e = (Returns tt, e')
        /\ value_text (attributes e') = Some v
        /\ th_value e' = v
        /\ tbody e' = List.map (on_value_input (set_placeholder v)) (tbody e)
        /\ document e' = document e
        /\ search_params_of (tbody e') = search_params_of (tbody e))
  /\ setAttribute querySelectorAll AddButtonText v e
     = (Returns tt,
        with_btnAdd v
          (with_attributes
             (set_attribute_of (attributes e) AddButtonText (Some v)) e))
  /\ setAttribute querySelectorAll InitialData v e
     = (Returns tt,
        with_attributes (set_attribute_of (attributes e) InitialData (Some v)) e).
Proof.
  intros Hi. destruct e as [a i k w b rows d]. cbn in Hi. subst i.
  split; [|split; [|split]].
  - eexists. split; [cbn; reflexivity|]. cbn. repeat split.
    apply search_params_map. intros tr. split; reflexivity.
  - eexists. split; [cbn; reflexivity|]. cbn. repeat split.
    apply search_params_map. intros tr. split; reflexivity.
  - reflexivity.
  - reflexivity.
Qed.

(** X24: the removal of a label after initialization.  Removing
    [key-text] empties the header and leaves the word [null] as the
    placeholder of the key input of every row, while a row added
    afterwards has the placeholder [Key]. *)
Theorem removeAttribute_label (old : jsstring) (e : Editor) :
  _initialized e = true -> key_text (attributes e) = Some old ->
  plain (value_placeholder e) ->
  exists e1,
    removeAttribute querySelectorAll KeyText e = (Returns tt, e1)
    /\ key_text (attributes e1) = None
    /\ th_key e1 = []
    /\ tbody e1
       = List.map (on_key_input (set_placeholder (js "null"))) (tbody e)
    /\ exists tr,
         addRow VUndefined VUndefined e1
         = (Returns tt, with_tbody (tbody e1 ++ [tr]) e1)
         /\ placeholder (key_input tr) = js "Key".
Proof.
  intros Hi Hold Hv. destruct e as [a i k w b rows d]. cbn in Hi, Hold. subst i.
  eexists. split.
  { unfold removeAttribute, bind at 1, get. cbn [attribute_of attributes].
    rewrite Hold. cbn. reflexivity. }
  split; [reflexivity|]. split; [reflexivity|]. split; [reflexivity|].
  eexists. split.
  - apply addRow_default; [reflexivity|]. split; [split; reflexivity|exact Hv].
  - reflexivity.
Qed.

(** X25: before the element is connected.  A change of any observed
    attribute is recorded and has no other effect, not even an error
    for [target]; [getParams] and [updateQuery] throw a [TypeError],
    and so does [setParams] with any array when it replaces and with
    the empty array when it appends; when the column labels hold no
    double quote and no ampersand, [addRow] with two strings that hold
    none, and [setParams] appending the pair of them, throw a
    [TypeError] too.  None of them changes anything. *)
Theorem before_connection (e : Editor) :
  _initialized e = false ->
  (forall name v,
     setAttribute querySelectorAll name v e
     = (Returns tt,
        with_attributes (set_attribute_of (attributes e) name (Some v)) e))
  /\ getParams e = (Throws TypeError, e)
  /\ updateQuery querySelectorAll e = (Throws TypeError, e)
  /\ (forall l, setParams querySelectorAll (VArr l) false e
                = (Throws TypeError, e))
  /\ setParams querySelectorAll (VArr []) true e = (Throws TypeError, e)
  /\ (plain_labels e ->
      forall k v, plain k -> plain v ->
        addRow (VStr k) (VStr v) e = (Throws TypeError, e)
        /\ setParams querySelectorAll
             (VArr [pair_value_of {| key := k; value := v |}]) true e
           = (Throws TypeError, e)).
Proof.
  intros Hi. split; [|split; [|split; [|split; [|split]]]].
  - intros name v. destruct e as [a i k w b rows d]. cbn in Hi. subst i.
    cbn. reflexivity.
  - unfold getParams, _getSearchParams, bind.
    rewrite this_tbody_uninitialized by exact Hi. reflexivity.
  - apply updateQuery_uninitialized, Hi.
  - intros l. unfold setParams. cbn [Array_isArray negb]. unfold bind at 1.
    unfold bind at 1. rewrite this_tbody_uninitialized by exact Hi. reflexivity.
  - unfold setParams. cbn [Array_isArray negb elements_of forEach].
    change (bind (ret tt) (fun _ => updateQuery querySelectorAll) e)
      with (updateQuery querySelectorAll e).
    apply updateQuery_uninitialized, Hi.
  - intros [Hl1 Hl2] k v Hk Hv.
    assert (Ha : addRow (VStr k) (VStr v) e = (Throws TypeError, e)).
    { rewrite addRow_eq. cbn [default_empty ToString].
      rewrite parse_row_plain by assumption. rewrite Hi. reflexivity. }
    split; [exact Ha|].
    unfold setParams. cbn [Array_isArray negb elements_of forEach].
    unfold bind at 1. unfold bind at 1.
    unfold add_pair, bind, lift, pair_value_of. cbn [key value].
    change (Get (VObj [(js "key", VStr k); (js "value", VStr v)]) (js "key"))
      with (Returns (VStr k)).
    change (Get (VObj [(js "key", VStr k); (js "value", VStr v)]) (js "value"))
      with (Returns (VStr v)).
    cbn iota beta. rewrite Ha. reflexivity.
Qed.

End Attributes.

Lemma setAttribute_keeps_rows_witness :
  let e := rendered no_attributes example_rows example_document in
  exists e',
    setAttribute example_page KeyText (js "<b>Name</b>") e = (Returns tt, e')
    /\ key_text (attributes e') = Some (js "<b>Name</b>")
    /\ th_key e' = js "<b>Name</b>"
    /\ tbody e'
       = List.map (on_key_input (set_placeholder (js "<b>Name</b>"))) (tbody e)
    /\ document e' = document e
    /\ search_params_of (tbody e') = search_params_of (tbody e).
Proof.
  exact (proj1 (setAttribute_keeps_rows example_page (js "<b>Name</b>")
                  (rendered no_attributes example_rows example_document)
                  eq_refl)).
Defined.

Lemma removeAttribute_label_witness :
  let e := rendered (set_attribute_of no_attributes KeyText (Some (js "Name")))
             [ {| key_input := text_input (js "Name") (js "a");
                  value_input := text_input (js "Value") (js "1") |} ] [] in
  exists e1,
    removeAttribute example_page KeyText e = (Returns tt, e1)
    /\ key_text (attributes e1) = None
    /\ th_key e1 = []
    /\ tbody e1
       = [ {| key_input := text_input (js "null") (js "a");
              value_input := text_input (js "Value") (js "1") |} ]
    /\ exists tr,
         addRow VUndefined VUndefined e1
         = (Returns tt, with_tbody (tbody e1 ++ [tr]) e1)
         /\ placeholder (key_input tr) = js "Key".
Proof.
  exact (removeAttribute_label example_page (js "Name")
           (rendered (set_attribute_of no_attributes KeyText (Some (js "Name")))
              [ {| key_input := text_input (js "Name") (js "a");
                   value_input := text_input (js "Value") (js "1") |} ] [])
           eq_refl eq_refl (conj eq_refl eq_refl)).
Defined.

Lemma before_connection_witness :
  let e := created (with_target (js ".out")) example_document in
  (forall name v,
     setAttribute example_page name v e
     = (Returns tt,
        with_attributes (set_attribute_of (attributes e) name (Some v)) e))
  /\ getParams e = (Throws TypeError, e)
  /\ updateQuery example_page e = (Throws TypeError, e)
  /\ (forall l, setParams example_page (VArr l) false e = (Throws TypeError, e))
  /\ setParams example_page (VArr []) true e = (Throws TypeError, e)
  /\ (plain_labels e ->
      forall k v, plain k -> plain v ->
        addRow (VStr k) (VStr v) e = (Throws TypeError, e)
        /\ setParams example_page
             (VArr [pair_value_of {| key := k; value := v |}]) true e
           = (Throws TypeError, e)).
Proof.
  exact (before_connection example_page
           (created (with_target (js ".out")) example_document) eq_refl).
Defined.

(** ** The order of the derived parameters *)

(** X26: the order of the derived parameters.  A key appears in the
    search parameters, hence in the query string, at the place of the
    first row that has it, even though its value is that of the last
    such row: the names are the keys of the rows, in order, each at
    its first occurrence. *)
Theorem getSearchParams_order (e : Editor) :
  _initialized e = true ->
  exists usp,
    _getSearchParams e = (Returns usp, e)
    /\ (URLSearchParams.entries usp).*1 = first_occurrences (row_keys (tbody e)).
Proof.
  intros Hi. exists (search_params_of (tbody e)).
  split; [apply _getSearchParams_initialized, Hi|].
  apply (search_params_order (tbody e) []). constructor.
Qed.

Lemma getSearchParams_order_witness :
  let e := rendered no_attributes
             [row_of (js "a") (js "1"); row_of (js "b") (js "2");
              row_of (js " a") (js "3")] [] in
  exists usp,
    _getSearchParams e = (Returns usp, e)
    /\ (URLSearchParams.entries usp).*1 = first_occurrences (row_keys (tbody e)).
Proof.
  exact (getSearchParams_order
           (rendered no_attributes
              [row_of (js "a") (js "1"); row_of (js "b") (js "2");
               row_of (js " a") (js "3")] []) eq_refl).
Defined.

Example search_params_order_example :
  first_occurrences
    (row_keys [row_of (js "a") (js "1"); row_of (js "b") (js "2");
               row_of (js " a") (js "3")])
  = [js "a"; js "b"]
  /\ query_string [row_of (js "a") (js "1"); row_of (js "b") (js "2");
                   row_of (js " a") (js "3")]
     = js "a=3&b=2".
Proof. vm_compute. split; reflexivity. Qed.

(** ** Pairs with missing fields, and initial data that is no list *)

Section Edges.

Variable querySelectorAll : Editor -> jsstring -> option (list ElementRef).

Lemma setParams_one (el : JsVal) (e : Editor) (tr : Row) :
  _initialized e = true -> target (attributes e) = None ->
  add_pair el (with_tbody [] e) = (Returns tt, with_tbody [tr] e) ->
  setParams querySelectorAll (VArr [el]) false e
  = (Returns tt, with_tbody [tr] e).
Proof.
  intros Hi Ht Hadd. unfold setParams. cbn [Array_isArray negb elements_of].
  unfold bind at 1. unfold bind at 1.
  rewrite this_tbody_initialized by exact Hi.
  unfold bind at 1. unfold modify at 1. unfold bind at 1.
  cbn [forEach]. unfold bind at 1. rewrite Hadd.
  cbn [List.length Nat.eqb]. unfold ret at 1 2.
  rewrite updateQuery_initialized by exact Hi.
  cbn [attributes with_tbody]. rewrite Ht. reflexivity.
Qed.

Lemma add_pair_fields (props : list (jsstring * JsVal)) (k v : jsstring)
  (e : Editor) :
  _initialized e = true -> plain_labels e -> plain k -> plain v ->
  ToString (default_empty (default VUndefined (own_property props (js "key"))))
  = Returns k ->
  ToString (default_empty (default VUndefined (own_property props (js "value"))))
  = Returns v ->
  add_pair (VObj props) (with_tbody [] e)
  = (Returns tt, with_tbody [plain_row e k v] e).
Proof.
  intros Hi [Hl1 Hl2] Hk Hv Tk Tv. unfold add_pair, bind, lift. cbn [Get].
  rewrite addRow_eq. unfold key_placeholder, value_placeholder.
  cbn [attributes with_tbody _initialized tbody]. rewrite Tk, Tv.
  rewrite parse_row_plain by assumption. rewrite Hi. reflexivity.
Qed.

(** X27: pairs with missing fields.  On a rendered editor without a
    target, whose column labels hold no double quote and no
    ampersand, and for a text without them, [setParams] takes a pair
    without a [value] for one with an empty value and a pair without a
    [key] for one with an empty key, so that [setParams([{}])] leaves
    one empty row; a [value] that is [null] is not missing: the row
    holds the word [null]. *)
Theorem setParams_missing_fields (k : jsstring) (e : Editor) :
  _initialized e = true -> plain_labels e -> plain k ->
  target (attributes e) = None ->
  setParams querySelectorAll (VArr [VObj [(js "key", VStr k)]]) false e
  = (Returns tt, with_tbody [plain_row e k []] e)
  /\ setParams querySelectorAll (VArr [VObj [(js "value", VStr k)]]) false e
     = (Returns tt, with_tbody [plain_row e [] k] e)
  /\ setParams querySelectorAll (VArr [VObj []]) false e
     = (Returns tt, with_tbody [plain_row e [] []] e)
  /\ setParams querySelectorAll
       (VArr [VObj [(js "key", VStr k); (js "value", VNull)]]) false e
     = (Returns tt, with_tbody [plain_row e k (js "null")] e).
Proof.
  intros Hi Hl Hk Ht.
  assert (Hnil : plain []) by (split; reflexivity).
  assert (Hnull : plain (js "null")) by (split; reflexivity).
  repeat split; apply setParams_one; try assumption;
    apply add_pair_fields; try assumption; reflexivity.
Qed.

End Edges.

(** X28: initial data that is JSON but no list.  When the
    [initial-data] attribute is JSON for [null] or for a string that
    is not empty, [loadParams] throws a [TypeError] and adds no row,
    in whatever state the editor is. *)
Theorem loadParams_not_a_list (raw : jsstring) (v : JsVal) (e : Editor) :
  initial_data (attributes e) = Some raw -> raw <> [] ->
  JSON_parse raw = Returns v ->
  v = VNull \/ (exists c s, v = VStr (c :: s)) ->
  loadParams e = (Throws TypeError, e).
Proof.
  intros Hraw Hne Hparse Hv. rewrite loadParams_eq, Hraw. cbn zeta.
  destruct raw as [|c r]; [contradiction|]. rewrite Hparse.
  destruct Hv as [-> | (d & s & ->)]; [reflexivity|].
  cbn [Get_length obind ToBoolean List.length Array_isArray].
  destruct (Z.of_nat (S (List.length s)) =? 0)%Z eqn:E; [|reflexivity].
  apply Z.eqb_eq in E. lia.
Qed.

Lemma setParams_missing_fields_witness :
  let e := rendered no_attributes example_rows example_document in
  setParams example_page (VArr [VObj [(js "key", VStr (js "q"))]]) false e
  = (Returns tt, with_tbody [plain_row e (js "q") []] e)
  /\ setParams example_page (VArr [VObj [(js "value", VStr (js "q"))]]) false e
     = (Returns tt, with_tbody [plain_row e [] (js "q")] e)
  /\ setParams example_page (VArr [VObj []]) false e
     = (Returns tt, with_tbody [plain_row e [] []] e)
  /\ setParams example_page
       (VArr [VObj [(js "key", VStr (js "q")); (js "value", VNull)]]) false e
     = (Returns tt, with_tbody [plain_row e (js "q") (js "null")] e).
Proof.
  exact (setParams_missing_fields example_page (js "q")
           (rendered no_attributes example_rows example_document)
           eq_refl (conj (conj eq_refl eq_refl) (conj eq_refl eq_refl))
           (conj eq_refl eq_refl) eq_refl).
Defined.

Lemma loadParams_not_a_list_witness :
  let e := created (set_attribute_of no_attributes InitialData
                      (Some (jsq "'a=1'"))) [] in
  loadParams e = (Throws TypeError, e).
Proof.
  exact (loadParams_not_a_list (jsq "'a=1'") (VStr (js "a=1"))
           (created (set_attribute_of no_attributes InitialData
                       (Some (jsq "'a=1'"))) [])
           eq_refl ltac:(discriminate) eq_refl
           (or_intror (ex_intro _ 97 (ex_intro _ (js "=1") eq_refl)))).
Defined.
